(** * PlexExtrasCollection: a shallow embedding of [PlexExtrasCollection.py]

    The script resolves its settings from [config.yml] and the command line,
    lists a Plex library section, fetches the metadata of its items in groups
    of 50, records which items have local extras, and then adds items to (or
    removes them from) a named collection.

    The embedding follows the class [CommentaryCollection] method by method.
    Python objects received from the outside (YAML values, argparse results,
    decoded JSON) are typed: settings are dynamically typed values ([pyval]),
    JSON objects are records with the keys the script reads.  The console
    and the network are a state: the lines still to be read from standard
    input, the server (a function from the requests made so far and a URL to
    a reply), and the trace of what the program printed and requested.
    Exceptions are results of the monad [M]. *)

From Stdlib Require Import ZArith List String Ascii Lia Bool.
From stdpp Require Import base option list gmap strings pretty.

Open Scope string_scope.
Open Scope list_scope.
Open Scope Z_scope.

(** ** Python values and string operations *)

Module Py.

(** The values a setting can hold: [None], a [bool], an [int] or a [str]. *)
Inductive pyval :=
| PyNone
| PyBool (b : bool)
| PyInt (n : Z)
| PyStr (s : string).

Definition is_none (v : pyval) : bool :=
  match v with PyNone => true | _ => false end.

(** [str(v)], which is also what an f-string writes for [{v}]. *)
Definition str (v : pyval) : string :=
  match v with
  | PyNone => "None"
  | PyBool true => "True"
  | PyBool false => "False"
  | PyInt n => pretty n
  | PyStr s => s
  end.

(** [bool(v)]. *)
Definition truthy (v : pyval) : bool :=
  match v with
  | PyNone => false
  | PyBool b => b
  | PyInt n => negb (n =? 0)
  | PyStr s => negb (String.eqb s "")
  end.

Definition nl : string := String (ascii_of_nat 10) EmptyString.
Definition dq : string := String (ascii_of_nat 34) EmptyString.

Definition is_digit (c : ascii) : bool :=
  let n := N_of_ascii c in ((48 <=? n) && (n <=? 57))%N.
Definition is_upper (c : ascii) : bool :=
  let n := N_of_ascii c in ((65 <=? n) && (n <=? 90))%N.
Definition is_lower (c : ascii) : bool :=
  let n := N_of_ascii c in ((97 <=? n) && (n <=? 122))%N.

(** A [str] is held as the bytes of its UTF-8 encoding.  [code_points] gives
    its characters back; a byte that is not part of a well-formed sequence
    stands for the lone surrogate [U+DC00 + byte], as in text decoded with
    [surrogateescape]. *)
Definition continuation (b : N) : bool := ((128 <=? b) && (b <=? 191))%N.

(** The character that starts with the byte [b], given the bytes [r] after
    it, and the number of those bytes that belong to it. *)
Definition decode_first (b : N) (r : list N) : N * nat :=
  let escaped := ((56320 + b)%N, 0%nat) in
  if (b <? 128)%N then (b, 0%nat)
  else if ((194 <=? b) && (b <=? 223))%N then
    match r with
    | c1 :: _ =>
        if continuation c1 then (((b - 192) * 64 + (c1 - 128))%N, 1%nat) else escaped
    | _ => escaped
    end
  else if ((224 <=? b) && (b <=? 239))%N then
    match r with
    | c1 :: c2 :: _ =>
        let cp := ((b - 224) * 4096 + (c1 - 128) * 64 + (c2 - 128))%N in
        if continuation c1 && continuation c2 && (2048 <=? cp)%N
           && negb ((55296 <=? cp) && (cp <=? 57343))%N
        then (cp, 2%nat) else escaped
    | _ => escaped
    end
  else if ((240 <=? b) && (b <=? 244))%N then
    match r with
    | c1 :: c2 :: c3 :: _ =>
        let cp := ((b - 240) * 262144 + (c1 - 128) * 4096 + (c2 - 128) * 64
                   + (c3 - 128))%N in
        if continuation c1 && continuation c2 && continuation c3
           && (65536 <=? cp)%N && (cp <=? 1114111)%N
        then (cp, 3%nat) else escaped
    | _ => escaped
    end
  else escaped.

(** [skip] counts the bytes still to pass over, which belong to the
    character decoded last. *)
Fixpoint decode_utf8 (skip : nat) (l : list N) : list N :=
  match l with
  | [] => []
  | b :: r =>
      match skip with
      | S k => decode_utf8 k r
      | O => let (cp, k) := decode_first b r in cp :: decode_utf8 k r
      end
  end.

Definition code_points (s : string) : list N :=
  decode_utf8 0 (map N_of_ascii (list_ascii_of_string s)).

Definition in_ranges (ranges : list (N * N)) (cp : N) : bool :=
  existsb (fun r => (fst r <=? cp) && (cp <=? snd r))%N ranges.
(** The characters for which [str.isnumeric] holds (Unicode 14.0.0, the version
    of CPython 3.11), as ranges of code points. *)
Definition numeric_ranges : list (N * N) :=
  [(48, 57); (178, 179); (185, 185); (188, 190); (1632, 1641); (1776, 1785); (1984, 1993);
   (2406, 2415); (2534, 2543); (2548, 2553); (2662, 2671); (2790, 2799); (2918, 2927);
   (2930, 2935); (3046, 3058); (3174, 3183); (3192, 3198); (3302, 3311); (3416, 3422);
   (3430, 3448); (3558, 3567); (3664, 3673); (3792, 3801); (3872, 3891); (4160, 4169);
   (4240, 4249); (4969, 4988); (5870, 5872); (6112, 6121); (6128, 6137); (6160, 6169);
   (6470, 6479); (6608, 6618); (6784, 6793); (6800, 6809); (6992, 7001); (7088, 7097);
   (7232, 7241); (7248, 7257); (8304, 8304); (8308, 8313); (8320, 8329); (8528, 8578);
   (8581, 8585); (9312, 9371); (9450, 9471); (10102, 10131); (11517, 11517);
   (12295, 12295); (12321, 12329); (12344, 12346); (12690, 12693); (12832, 12841);
   (12872, 12879); (12881, 12895); (12928, 12937); (12977, 12991); (13317, 13317);
   (13443, 13443); (14378, 14378); (15181, 15181); (19968, 19968); (19971, 19971);
   (19975, 19975); (19977, 19977); (20061, 20061); (20108, 20108); (20116, 20116);
   (20118, 20118); (20159, 20160); (20191, 20191); (20200, 20200); (20237, 20237);
   (20336, 20336); (20740, 20740); (20806, 20806); (20841, 20841); (20843, 20843);
   (20845, 20845); (21313, 21313); (21315, 21317); (21324, 21324); (21441, 21444);
   (22235, 22235); (22769, 22769); (22777, 22777); (24186, 24186); (24318, 24319);
   (24332, 24334); (24336, 24336); (25342, 25342); (25420, 25420); (26578, 26578);
   (28422, 28422); (29590, 29590); (30334, 30334); (32902, 32902); (33836, 33836);
   (36014, 36014); (36019, 36019); (36144, 36144); (38433, 38433); (38470, 38470);
   (38476, 38476); (38520, 38520); (38646, 38646); (42528, 42537); (42726, 42735);
   (43056, 43061); (43216, 43225); (43264, 43273); (43472, 43481); (43504, 43513);
   (43600, 43609); (44016, 44025); (63851, 63851); (63859, 63859); (63864, 63864);
   (63922, 63922); (63953, 63953); (63955, 63955); (63997, 63997); (65296, 65305);
   (65799, 65843); (65856, 65912); (65930, 65931); (66273, 66299); (66336, 66339);
   (66369, 66369); (66378, 66378); (66513, 66517); (66720, 66729); (67672, 67679);
   (67705, 67711); (67751, 67759); (67835, 67839); (67862, 67867); (68028, 68029);
   (68032, 68047); (68050, 68095); (68160, 68168); (68221, 68222); (68253, 68255);
   (68331, 68335); (68440, 68447); (68472, 68479); (68521, 68527); (68858, 68863);
   (68912, 68921); (69216, 69246); (69405, 69414); (69457, 69460); (69573, 69579);
   (69714, 69743); (69872, 69881); (69942, 69951); (70096, 70105); (70113, 70132);
   (70384, 70393); (70736, 70745); (70864, 70873); (71248, 71257); (71360, 71369);
   (71472, 71483); (71904, 71922); (72016, 72025); (72784, 72812); (73040, 73049);
   (73120, 73129); (73664, 73684); (74752, 74862); (92768, 92777); (92864, 92873);
   (93008, 93017); (93019, 93025); (93824, 93846); (119520, 119539); (119648, 119672);
   (120782, 120831); (123200, 123209); (123632, 123641); (125127, 125135);
   (125264, 125273); (126065, 126123); (126125, 126127); (126129, 126132);
   (126209, 126253); (126255, 126269); (127232, 127244); (130032, 130041);
   (131073, 131073); (131172, 131172); (131298, 131298); (131361, 131361);
   (133418, 133418); (133507, 133507); (133516, 133516); (133532, 133532);
   (133866, 133866); (133885, 133885); (133913, 133913); (140176, 140176);
   (141720, 141720); (146203, 146203); (156269, 156269); (194704, 194704)]%N.

(** The decimal digits (category [Nd]); each range holds whole runs of the
    ten digits in order, so a digit's value is its offset modulo 10. *)
Definition decimal_ranges : list (N * N) :=
  [(48, 57); (1632, 1641); (1776, 1785); (1984, 1993); (2406, 2415); (2534, 2543);
   (2662, 2671); (2790, 2799); (2918, 2927); (3046, 3055); (3174, 3183); (3302, 3311);
   (3430, 3439); (3558, 3567); (3664, 3673); (3792, 3801); (3872, 3881); (4160, 4169);
   (4240, 4249); (6112, 6121); (6160, 6169); (6470, 6479); (6608, 6617); (6784, 6793);
   (6800, 6809); (6992, 7001); (7088, 7097); (7232, 7241); (7248, 7257); (42528, 42537);
   (43216, 43225); (43264, 43273); (43472, 43481); (43504, 43513); (43600, 43609);
   (44016, 44025); (65296, 65305); (66720, 66729); (68912, 68921); (69734, 69743);
   (69872, 69881); (69942, 69951); (70096, 70105); (70384, 70393); (70736, 70745);
   (70864, 70873); (71248, 71257); (71360, 71369); (71472, 71481); (71904, 71913);
   (72016, 72025); (72784, 72793); (73040, 73049); (73120, 73129); (92768, 92777);
   (92864, 92873); (93008, 93017); (120782, 120831); (123200, 123209); (123632, 123641);
   (125264, 125273); (130032, 130041)]%N.

(** The characters for which [str.isspace] holds. *)
Definition space_ranges : list (N * N) :=
  [(9, 13); (28, 32); (133, 133); (160, 160); (5760, 5760); (8192, 8202); (8232, 8233);
   (8239, 8239); (8287, 8287); (12288, 12288)]%N.

Definition decimal_value (cp : N) : option N :=
  match List.find (fun r => (fst r <=? cp) && (cp <=? snd r))%N decimal_ranges with
  | Some r => Some ((cp - fst r) mod 10)%N
  | None => None
  end.

(** [s.isnumeric()]: at least one character, and every character numeric. *)
Definition isnumeric (s : string) : bool :=
  match code_points s with
  | [] => false
  | cps => forallb (in_ranges numeric_ranges) cps
  end.

(** The ASCII text [int] parses: decimal digits become ASCII digits and
    spaces become [' ']; at any other character that is not ASCII the text
    ends with a [?]. *)
Fixpoint to_ascii_decimal (cps : list N) : list N :=
  match cps with
  | [] => []
  | cp :: r =>
      if (cp <? 128)%N then cp :: to_ascii_decimal r
      else if in_ranges space_ranges cp then 32%N :: to_ascii_decimal r
      else match decimal_value cp with
           | Some d => (48 + d)%N :: to_ascii_decimal r
           | None => [63%N]
           end
  end.

Definition ascii_space (c : N) : bool := (((9 <=? c) && (c <=? 13)) || (c =? 32))%N.

Fixpoint skip_spaces (l : list N) : list N :=
  match l with
  | [] => []
  | c :: r => if ascii_space c then skip_spaces r else l
  end.

(** Where the scan of the digits is: before the first digit, after a digit,
    or after an underscore. *)
Inductive scan_state := AtStart | AfterDigit | AfterUnderscore.

(** The digits of a number, in which single underscores may separate digits,
    and what follows them; [None] when there is no digit, or an underscore
    that does not sit between two digits. *)
Fixpoint scan_digits (state : scan_state) (l : list N) (digits : list N)
    : option (list N * list N) :=
  match l with
  | [] => match state with AfterDigit => Some (digits, []) | _ => None end
  | c :: r =>
      if ((48 <=? c) && (c <=? 57))%N then scan_digits AfterDigit r (digits ++ [(c - 48)%N])
      else if (c =? 95)%N then
        match state with
        | AfterDigit => scan_digits AfterUnderscore r digits
        | _ => None
        end
      else match state with AfterDigit => Some (digits, l) | _ => None end
  end.

Definition digits_value (digits : list N) : Z :=
  fold_left (fun acc d => 10 * acc + Z.of_N d) digits 0.

(** [int(s)] for a [str]; [None] stands for [ValueError].  Spaces around the
    number, a sign, decimal digits of any script and single underscores
    between digits are accepted; more than 4300 digits are not (the default
    limit of CPython 3.11). *)
Definition int (s : string) : option Z :=
  let text := skip_spaces (to_ascii_decimal (code_points s)) in
  let (negative, text) :=
    match text with
    | 43%N :: r => (false, r)
    | 45%N :: r => (true, r)
    | _ => (false, text)
    end in
  match scan_digits AtStart text [] with
  | Some (digits, rest) =>
      match skip_spaces rest with
      | [] =>
          if (List.length digits <=? 4300)%nat
          then Some (if negative then - digits_value digits else digits_value digits)
          else None
      | _ => None
      end
  | None => None
  end.

(** [s.rjust(width, fill)]. *)
Definition rjust (width : nat) (fill : ascii) (s : string) : string :=
  string_of_list_ascii (repeat fill (width - String.length s)) +:+ s.

(** [s.lower()] on ASCII text. *)
Definition lower_char (c : ascii) : ascii :=
  if is_upper c then ascii_of_N (N_of_ascii c + 32) else c.
Fixpoint lower (s : string) : string :=
  match s with
  | EmptyString => EmptyString
  | String c r => String (lower_char c) (lower r)
  end.

(** [sep.join(l)]. *)
Fixpoint join (sep : string) (l : list string) : string :=
  match l with
  | [] => ""
  | [x] => x
  | x :: r => x +:+ sep +:+ join sep r
  end.

(** [s.startswith(p)]. *)
Definition startswith (s p : string) : bool := String.prefix p s.

(** [range(0, stop, step)] for a positive [step]. *)
Definition range_step (stop step : nat) : list nat :=
  map (fun k => (k * step)%nat) (seq 0 ((stop + (step - 1)) / step)).

(** [l[i:j]] for [0 <= i] and [0 <= j]. *)
Definition slice {A} (l : list A) (i j : nat) : list A :=
  firstn (j - i) (skipn i l).

(** A [dict] with [str] keys keeps its items in insertion order, and an
    assignment to a key it already has keeps the key's place. *)
Fixpoint dict_set {V} (k : string) (v : V) (d : list (string * V)) : list (string * V) :=
  match d with
  | [] => [(k, v)]
  | (k', v') :: d' =>
      if String.eqb k' k then (k, v) :: d' else (k', v') :: dict_set k v d'
  end.

Fixpoint dict_get {V} (k : string) (d : list (string * V)) : option V :=
  match d with
  | [] => None
  | (k', v') :: d' => if String.eqb k' k then Some v' else dict_get k d'
  end.

(** In-place change of the value stored under [k] ([d[k][field] = x]). *)
Fixpoint dict_alter {V} (f : V -> V) (k : string) (d : list (string * V)) : list (string * V) :=
  match d with
  | [] => []
  | (k', v') :: d' =>
      if String.eqb k' k then (k', f v') :: d' else (k', v') :: dict_alter f k d'
  end.

Definition dict_keys {V} (d : list (string * V)) : list string := map fst d.

(** [urllib.parse.quote(s)] with the default [safe='/']: the bytes of the
    UTF-8 text outside [A-Za-z0-9_.-~/] are written [%XX]. *)
Definition quote_safe (c : ascii) : bool :=
  is_upper c || is_lower c || is_digit c
  || Ascii.eqb c "_" || Ascii.eqb c "." || Ascii.eqb c "-" || Ascii.eqb c "~"
  || Ascii.eqb c "/".

Definition hex_digit (n : N) : ascii :=
  if (n <? 10)%N then ascii_of_N (48 + n) else ascii_of_N (55 + n).

Definition quote_char (c : ascii) : string :=
  if quote_safe c then String c EmptyString
  else let n := N_of_ascii c in
       String "%" (String (hex_digit (n / 16)) (String (hex_digit (n mod 16)) EmptyString)).

Fixpoint quote (s : string) : string :=
  match s with
  | EmptyString => EmptyString
  | String c r => quote_char c +:+ quote r
  end.

End Py.
Import Py.

(** ** Data model *)

(** An entry of [Directory] in the reply to [/library/sections]. *)
Record Section := mkSection {
  sec_key : string;
  sec_type : string;
  sec_title : string;
}.

(** One extra; [guid] may be [null]. *)
Record Extra := mkExtra { ex_guid : option string }.

(** The [Extras] object of a metadata item. *)
Record ExtrasContainer := mkExtras {
  ex_size : Z;
  ex_Metadata : list Extra;
}.

Record CollectionTag := mkTag { tag : string }.

(** An entry of [Metadata]: an item of the library listing (of which the script
    reads [key] and [ratingKey]) or of a metadata reply.  [md_Extras] is
    [None] for a [null] or empty object; [md_Collection] is [None] when the
    key is absent. *)
Record Metadata := mkMetadata {
  md_key : string;
  md_ratingKey : string;
  md_title : string;
  md_grandparentTitle : string;
  md_parentIndex : Z;
  md_index : Z;
  md_Extras : option ExtrasContainer;
  md_Collection : option (list CollectionTag);
}.

(** The [MediaContainer] object of a reply; each key may be absent, and an
    entry of [Metadata] may be [null].  [mc_others] tells whether the object
    has keys besides the two the script reads (a Plex reply has [size]). *)
Record MediaContainer := mkContainer {
  mc_Directory : option (list Section);
  mc_Metadata : option (list (option Metadata));
  mc_others : bool;
}.

(** [bool(container)]: a [dict] is true unless it is empty. *)
Definition container_truthy (c : MediaContainer) : bool :=
  match mc_Directory c, mc_Metadata c with
  | None, None => mc_others c
  | _, _ => true
  end.

(** A value of [self.mediaItems].  [mi_collections] holds the tags of the
    list [collections], which are texts. *)
Record MediaItem := mkItem {
  mi_collections : list string;
  mi_id : string;
  mi_has_extras : bool;
}.

Definition set_mi_collections (c : list string) (i : MediaItem) : MediaItem :=
  mkItem c (mi_id i) (mi_has_extras i).
Definition set_mi_has_extras (b : bool) (i : MediaItem) : MediaItem :=
  mkItem (mi_collections i) (mi_id i) b.

(** What [parse_args()] returns: the four valued options are [None] unless
    given, and [no_delete] ([action='store_true']) is [False] unless given. *)
Record Namespace := mkArgs {
  ns_host : option string;
  ns_token : option string;
  ns_section : option string;
  ns_collection : option string;
  ns_no_delete : bool;
}.

Definition opt_str (o : option string) : pyval :=
  match o with Some s => PyStr s | None => PyNone end.

(** [cmd_args.__dict__], as far as [key in cmd_args] and
    [cmd_args.__dict__[key]] see it. *)
Definition ns_dict (a : Namespace) : gmap string pyval :=
  <["host" := opt_str (ns_host a)]>
  (<["token" := opt_str (ns_token a)]>
  (<["section" := opt_str (ns_section a)]>
  (<["collection" := opt_str (ns_collection a)]>
  (<["no_delete" := PyBool (ns_no_delete a)]> ∅)))).

(** The attributes of the [CommentaryCollection] object.  The five settings
    hold whatever [get_config_value] returned. *)
Record Self := mkSelf {
  valid : bool;
  token : pyval;
  host : pyval;
  section_id : pyval;
  collection_name : pyval;
  no_delete : pyval;
  section_type : string;
  mediaItems : list (string * MediaItem);
}.

(** ** Console, network and exceptions *)

(** A request that did not produce a response: whether the exception is a
    [requests.exceptions.ConnectionError], and the name of its class. *)
Record transport_error := mkTransportError {
  is_connection_error : bool;
  exc_name : string;
}.

Inductive http_reply :=
| Fails (e : transport_error)
| Response (status_code : Z) (content : string) (media_container : option MediaContainer).

Inductive event :=
| EvPrint (text : string)
| EvInput (prompt : string)
| EvGet (url : string)
| EvOptions (url : string)
| EvPut (url : string).

Inductive exn :=
| KeyError
| TypeError
| ValueError
| IndexError
| EOFError
| RequestException (e : transport_error).

(** The [__name__] of the exception's class. *)
Definition exn_name (e : exn) : string :=
  match e with
  | KeyError => "KeyError"
  | TypeError => "TypeError"
  | ValueError => "ValueError"
  | IndexError => "IndexError"
  | EOFError => "EOFError"
  | RequestException t => exc_name t
  end.

Definition is_requests_connection_error (e : exn) : bool :=
  match e with
  | RequestException t => is_connection_error t
  | _ => false
  end.

Inductive Res (A : Type) :=
| Ok (a : A)
| Raise (e : exn).
Arguments Ok {A} a.
Arguments Raise {A} e.

Record State := mkState {
  self : Self;
  stdin : list string;
  trace : list event;
  server : list event -> string -> http_reply;
}.

Definition M (A : Type) : Type := State -> Res A * State.

Definition ret {A} (a : A) : M A := fun st => (Ok a, st).

Definition bind {A B} (c : M A) (k : A -> M B) : M B :=
  fun st =>
    match c st with
    | (Ok a, st') => k a st'
    | (Raise e, st') => (Raise e, st')
    end.

Definition raise {A} (e : exn) : M A := fun st => (Raise e, st).

(** [try: body except: handler]; what [body] did before it raised stays done. *)
Definition try_except {A} (body : M A) (handler : exn -> M A) : M A :=
  fun st =>
    match body st with
    | (Ok a, st') => (Ok a, st')
    | (Raise e, st') => handler e st'
    end.

Notation "'do' x <- c ; k" := (bind c (fun x => k))
  (at level 10, x name, c at level 99, k at level 200).
Notation "c ;; k" := (bind c (fun _ => k))
  (at level 100, k at level 200, right associativity).

Definition get_self : M Self := fun st => (Ok (self st), st).

Definition modify_self (f : Self -> Self) : M unit :=
  fun st => (Ok tt, mkState (f (self st)) (stdin st) (trace st) (server st)).

Definition emit (e : event) : M unit :=
  fun st => (Ok tt, mkState (self st) (stdin st) (trace st ++ [e]) (server st)).

(** [print(text)]. *)
Definition print (text : string) : M unit := emit (EvPrint text).

(** [input(prompt)]: the next line of standard input. *)
Definition input (prompt : string) : M string :=
  fun st =>
    match stdin st with
    | [] => (Raise EOFError, mkState (self st) [] (trace st ++ [EvInput prompt]) (server st))
    | line :: rest => (Ok line, mkState (self st) rest (trace st ++ [EvInput prompt]) (server st))
    end.

Definition set_valid (b : bool) (s : Self) : Self :=
  mkSelf b (token s) (host s) (section_id s) (collection_name s) (no_delete s)
         (section_type s) (mediaItems s).
Definition set_token (v : pyval) (s : Self) : Self :=
  mkSelf (valid s) v (host s) (section_id s) (collection_name s) (no_delete s)
         (section_type s) (mediaItems s).
Definition set_host (v : pyval) (s : Self) : Self :=
  mkSelf (valid s) (token s) v (section_id s) (collection_name s) (no_delete s)
         (section_type s) (mediaItems s).
Definition set_section_id (v : pyval) (s : Self) : Self :=
  mkSelf (valid s) (token s) (host s) v (collection_name s) (no_delete s)
         (section_type s) (mediaItems s).
Definition set_collection_name (v : pyval) (s : Self) : Self :=
  mkSelf (valid s) (token s) (host s) (section_id s) v (no_delete s)
         (section_type s) (mediaItems s).
Definition set_no_delete (v : pyval) (s : Self) : Self :=
  mkSelf (valid s) (token s) (host s) (section_id s) (collection_name s) v
         (section_type s) (mediaItems s).
Definition set_section_type (t : string) (s : Self) : Self :=
  mkSelf (valid s) (token s) (host s) (section_id s) (collection_name s) (no_delete s)
         t (mediaItems s).
Definition set_mediaItems (m : list (string * MediaItem)) (s : Self) : Self :=
  mkSelf (valid s) (token s) (host s) (section_id s) (collection_name s) (no_delete s)
         (section_type s) m.

(** ** Configuration resolver *)

(** [get_config_value(config, cmd_args, key, default, prompt)]. *)
Definition get_config_value (config cmd_args : gmap string pyval) (key : string)
    (default : pyval) (prompt : string) : M pyval :=
  let cmd_arg := match cmd_args !! key with Some v => v | None => PyNone end in
  let from_config :=
    match config !! key with
    | Some v => if is_none v then None else Some v
    | None => None
    end in
  match from_config with
  | Some v =>
      if negb (is_none cmd_arg) then
        print ("WARN: Duplicate argument " +:+ dq +:+ key +:+ dq
               +:+ " found in both command-line arguments and config file. Using command-line value ("
               +:+ dq +:+ str cmd_arg +:+ dq +:+ ")") ;;
        ret cmd_arg
      else ret v
  | None =>
      if negb (is_none cmd_arg) then ret cmd_arg
      else
        match default with
        | PyNone => ret (PyStr "")
        | PyStr d =>
            if negb (String.length d =? 0)%nat then ret default
            else if (String.length prompt =? 0)%nat then
              do line <- input (nl +:+ "Could not find " +:+ dq +:+ key +:+ dq
                                +:+ " and no default is available." +:+ nl +:+ nl
                                +:+ "Please enter a value for " +:+ dq +:+ key +:+ dq +:+ ": ");
              ret (PyStr line)
            else
              do line <- input (nl +:+ prompt +:+ ": ");
              ret (PyStr line)
        | _ => raise TypeError
        end
  end.

(** [get_config()].  [config_file] is [None] when [config.yml] does not exist,
    and holds what [yaml.load] returned otherwise ([None] for an empty
    document); [cmd_args] is what [parse_args()] returned. *)
Definition get_config (config_file : option (option (gmap string pyval)))
    (cmd_args : Namespace) : M unit :=
  modify_self (set_valid false) ;;
  match config_file with
  | None =>
      print "Could not find config.yml! Make sure it's in the same directory as this script"
  | Some loaded =>
      let config := match loaded with Some c => c | None => ∅ end in
      let args := ns_dict cmd_args in
      do v <- get_config_value config args "token" (PyStr "") "Enter your Plex token";
      modify_self (set_token v) ;;
      do v <- get_config_value config args "host" (PyStr "http://localhost:32400") "";
      modify_self (set_host v) ;;
      do v <- get_config_value config args "section" PyNone "";
      modify_self (set_section_id v) ;;
      (match v with
       | PyStr s =>
           if isnumeric s then
             match int s with
             | Some n => modify_self (set_section_id (PyInt n))
             | None => raise ValueError
             end
           else ret tt
       | _ => ret tt
       end) ;;
      do v <- get_config_value config args "collection" (PyStr "Movies with Extras") "";
      modify_self (set_collection_name v) ;;
      do v <- get_config_value config args "no_delete" (PyBool false) "";
      modify_self (set_no_delete v) ;;
      modify_self (set_section_type "movie") ;;
      modify_self (set_valid true)
  end.

(** [__init__()]. *)
Definition init (config_file : option (option (gmap string pyval)))
    (cmd_args : Namespace) : M unit :=
  get_config config_file cmd_args ;;
  modify_self (set_mediaItems []).

(** The object before [__init__] has set anything. *)
Definition new_object : Self :=
  mkSelf false PyNone PyNone PyNone PyNone PyNone "" [].

Definition initial_state (lines : list string)
    (srv : list event -> string -> http_reply) : State :=
  mkState new_object lines [] srv.

(** ** API client *)

Fixpoint url_params (real_url sep : string) (params : list (string * string)) : string * string :=
  match params with
  | [] => (real_url, sep)
  | (k, v) :: rest => url_params (real_url +:+ sep +:+ k +:+ "=" +:+ quote v) "&" rest
  end.

(** [url(base, params)]. *)
Definition url (s : Self) (base : string) (params : list (string * string)) : string :=
  let (real_url, sep) := url_params (str (host s) +:+ base) "?" params in
  real_url +:+ sep +:+ "X-Plex-Token=" +:+ str (token s).

(** [requests.get(u)]: the server answers knowing the requests made so far;
    the outcome is a response (status code, content, and the value of
    ['MediaContainer'] in the decoded content when there is one) or an
    exception of [requests]. *)
Definition requests_get (u : string) : M (Z * string * option MediaContainer) :=
  fun st =>
    let st' := mkState (self st) (stdin st) (trace st ++ [EvGet u]) (server st) in
    match server st (trace st) u with
    | Fails e => (Raise (RequestException e), st')
    | Response status content mc => (Ok (status, content, mc), st')
    end.

(** [get_json_response(url, params)]. *)
Definition get_json_response (path : string) (params : list (string * string))
    : M (option MediaContainer) :=
  do s <- get_self;
  do response <- requests_get (url s path params);
  let '(status, content, decoded) := response in
  if negb (status =? 200) then ret None
  else
    match decoded with
    | Some data => ret (Some data)
    | None =>
        print ("ERROR: Unexpected JSON response:" +:+ nl) ;;
        print content ;;
        print "" ;;
        ret None
    end.

Definition lib_type_code (s : Self) : Z :=
  if String.eqb (section_type s) "movie" then 1 else 4.

Fixpoint collection_params (index : nat) (collections : list string) : string :=
  match collections with
  | [] => ""
  | c :: rest =>
      "&collection%5B" +:+ pretty (Z.of_nat index) +:+ "%5D.tag.tag=" +:+ quote c
      +:+ collection_params (S index) rest
  end.

Definition set_collections_url (s : Self) (metadata_id : string) (collections : list string)
    : string :=
  str (host s) +:+ "/library/sections/" +:+ str (section_id s) +:+ "/all?type="
  +:+ pretty (lib_type_code s) +:+ "&id=" +:+ metadata_id
  +:+ collection_params 0 collections
  +:+ "&X-Plex-Token=" +:+ str (token s).

(** [requests.options(u)] and [requests.put(u)]: the response is not read,
    whatever its status; a request that gets no response raises. *)
Definition requests_options (u : string) : M unit :=
  fun st =>
    let st' := mkState (self st) (stdin st) (trace st ++ [EvOptions u]) (server st) in
    match server st (trace st) u with
    | Fails e => (Raise (RequestException e), st')
    | Response _ _ _ => (Ok tt, st')
    end.

Definition requests_put (u : string) : M unit :=
  fun st =>
    let st' := mkState (self st) (stdin st) (trace st ++ [EvPut u]) (server st) in
    match server st (trace st) u with
    | Fails e => (Raise (RequestException e), st')
    | Response _ _ _ => (Ok tt, st')
    end.

(** [set_collections(metadata_id, collections)]: an [OPTIONS] and a [PUT]
    request for the same URL.  Nothing catches the exception of a request
    that fails. *)
Definition set_collections (metadata_id : string) (collections : list string) : M unit :=
  do s <- get_self;
  let u := set_collections_url s metadata_id collections in
  requests_options u ;;
  requests_put u.

(** [test_plex_connection()]. *)
Definition test_plex_connection : M bool :=
  do s <- get_self;
  do status <-
    try_except
      (do response <- requests_get (url s "/" []);
       ret (Some (fst (fst response))))
      (fun e =>
         if is_requests_connection_error e then
           print ("Unable to connect to " +:+ str (host s) +:+ " (" +:+ exn_name e
                  +:+ "), exiting...") ;;
           ret None
         else
           print ("Something went wrong when connecting to Plex (" +:+ exn_name e
                  +:+ "), exiting...") ;;
           ret None);
  match status with
  | None => ret false
  | Some status =>
      if status =? 200 then ret true
      else
        (if (status =? 401) || (status =? 403) then
           print "Could not connect to Plex with the provided token, exiting..."
         else
           print ("Bad response from Plex (" +:+ pretty status +:+ "), exiting...")) ;;
        ret false
  end.

(** ** Library scanner *)

Definition movie_or_show (t : string) : bool :=
  String.eqb t "movie" || String.eqb t "show".

(** The first loop of [get_section]: [Some section] when the loop returns the
    section, [None] when it ends or breaks. *)
Fixpoint find_section (find : Z) (sections : list Section) : M (option Section) :=
  match sections with
  | [] => ret None
  | section :: rest =>
      match int (sec_key section) with
      | None => raise ValueError
      | Some k =>
          if k =? find then
            if negb (movie_or_show (sec_type section)) then
              print ("Ignoring selected library section " +:+ pretty find
                     +:+ ", as it's not a movie or show library.") ;;
              ret None
            else
              print ("Found section " +:+ pretty find +:+ ": " +:+ dq
                     +:+ sec_title section +:+ dq) ;;
              modify_self (set_section_type (sec_type section)) ;;
              ret (Some section)
          else find_section find rest
      end
  end.

(** The second loop of [get_section], which fills [choices]. *)
Fixpoint list_choices (sections : list Section) (choices : gmap Z Section)
    : M (gmap Z Section) :=
  match sections with
  | [] => ret choices
  | section :: rest =>
      if negb (movie_or_show (sec_type section)) then list_choices rest choices
      else
        print ("[" +:+ sec_key section +:+ "] " +:+ sec_title section) ;;
        match int (sec_key section) with
        | None => raise ValueError
        | Some k => list_choices rest (<[k := section]> choices)
        end
  end.

(** The test of the [while] loop of [get_section],
    [choice.isnumeric() and int(choice) in choices]: [Some n] when [choice]
    names the section [n] of [choices]; [int] raises [ValueError] on a
    numeric text that is not made of decimal digits. *)
Definition chosen (choices : gmap Z Section) (choice : string) : Res (option Z) :=
  if isnumeric choice then
    match int choice with
    | Some n => Ok (if decide (is_Some (choices !! n)) then Some n else None)
    | None => Raise ValueError
    end
  else Ok None.

(** The [while] loop of [get_section]: [Some n] when [choice] names a
    section of [choices], [None] when the user cancels.  Every iteration
    reads a line, so the lines [pending] on standard input when the loop
    starts bound the iterations; [input] raises [EOFError] once they are
    used up. *)
Fixpoint choice_loop (choices : gmap Z Section) (choice : string) (pending : list string)
    : M (option Z) :=
  match chosen choices choice with
  | Raise e => raise e
  | Ok (Some n) => ret (Some n)
  | Ok None =>
      if String.eqb choice "-1" then ret None
      else
        do choice <- input "Invalid section, please try again (-1 to cancel): ";
        match pending with
        | [] => raise EOFError
        | _ :: pending => choice_loop choices choice pending
        end
  end.

(** [get_section()]. *)
Definition get_section : M (option Section) :=
  do sections <- get_json_response "/library/sections" [];
  match sections with
  | None => ret None
  | Some container =>
      match mc_Directory container with
      | None => ret None
      | Some sections =>
          do s <- get_self;
          let find := section_id s in
          do found <-
            match find with
            | PyInt n =>
                do r <- find_section n sections;
                match r with
                | Some section => ret (Some section)
                | None =>
                    print ("Provided library section " +:+ pretty n
                           +:+ " could not be found..." +:+ nl) ;;
                    ret None
                end
            | _ => ret None
            end;
          match found with
          | Some section => ret (Some section)
          | None =>
              print (nl +:+ "Choose a library to scan:" +:+ nl) ;;
              do choices <- list_choices sections ∅;
              print "" ;;
              do choice <- input "Enter the library number (-1 to cancel): ";
              do pending <- (fun st => (Ok (stdin st), st));
              do r <- choice_loop choices choice pending;
              match r with
              | None => ret None
              | Some n =>
                  modify_self (set_section_id (PyInt n)) ;;
                  match choices !! n with
                  | None => raise KeyError
                  | Some section =>
                      modify_self (set_section_type (sec_type section)) ;;
                      print (nl +:+ "Selected " +:+ dq +:+ sec_title section +:+ dq +:+ nl) ;;
                      ret (Some section)
                  end
              end
          end
      end
  end.

(** [get_all_items()]. *)
Definition get_all_items : M (option (list (option Metadata))) :=
  do s <- get_self;
  try_except
    (do data <- get_json_response
                  ("/library/sections/" +:+ str (section_id s) +:+ "/all")
                  [("type", pretty (lib_type_code s))];
     match data with
     | None => raise TypeError
     | Some container =>
         match mc_Metadata container with
         | None => raise KeyError
         | Some items => ret (Some items)
         end
     end)
    (fun _ => print "Unable to get library data, cannot continue" ;; ret None).

(** What [get_metadata] returns: [False], or what [get_json_response]
    returned. *)
Inductive fetched :=
| FetchedFalse
| Fetched (data : option MediaContainer).

(** [get_metadata(loc)]. *)
Definition get_metadata (loc : string) : M fetched :=
  try_except
    (do metadata <- get_json_response loc [("includeExtras", "1")];
     ret (Fetched metadata))
    (fun _ => ret FetchedFalse).

(** [extra['guid'] and extra['guid'].startswith('file:///')]. *)
Definition local_guid (extra : Extra) : bool :=
  match ex_guid extra with
  | None => false
  | Some g => negb (String.eqb g "") && startswith g "file:///"
  end.

(** The loop over [extras['Metadata']], which stops at the first local extra:
    whether it sets [has_extras]. *)
Fixpoint has_local_extra (extras : list Extra) : bool :=
  match extras with
  | [] => false
  | extra :: rest => if local_guid extra then true else has_local_extra rest
  end.

Definition media_title_of (section_type : string) (metadata : Metadata) : string :=
  if String.eqb section_type "show" then
    md_grandparentTitle metadata +:+ " - S"
    +:+ rjust 2 "0" (pretty (md_parentIndex metadata))
    +:+ "E" +:+ rjust 2 "0" (pretty (md_index metadata))
    +:+ " - " +:+ md_title metadata
  else md_title metadata.

Definition alter_item (f : MediaItem -> MediaItem) (media_title : string) : M unit :=
  modify_self (fun s => set_mediaItems (dict_alter f media_title (mediaItems s)) s).

(** The body of the loop of [process_item_group] for one entry that is not
    empty. *)
Definition process_metadata (metadata : Metadata) : M unit :=
  do s <- get_self;
  let metadata_id := md_ratingKey metadata in
  let media_title := media_title_of (section_type s) metadata in
  let extras := md_Extras metadata in
  modify_self (fun s => set_mediaItems
                 (dict_set media_title (mkItem [] metadata_id false) (mediaItems s)) s) ;;
  match extras with
  | None => ret tt
  | Some extras =>
      if ex_size extras =? 0 then ret tt
      else
        (if has_local_extra (ex_Metadata extras)
         then alter_item (set_mi_has_extras true) media_title
         else ret tt) ;;
        alter_item
          (set_mi_collections
             (match md_Collection metadata with
              | Some l => map tag l
              | None => []
              end))
          media_title
  end.

Fixpoint for_each {A} (l : list A) (body : A -> M unit) : M unit :=
  match l with
  | [] => ret tt
  | x :: rest => body x ;; for_each rest body
  end.

Definition process_entry (metadata : option Metadata) : M unit :=
  match metadata with
  | None => ret tt
  | Some metadata => process_metadata metadata
  end.

Fixpoint rating_keys (items : list (option Metadata)) : M (list string) :=
  match items with
  | [] => ret []
  | None :: _ => raise TypeError
  | Some item :: rest =>
      do keys <- rating_keys rest;
      ret (md_ratingKey item :: keys)
  end.

(** [not metadataItems]: [False], [None] and an empty object are falsy. *)
Definition is_falsy (f : fetched) : bool :=
  match f with
  | Fetched (Some container) => negb (container_truthy container)
  | _ => true
  end.

(** [process_item_group(group)]. *)
Definition process_item_group (group : list (option Metadata)) : M unit :=
  do first <-
    match group with
    | [] => raise IndexError
    | None :: _ => raise TypeError
    | Some item :: _ => ret item
    end;
  let key := md_key first in
  do key <-
    (if (1 <? length group)%nat then
       do keys <- rating_keys (tl group);
       ret (key +:+ "," +:+ join "," keys)
     else ret key);
  do metadataItems <- get_metadata key;
  (if is_falsy metadataItems
   then print "Error getting metadata for this group, ignoring"
   else ret tt) ;;
  do metadataItems <-
    match metadataItems with
    | Fetched (Some container) =>
        match mc_Metadata container with
        | Some items => ret items
        | None => raise KeyError
        end
    | _ => raise TypeError
    end;
  for_each metadataItems process_entry.

(** The groups of [run]:
    [[root[i:min(item_count, i + 50)] for i in range(0, item_count, 50)]]. *)
Definition groups {A} (root : list A) : list (list A) :=
  let item_count := length root in
  map (fun i => slice root i (Nat.min item_count (i + 50))) (range_step item_count 50).

(** ** Collection synchronizer *)

(** [collection == name] for a tag, which is a [str]. *)
Definition tag_is (name : pyval) (collection : string) : bool :=
  match name with
  | PyStr n => String.eqb collection n
  | _ => false
  end.

(** [name in collections]. *)
Definition in_collections (name : pyval) (collections : list string) : bool :=
  existsb (tag_is name) collections.

(** [[collection for collection in collections if collection != name]]. *)
Definition without (name : pyval) (collections : list string) : list string :=
  List.filter (fun collection => negb (tag_is name collection)) collections.

(** The body of the loop of [post_process] for the key [item], with the local
    lists [added] and [removed].  A collection name that is not a [str] cannot
    be quoted: [set_collections] raises [TypeError] before any request.  The
    name was appended to the list just before; it is not a tag, so
    [mi_collections] does not hold it, and the exception ends the script
    before the list is read again. *)
Definition post_process_item (item : string) (lists : list string * list string)
    : M (list string * list string) :=
  let (added, removed) := lists in
  do s <- get_self;
  match dict_get item (mediaItems s) with
  | None => raise KeyError
  | Some entry =>
      let has_extras := mi_has_extras entry in
      let collections := mi_collections entry in
      if in_collections (collection_name s) collections then
        if has_extras then
          print item ;;
          ret (added, removed)
        else
          (if negb (truthy (no_delete s)) then
             let collections := without (collection_name s) collections in
             set_collections (mi_id entry) collections
           else ret tt) ;;
          ret (added, removed ++ [item])
      else if has_extras then
        match collection_name s with
        | PyStr name =>
            let collections := collections ++ [name] in
            alter_item (set_mi_collections collections) item ;;
            set_collections (mi_id entry) collections ;;
            ret (added ++ [item], removed)
        | _ => raise TypeError
        end
      else ret (added, removed)
  end.

Fixpoint post_process_loop (items : list string) (lists : list string * list string)
    : M (list string * list string) :=
  match items with
  | [] => ret lists
  | item :: rest =>
      do lists <- post_process_item item lists;
      post_process_loop rest lists
  end.

Definition rule : string := "===========================================".

(** [post_process()].  The method returns nothing; the model returns its
    local lists [added] and [removed], which the method prints. *)
Definition post_process : M (list string * list string) :=
  do s <- get_self;
  let lib_type := if String.eqb (section_type s) "movie" then "Movie(s)" else "Episode(s)" in
  let extras_count :=
    length (List.filter (fun item =>
                           match dict_get item (mediaItems s) with
                           | Some entry => mi_has_extras entry
                           | None => false
                           end) (dict_keys (mediaItems s))) in
  print (nl +:+ "Found " +:+ pretty (Z.of_nat extras_count) +:+ " " +:+ lower lib_type
         +:+ " with extras") ;;
  print "" ;;
  print (lib_type +:+ " already in " +:+ dq +:+ str (collection_name s) +:+ dq +:+ ":") ;;
  print rule ;;
  do lists <- post_process_loop (dict_keys (mediaItems s)) ([], []);
  let (added, removed) := lists in
  print (nl +:+ "Added " +:+ pretty (Z.of_nat (length added)) +:+ " new " +:+ lower lib_type
         +:+ " to collection:") ;;
  print rule ;;
  for_each added print ;;
  (if truthy (no_delete s) then
     print (nl +:+ pretty (Z.of_nat (length removed)) +:+ " " +:+ lower lib_type
            +:+ " in collection without local extras:")
   else
     print (nl +:+ "Removed " +:+ pretty (Z.of_nat (length removed)) +:+ " " +:+ lower lib_type
            +:+ " from collection:")) ;;
  print rule ;;
  for_each removed print ;;
  print "" ;;
  ret (added, removed).

(** ** The run *)

(** [run()].  The progress lines and the closing line, which show elapsed
    wall-clock time, are not part of the trace. *)
Definition run : M unit :=
  do s <- get_self;
  if negb (valid s) then ret tt
  else
    do connected <- test_plex_connection;
    if negb connected then ret tt
    else
      get_section ;;
      do root <- get_all_items;
      match root with
      | None | Some [] => ret tt
      | Some root =>
          let item_count := length root in
          print ("Found " +:+ pretty (Z.of_nat item_count) +:+ " items to parse") ;;
          let groups := groups root in
          print ("Breaking into " +:+ pretty (Z.of_nat (length groups))
                 +:+ " groups for parsing") ;;
          for_each groups process_item_group ;;
          post_process ;;
          ret tt
      end.

(** The script: [runner = CommentaryCollection(); runner.run()]. *)
Definition main (config_file : option (option (gmap string pyval)))
    (cmd_args : Namespace) : M unit :=
  init config_file cmd_args ;;
  run.

(** ** Reading a trace *)

Definition is_request (e : event) : bool :=
  match e with
  | EvGet _ | EvOptions _ | EvPut _ => true
  | _ => false
  end.

Definition is_mutation (e : event) : bool :=
  match e with
  | EvOptions _ | EvPut _ => true
  | _ => false
  end.

Definition is_input (e : event) : bool :=
  match e with
  | EvInput _ => true
  | _ => false
  end.

Definition requests (t : list event) : list event := List.filter is_request t.
Definition mutations (t : list event) : list event := List.filter is_mutation t.

(** What a monadic action adds to the trace of [st]. *)
Definition emitted {A} (c : M A) (st : State) : list event :=
  skipn (length (trace st)) (trace (snd (c st))).

(** ** Notions used to state the properties *)

(** The entry that processing [metadata] leaves under its title. *)
Definition item_of (metadata : Metadata) : MediaItem :=
  match md_Extras metadata with
  | None => mkItem [] (md_ratingKey metadata) false
  | Some extras =>
      if ex_size extras =? 0 then mkItem [] (md_ratingKey metadata) false
      else mkItem (match md_Collection metadata with
                   | Some l => map tag l
                   | None => []
                   end)
                  (md_ratingKey metadata)
                  (has_local_extra (ex_Metadata extras))
  end.

(** [g] begins with [p]. *)
Definition begins_with (p g : string) : Prop := exists rest, g = p +:+ rest.

(** The extras the server lists for [metadata]: the entries of
    [Extras.Metadata]. *)
Definition listed_extras (metadata : Metadata) : list Extra :=
  match md_Extras metadata with
  | Some extras => ex_Metadata extras
  | None => []
  end.

(** An extra whose guid is a non-empty text that begins with [file:///]. *)
Definition local_file_extra (extra : Extra) : Prop :=
  exists g, ex_guid extra = Some g /\ g <> "" /\ begins_with "file:///" g.

(** The [has_extras] flag stored for [metadata] once it is processed in [st]. *)
Definition scanned_flag (metadata : Metadata) (st : State) : option bool :=
  let st' := snd (process_metadata metadata st) in
  option_map mi_has_extras
    (dict_get (media_title_of (section_type (self st)) metadata) (mediaItems (self st'))).

(** A [dict] without the key [k]. *)
Fixpoint dict_remove {V} (k : string) (d : list (string * V)) : list (string * V) :=
  match d with
  | [] => []
  | (k', v') :: d' =>
      if String.eqb k' k then dict_remove k d' else (k', v') :: dict_remove k d'
  end.

Definition with_mediaItems (m : list (string * MediaItem)) (st : State) : State :=
  mkState (set_mediaItems m (self st)) (stdin st) (trace st) (server st).

(** The two requests [set_collections] makes. *)
Definition push (s : Self) (metadata_id : string) (collections : list string) : list event :=
  [EvOptions (set_collections_url s metadata_id collections);
   EvPut (set_collections_url s metadata_id collections)].

(** The server answers every request, with whatever status. *)
Definition responds (srv : list event -> string -> http_reply) : Prop :=
  forall t u, exists status content decoded, srv t u = Response status content decoded.

(** The metadata fetch for [key] fails in [st]: no response, a status other
    than 200, or a body that does not decode to a [MediaContainer]. *)
Definition fetch_fails (key : string) (st : State) : Prop :=
  match server st (trace st) (url (self st) key [("includeExtras", "1")]) with
  | Fails _ => True
  | Response status _ decoded => status <> 200 \/ decoded = None
  end.

(** The value the command line gives for [key], if it gives one. *)
Definition flag_value (cmd_args : gmap string pyval) (key : string) : option pyval :=
  match cmd_args !! key with
  | Some v => if is_none v then None else Some v
  | None => None
  end.

(** The value the config file gives for [key], if it gives one. *)
Definition file_value (config : gmap string pyval) (key : string) : option pyval :=
  match config !! key with
  | Some v => if is_none v then None else Some v
  | None => None
  end.

(** The action asks the user for a line. *)
Definition prompts {A} (c : M A) (st : State) : Prop :=
  exists p, In (EvInput p) (emitted c st).

(** A server that cannot be reached. *)
Definition unreachable : list event -> string -> http_reply :=
  fun _ _ => Fails (mkTransportError true "ConnectionError").

Definition no_flags : Namespace := mkArgs None None None None false.

(** The precedence as the specification words it, for a setting that neither
    the command line nor the config file gives: the user is asked, and the
    default is not what is returned. *)
Definition prompt_before_default (key : string) (default : pyval) (prompt : string)
    (st : State) : Prop :=
  let c := get_config_value ∅ (ns_dict no_flags) key default prompt in
  prompts c st /\ fst (c st) <> Ok default.

(** The flag as the specification words it: set exactly when one of the
    listed extras is a local file. *)
Definition flag_iff_listed_local_extra (metadata : Metadata) (st : State) : Prop :=
  scanned_flag metadata st = Some true
  <-> exists extra, In extra (listed_extras metadata) /\ local_file_extra extra.

(** A movie whose [Extras] object reports size 0 and yet lists a local file. *)
Definition size_zero_movie : Metadata :=
  mkMetadata "/library/metadata/7" "7" "Alien" "" 0 0
    (Some (mkExtras 0 [mkExtra (Some "file:///movies/Alien/extras/trailer.mkv")]))
    None.

(** *** The synchronizer, entry by entry

    For a collection name that is a [str], the body of the loop of
    [post_process] treats an entry in one of four ways. *)

Definition kept (name : string) (entry : MediaItem) : bool :=
  in_collections (PyStr name) (mi_collections entry) && mi_has_extras entry.

Definition to_remove (name : string) (entry : MediaItem) : bool :=
  in_collections (PyStr name) (mi_collections entry) && negb (mi_has_extras entry).

Definition to_add (name : string) (entry : MediaItem) : bool :=
  negb (in_collections (PyStr name) (mi_collections entry)) && mi_has_extras entry.

(** The entry once the body has run: an added entry has the name appended. *)
Definition synced (name : string) (item : string * MediaItem) : string * MediaItem :=
  if to_add name (snd item)
  then (fst item, set_mi_collections (mi_collections (snd item) ++ [name]) (snd item))
  else item.

(** What the body prints and requests for an entry. *)
Definition item_trace (s : Self) (name : string) (item : string * MediaItem) : list event :=
  let entry := snd item in
  if kept name entry then [EvPrint (fst item)]
  else if to_remove name entry then
    if truthy (no_delete s) then []
    else push s (mi_id entry) (without (PyStr name) (mi_collections entry))
  else if to_add name entry then
    push s (mi_id entry) (mi_collections entry ++ [name])
  else [].

Definition added_of (name : string) (m : list (string * MediaItem)) : list string :=
  map fst (List.filter (fun item => to_add name (snd item)) m).

Definition removed_of (name : string) (m : list (string * MediaItem)) : list string :=
  map fst (List.filter (fun item => to_remove name (snd item)) m).

(** The last entry of a metadata reply that has the title [k]. *)
Fixpoint last_titled (section_type k : string) (entries : list (option Metadata))
    : option Metadata :=
  match entries with
  | [] => None
  | entry :: rest =>
      match last_titled section_type k rest with
      | Some b => Some b
      | None =>
          match entry with
          | Some a => if String.eqb (media_title_of section_type a) k then Some a else None
          | None => None
          end
      end
  end.

Definition is_print (e : event) : bool :=
  match e with
  | EvPrint _ => true
  | _ => false
  end.

(** *** A library of two movies, after the scan *)

Definition example_self : Self :=
  mkSelf true (PyStr "TOKEN") (PyStr "http://localhost:32400") (PyInt 1)
         (PyStr "Movies with Extras") (PyBool false) "movie"
         [("Aliens", mkItem ["Action"] "42" true);
          ("Brazil", mkItem ["Movies with Extras"] "43" false)].

(** A server that accepts every request. *)
Definition accepting : list event -> string -> http_reply :=
  fun _ _ => Response 200 "" None.

Definition example_state : State := mkState example_self [] [] accepting.

(** The same library when [--no_delete] is given. *)
Definition example_state_no_delete : State :=
  mkState (set_no_delete (PyBool true) example_self) [] [] accepting.

(** The map has converged: every entry is in the collection exactly when its
    flag is set. *)
Definition converged (st : State) : Prop :=
  forall item entry,
    dict_get item (mediaItems (self st)) = Some entry ->
    in_collections (collection_name (self st)) (mi_collections entry)
    = mi_has_extras entry.

(** The lines the loop prints for the keys of a converged map. *)
Definition kept_lines (s : Self) (keys : list string) : list event :=
  flat_map (fun k => match dict_get k (mediaItems s) with
                     | Some entry => if mi_has_extras entry then [EvPrint k] else []
                     | None => []
                     end) keys.

(** The library of the example once it has converged. *)
Definition example_converged : State :=
  mkState (set_mediaItems [("Aliens", mkItem ["Action"; "Movies with Extras"] "42" true);
                           ("Brazil", mkItem [] "43" false)] example_self)
          [] [] unreachable.

(** The map once the entries of metadata replies have been processed in
    order, starting from the map [m]. *)
Definition scanned_map (section_type : string) (entries : list (option Metadata))
    (m : list (string * MediaItem)) : list (string * MediaItem) :=
  fold_left (fun m entry =>
               match entry with
               | Some metadata =>
                   dict_set (media_title_of section_type metadata) (item_of metadata) m
               | None => m
               end) entries m.

(** Two films with one title. *)
Definition dune_1984 : Metadata :=
  mkMetadata "/library/metadata/10" "10" "Dune" "" 0 0
    (Some (mkExtras 1 [mkExtra (Some "file:///movies/Dune (1984)/trailer.mkv")]))
    (Some [mkTag "Sci-Fi"]).

Definition dune_2021 : Metadata :=
  mkMetadata "/library/metadata/11" "11" "Dune" "" 0 0
    (Some (mkExtras 1 [mkExtra (Some "iva://api.internetvideoarchive.com/2.0/123")]))
    (Some [mkTag "Movies with Extras"]).

Definition movie_state : State :=
  mkState (set_mediaItems [] example_self) [] [] unreachable.

(** The same object with an empty map, on the server that accepts every
    request. *)
Definition scanning_state : State :=
  mkState (set_mediaItems [] example_self) [] [] accepting.

(** The key [process_item_group] builds for a group whose first item is
    [first] and whose other items are [others]. *)
Definition group_key (first : Metadata) (others : list Metadata) : string :=
  if (1 <? length (first :: others))%nat
  then md_key first +:+ "," +:+ join "," (map md_ratingKey others)
  else md_key first.

Definition group_of (first : Metadata) (others : list Metadata) : list (option Metadata) :=
  Some first :: map Some others.

Definition warning : event := EvPrint "Error getting metadata for this group, ignoring".

(** *** A library of 51 movies on a server whose metadata requests fail *)

Definition listed_movie (i : nat) : Metadata :=
  mkMetadata ("/library/metadata/" +:+ pretty (Z.of_nat i)) (pretty (Z.of_nat i))
             ("Movie " +:+ pretty (Z.of_nat i)) "" 0 0 None None.

Definition movies_section : Section := mkSection "1" "movie" "Movies".
Definition music_section : Section := mkSection "2" "artist" "Music".

Definition failing_metadata_server : list event -> string -> http_reply :=
  fun _ u =>
    if String.eqb u "http://localhost:32400/?X-Plex-Token=TOKEN" then
      Response 200 "" None
    else if String.eqb u "http://localhost:32400/library/sections?X-Plex-Token=TOKEN" then
      Response 200 "" (Some (mkContainer (Some [movies_section; music_section]) None true))
    else if String.eqb u
              "http://localhost:32400/library/sections/1/all?type=1&X-Plex-Token=TOKEN" then
      Response 200 "" (Some (mkContainer None (Some (map (fun i => Some (listed_movie i))
                                                          (seq 1 51))) true))
    else Response 500 "Internal Server Error" None.

(** [config.yml] with a token and section 1. *)
Definition config_section_1 : gmap string pyval :=
  <["token" := PyStr "TOKEN"]> (<["section" := PyInt 1]> ∅).

(** *** A user who cancels the choice of a section *)

Definition alien : Metadata :=
  mkMetadata "/library/metadata/42" "42" "Alien" "" 0 0
    (Some (mkExtras 1 [mkExtra (Some "file:///movies/Alien/extras/making-of.mkv")]))
    (Some [mkTag "Action"]).

(** The server lists a movie library and a music library, and answers the
    listing and metadata requests made for section 2. *)
Definition answering_server : list event -> string -> http_reply :=
  fun _ u =>
    if String.eqb u "http://localhost:32400/?X-Plex-Token=TOKEN" then
      Response 200 "" None
    else if String.eqb u "http://localhost:32400/library/sections?X-Plex-Token=TOKEN" then
      Response 200 "" (Some (mkContainer (Some [movies_section; music_section]) None true))
    else if String.eqb u
              "http://localhost:32400/library/sections/2/all?type=1&X-Plex-Token=TOKEN" then
      Response 200 "" (Some (mkContainer None (Some [Some alien]) true))
    else if String.eqb u
              "http://localhost:32400/library/metadata/42?includeExtras=1&X-Plex-Token=TOKEN" then
      Response 200 "" (Some (mkContainer None (Some [Some alien]) true))
    else Response 404 "Not Found" None.

(** [config.yml] with a token and section 2, the music library. *)
Definition config_section_2 : gmap string pyval :=
  <["token" := PyStr "TOKEN"]> (<["section" := PyInt 2]> ∅).

(** The state in which [run] starts for the user who cancels: after
    [__init__] with section 2 configured and the line [-1] on standard input. *)
Definition cancelling_start : State :=
  snd (init (Some (Some config_section_2)) no_flags (initial_state ["-1"] answering_server)).

(** A server that answers the connection test and the listing of section 1,
    but not the request for the sections. *)
Definition no_sections_server : list event -> string -> http_reply :=
  fun _ u =>
    if String.eqb u "http://localhost:32400/?X-Plex-Token=TOKEN" then
      Response 200 "" None
    else if String.eqb u
              "http://localhost:32400/library/sections/1/all?type=1&X-Plex-Token=TOKEN" then
      Response 200 "" (Some (mkContainer None (Some [Some alien]) true))
    else if String.eqb u
              "http://localhost:32400/library/metadata/42?includeExtras=1&X-Plex-Token=TOKEN" then
      Response 200 "" (Some (mkContainer None (Some [Some alien]) true))
    else Response 503 "Service Unavailable" None.

(** A server whose section 1 is empty. *)
Definition empty_library_server : list event -> string -> http_reply :=
  fun _ u =>
    if String.eqb u "http://localhost:32400/?X-Plex-Token=TOKEN" then
      Response 200 "" None
    else if String.eqb u "http://localhost:32400/library/sections?X-Plex-Token=TOKEN" then
      Response 200 "" (Some (mkContainer (Some [movies_section; music_section]) None true))
    else if String.eqb u
              "http://localhost:32400/library/sections/1/all?type=1&X-Plex-Token=TOKEN" then
      Response 200 "" (Some (mkContainer None (Some []) true))
    else Response 404 "Not Found" None.

(** *** A config file that asks for delete-suppression *)

Definition brazil : Metadata :=
  mkMetadata "/library/metadata/43" "43" "Brazil" "" 0 0
    (Some (mkExtras 1 [mkExtra (Some "iva://api.internetvideoarchive.com/2.0/456")]))
    (Some [mkTag "Movies with Extras"]).

Definition brazil_server : list event -> string -> http_reply :=
  fun _ u =>
    if String.eqb u "http://localhost:32400/?X-Plex-Token=TOKEN" then
      Response 200 "" None
    else if String.eqb u "http://localhost:32400/library/sections?X-Plex-Token=TOKEN" then
      Response 200 "" (Some (mkContainer (Some [movies_section; music_section]) None true))
    else if String.eqb u
              "http://localhost:32400/library/sections/1/all?type=1&X-Plex-Token=TOKEN" then
      Response 200 "" (Some (mkContainer None (Some [Some brazil]) true))
    else if String.eqb u
              "http://localhost:32400/library/metadata/43?includeExtras=1&X-Plex-Token=TOKEN" then
      Response 200 "" (Some (mkContainer None (Some [Some brazil]) true))
    else Response 404 "Not Found" None.

(** [config.yml] with a token, section 1 and [no_delete: true]. *)
Definition config_no_delete : gmap string pyval :=
  <["no_delete" := PyBool true]> config_section_1.

(** A film that is in the collection on the server and has no extras at all. *)
Definition solaris : Metadata :=
  mkMetadata "/library/metadata/44" "44" "Solaris" "" 0 0
    (Some (mkExtras 0 []))
    (Some [mkTag "Movies with Extras"]).

(** *** Notions of the server's interface

    The request that replaces the collections of an item, as the interface
    of the server words it: the tags in order as the parameters
    [collection[i].tag.tag], numbered from 0, brackets and tags
    percent-encoded. *)
Definition indexed_tag_parameters (tags : list string) : string :=
  String.concat ""
    (imap (fun i t => "&collection%5B" +:+ pretty (Z.of_nat i) +:+ "%5D.tag.tag=" +:+ quote t)
          tags).

Definition replacement_url (s : Self) (metadata_id : string) (tags : list string) : string :=
  str (host s) +:+ "/library/sections/" +:+ str (section_id s) +:+ "/all?type="
  +:+ (if String.eqb (section_type s) "movie" then "1" else "4")
  +:+ "&id=" +:+ metadata_id
  +:+ indexed_tag_parameters tags
  +:+ "&X-Plex-Token=" +:+ str (token s).

(** The two requests that replace the collections of an item. *)
Definition replacement (s : Self) (metadata_id : string) (tags : list string) : list event :=
  [EvOptions (replacement_url s metadata_id tags);
   EvPut (replacement_url s metadata_id tags)].

(** The [Extras] object of [metadata] reports as its size the number of
    extras it lists, which is how the server fills it. *)
Definition size_is_count (metadata : Metadata) : Prop :=
  match md_Extras metadata with
  | Some extras => ex_size extras = Z.of_nat (List.length (ex_Metadata extras))
  | None => True
  end.

(** The [Extras] object of [metadata] is there and reports a size other than
    0. *)
Definition lists_extras (metadata : Metadata) : bool :=
  match md_Extras metadata with
  | Some extras => negb (ex_size extras =? 0)
  | None => false
  end.

(** The server has [metadata] in the collection [name]. *)
Definition tagged (name : string) (metadata : Metadata) : Prop :=
  exists tags, md_Collection metadata = Some tags /\ In name (map tag tags).

(** The tags of [metadata] on the server. *)
Definition server_tags (metadata : Metadata) : list string :=
  match md_Collection metadata with
  | Some tags => map tag tags
  | None => []
  end.

(** The loop of [process_item_group] over the entries of a reply, followed
    by [post_process]. *)
Definition scan_and_sync (entries : list (option Metadata))
    : M (list string * list string) :=
  for_each entries process_entry ;;
  post_process.


(** Whether the loop of [post_process] pushes a list of collections for an
    entry, and the list it pushes: for an entry with local extras its tags
    followed by the name, for another entry its tags without the name. *)
Definition needs_push (s : Self) (name : string) (entry : MediaItem) : bool :=
  to_add name entry || (to_remove name entry && negb (truthy (no_delete s))).

Definition pushed_tags (name : string) (entry : MediaItem) : list string :=
  if mi_has_extras entry then mi_collections entry ++ [name]
  else List.filter (fun t => negb (String.eqb t name)) (mi_collections entry).

(** The example library on a server that cannot be reached. *)
Definition example_state_offline : State := mkState example_self [] [] unreachable.

(** The warning of [process_item_group] for a fetch that gave nothing. *)
Definition group_warning : event :=
  EvPrint "Error getting metadata for this group, ignoring".

(** *** Notions for the further properties *)

(** The value of a hexadecimal digit as [quote] writes it. *)
Definition hex_value (c : ascii) : N :=
  if is_digit c then (N_of_ascii c - 48)%N else (N_of_ascii c - 55)%N.

(** The characters of a text. *)
Definition chars (s : string) : list ascii := list_ascii_of_string s.

(** The number of bytes of [s] that [quote] escapes. *)
Definition escaped (s : string) : nat :=
  length (List.filter (fun c => negb (quote_safe c)) (chars s)).

(** [len(s)]: the number of characters of the text. *)
Definition len (s : string) : nat := List.length (code_points s).

(** [len(s.encode('utf-8'))]: the number of bytes of the text. *)
Definition encoded_length (s : string) : nat := String.length s.

(** The e with an acute accent (U+00E9), a character of two bytes. *)
Definition e_acute : string :=
  String (ascii_of_nat 195) (String (ascii_of_nat 169) EmptyString).

(** [key=quote(value)] for a parameter of [url]. *)
Definition url_param (p : string * string) : string := fst p +:+ "=" +:+ quote (snd p).

(** The data a reply yields: the decoded container of a response with status
    200, and nothing otherwise. *)
Definition reply_data (r : http_reply) : option MediaContainer :=
  match r with
  | Response status _ decoded => if status =? 200 then decoded else None
  | Fails _ => None
  end.

(** The reply the server gives in [st] to a GET of [path] with [params]. *)
Definition reply_to (path : string) (params : list (string * string)) (st : State)
    : http_reply :=
  server st (trace st) (url (self st) path params).

(** The lines [get_json_response] prints for a reply: three when a response
    with status 200 does not decode, none otherwise. *)
Definition decode_report (r : http_reply) : list event :=
  match r with
  | Response status content None =>
      if status =? 200
      then [EvPrint ("ERROR: Unexpected JSON response:" +:+ nl); EvPrint content; EvPrint ""]
      else []
  | _ => []
  end.

Definition after (st : State) (events : list event) : State :=
  mkState (self st) (stdin st) (trace st ++ events) (server st).

(** The line [test_plex_connection] prints for a reply, if it prints one. *)
Definition connection_report (s : Self) (r : http_reply) : list event :=
  match r with
  | Fails t =>
      if is_connection_error t
      then [EvPrint ("Unable to connect to " +:+ str (host s) +:+ " (" +:+ exc_name t
                     +:+ "), exiting...")]
      else [EvPrint ("Something went wrong when connecting to Plex (" +:+ exc_name t
                     +:+ "), exiting...")]
  | Response status _ _ =>
      if status =? 200 then []
      else if (status =? 401) || (status =? 403)
           then [EvPrint "Could not connect to Plex with the provided token, exiting..."]
           else [EvPrint ("Bad response from Plex (" +:+ pretty status +:+ "), exiting...")]
  end.

(** The status of a reply, when it is a response. *)
Definition reply_status (r : http_reply) : option Z :=
  match r with
  | Response status _ _ => Some status
  | Fails _ => None
  end.

(** ** Yes/no prompt *)

(** [response.lower()[0] if len(response) > 0 else 'x']. *)
Definition first_letter (response : string) : ascii :=
  match lower response with
  | String c _ => c
  | EmptyString => "x"%char
  end.

(** The [while True] loop of [get_yes_no].  Every iteration reads a line, so
    the lines [pending] on standard input when the loop starts bound the
    iterations; [input] raises [EOFError] once they are used up. *)
Fixpoint yes_no_loop (prompt : string) (pending : list string) : M bool :=
  do response <- input (prompt +:+ " (y/n)? ");
  let ch := first_letter response in
  if Ascii.eqb ch "y" || Ascii.eqb ch "n" then ret (Ascii.eqb ch "y")
  else
    match pending with
    | [] => raise EOFError
    | _ :: pending => yes_no_loop prompt pending
    end.

(** [get_yes_no(prompt)]. *)
Definition get_yes_no (prompt : string) : M bool :=
  do pending <- (fun st => (Ok (stdin st), st));
  yes_no_loop prompt pending.

(** The answer a line gives to a yes/no prompt, if it gives one. *)
Definition yes_no_answer (response : string) : option bool :=
  match response with
  | String c _ =>
      if Ascii.eqb c "y" || Ascii.eqb c "Y" then Some true
      else if Ascii.eqb c "n" || Ascii.eqb c "N" then Some false
      else None
  | EmptyString => None
  end.

(** Two numeric texts that are not ASCII: the Arabic-Indic digit three
    (U+0663), a decimal digit, and the superscript two (U+00B2), which is
    numeric and not decimal. *)
Definition arabic_three : string :=
  String (ascii_of_nat 217) (String (ascii_of_nat 163) EmptyString).
Definition superscript_two : string :=
  String (ascii_of_nat 194) (String (ascii_of_nat 178) EmptyString).

(** A line the section menu asks again for: a text that is not numeric and
    is not [-1], or a number that is not offered. *)
Definition rejects (choices : gmap Z Section) (line : string) : bool :=
  match chosen choices line with
  | Ok None => negb (String.eqb line "-1")
  | _ => false
  end.

(** The state once [lines] more lines were read at [prompt]. *)
Definition reading (st : State) (prompt : string) (asked : nat) (rest : list string)
    : State :=
  mkState (self st) rest (trace st ++ repeat (EvInput prompt) asked) (server st).

(** ** Settings *)

(** The value a setting gets from the flag, else the file, else [fallback]. *)
Definition resolve (config cmd_args : gmap string pyval) (key : string)
    (fallback : pyval) : pyval :=
  match flag_value cmd_args key, file_value config key with
  | Some v, _ => v
  | None, Some v => v
  | None, None => fallback
  end.

(** What is printed for a setting that both the flag and the file give. *)
Definition duplicate_warning (config cmd_args : gmap string pyval) (key : string)
    : list event :=
  match flag_value cmd_args key, file_value config key with
  | Some v, Some _ =>
      [EvPrint ("WARN: Duplicate argument " +:+ dq +:+ key +:+ dq
                +:+ " found in both command-line arguments and config file. Using command-line value ("
                +:+ dq +:+ str v +:+ dq +:+ ")")]
  | _, _ => []
  end.

(** Lines 55-56 of [get_config]: a section setting that is a numeric text
    is converted with [int], which may raise [ValueError]. *)
Definition as_section_id (v : pyval) : Res pyval :=
  match v with
  | PyStr s =>
      if isnumeric s then
        match int s with
        | Some n => Ok (PyInt n)
        | None => Raise ValueError
        end
      else Ok v
  | _ => Ok v
  end.

(** The object [get_config] leaves once the token is [tok] and the section
    is [section]. *)
Definition configured (config : gmap string pyval) (cmd_args : Namespace)
    (tok section : pyval) (s : Self) : Self :=
  mkSelf true tok
    (resolve config (ns_dict cmd_args) "host" (PyStr "http://localhost:32400"))
    section
    (resolve config (ns_dict cmd_args) "collection" (PyStr "Movies with Extras"))
    (PyBool (ns_no_delete cmd_args))
    "movie" (mediaItems s).

(** The object [get_config] leaves when the conversion of the section
    raises: the token, the host and the unconverted section are stored. *)
Definition unconverted (config : gmap string pyval) (cmd_args : Namespace)
    (tok : pyval) (s : Self) : Self :=
  set_section_id (resolve config (ns_dict cmd_args) "section" (PyStr ""))
    (set_host (resolve config (ns_dict cmd_args) "host" (PyStr "http://localhost:32400"))
       (set_token tok s)).

(** The warnings printed before the section is converted. *)
Definition early_warnings (config : gmap string pyval) (cmd_args : Namespace)
    : list event :=
  duplicate_warning config (ns_dict cmd_args) "host"
  ++ duplicate_warning config (ns_dict cmd_args) "section".

(** The warnings of the settings after the token. *)
Definition later_warnings (config : gmap string pyval) (cmd_args : Namespace)
    : list event :=
  duplicate_warning config (ns_dict cmd_args) "host"
  ++ duplicate_warning config (ns_dict cmd_args) "section"
  ++ duplicate_warning config (ns_dict cmd_args) "collection"
  ++ duplicate_warning config (ns_dict cmd_args) "no_delete".

Definition loaded_config (loaded : option (gmap string pyval)) : gmap string pyval :=
  match loaded with Some c => c | None => ∅ end.

(** ** Order of the events *)

(** Whatever [c] does, the events it adds to the trace all satisfy [P]. *)
Definition emits {A} (P : event -> bool) (c : M A) : Prop :=
  forall st, exists l, trace (snd (c st)) = trace st ++ l /\ forallb P l = true.

(** An event that changes nothing on the server. *)
Definition reads (e : event) : bool := negb (is_mutation e).

(** An event of the synchronisation: an OPTIONS or PUT request, or a line
    printed. *)
Definition writes (e : event) : bool := is_mutation e || is_print e.

(** [c] extends the trace by reading events followed by writing events. *)
Definition reads_then_writes {A} (c : M A) : Prop :=
  forall st, exists scan sync,
    trace (snd (c st)) = trace st ++ scan ++ sync
    /\ forallb reads scan = true /\ forallb writes sync = true.

(** ** Episode titles *)

(** A character of a printed number: a digit or the sign. *)
Definition numeral_char (c : ascii) : bool := is_digit c || Ascii.eqb c "-".

(** * Properties *)

(** ** Batching *)

Lemma slice_chunk {A} (root : list A) (i : nat) :
  slice root i (Nat.min (length root) (i + 50)) = firstn 50 (skipn i root).
Proof.
  unfold slice.
  destruct (Nat.le_gt_cases (length root) (i + 50)) as [H | H].
  - rewrite Nat.min_l by lia.
    rewrite (firstn_all2 (n := 50)) by (rewrite length_skipn; lia).
    apply firstn_all2. rewrite length_skipn. lia.
  - rewrite Nat.min_r by lia. f_equal. lia.
Qed.

Lemma concat_chunks {A} (root : list A) (count k : nat) :
  concat (map (fun i => firstn 50 (skipn i root))
              (map (fun k => (k * 50)%nat) (seq k count)))
  = firstn (count * 50) (skipn (k * 50) root).
Proof.
  revert k. induction count as [| count IH]; intros k.
  - reflexivity.
  - cbn [seq map concat]. rewrite IH.
    replace (S count * 50)%nat with (50 + count * 50)%nat by lia.
    rewrite <- (take_take_drop (skipn (k * 50) root) 50 (count * 50)).
    f_equal. f_equal. rewrite skipn_skipn. f_equal.
Qed.

Lemma group_count_bounds (n : nat) :
  (n <= (n + 49) / 50 * 50 /\ (0 < n -> ((n + 49) / 50 - 1) * 50 < n))%nat.
Proof.
  pose proof (Nat.div_mod_eq (n + 49) 50) as E.
  pose proof (Nat.mod_upper_bound (n + 49) 50) as U.
  lia.
Qed.

Lemma group_start_bound (n i : nat) :
  (i < (n + 49) / 50 -> i * 50 < n)%nat.
Proof.
  pose proof (Nat.div_mod_eq (n + 49) 50) as E.
  pose proof (Nat.mod_upper_bound (n + 49) 50) as U.
  lia.
Qed.

Lemma groups_unfold {A} (root : list A) :
  groups root = map (fun i => firstn 50 (skipn i root))
                    (map (fun k => (k * 50)%nat) (seq 0 ((length root + 49) / 50))).
Proof.
  unfold groups, range_step. simpl.
  apply map_ext. intros i. apply slice_chunk.
Qed.

Lemma groups_lookup {A} (root : list A) (i : nat) (g : list A) :
  groups root !! i = Some g ->
  (i < (length root + 49) / 50)%nat /\ g = firstn 50 (skipn (i * 50) root).
Proof.
  rewrite groups_unfold. rewrite !list_lookup_fmap.
  destruct (seq 0 ((length root + 49) / 50) !! i) as [k |] eqn:E; [| discriminate].
  apply lookup_seq in E. destruct E as [-> E].
  intros [= <-]. split; [exact E | reflexivity].
Qed.

Lemma groups_length {A} (root : list A) :
  length (groups root) = ((length root + 49) / 50)%nat.
Proof. rewrite groups_unfold. rewrite !length_map. apply length_seq. Qed.

(** C5: for every list, the groups of [run] concatenated are the list itself
    (same elements, same order, same count); every group is non-empty and has
    at most 50 elements, and every group but the last has exactly 50. *)
Theorem groups_partition {A} (root : list A) :
  concat (groups root) = root
  /\ length (concat (groups root)) = length root
  /\ (forall i g, groups root !! i = Some g -> g <> [] /\ (length g <= 50)%nat)
  /\ (forall i g, groups root !! i = Some g ->
        (S i < length (groups root))%nat -> length g = 50%nat).
Proof.
  assert (C : concat (groups root) = root).
  { rewrite groups_unfold, concat_chunks. simpl skipn.
    apply firstn_all2. apply group_count_bounds. }
  split; [exact C |]. split; [now rewrite C |].
  split.
  - intros i g Hg. apply groups_lookup in Hg as [Hi ->].
    split.
    + intros E.
      assert (L : length (firstn 50 (skipn (i * 50) root)) = 0%nat) by now rewrite E.
      rewrite length_firstn, length_skipn in L.
      apply group_start_bound in Hi. lia.
    + rewrite length_firstn. lia.
  - intros i g Hg Hlast. apply groups_lookup in Hg as [Hi ->].
    rewrite groups_length in Hlast.
    rewrite length_firstn, length_skipn.
    apply group_start_bound in Hlast. lia.
Qed.

Example range_step_120 : range_step 120 50 = [0; 50; 100]%nat.
Proof. reflexivity. Qed.

(** The group sizes for the list lengths 0, 1, 49, 50, 51 and 100. *)
Example groups_sizes :
  map (fun n => map (@length nat) (groups (seq 0 n))) [0; 1; 49; 50; 51; 100]%nat
  = [[]; [1]; [49]; [50]; [50; 1]; [50; 50]]%nat.
Proof. vm_compute. reflexivity. Qed.

(** ** Configuration resolver *)

Lemma emitted_nothing {A} (c : M A) (st : State) :
  trace (snd (c st)) = trace st -> emitted c st = [].
Proof. unfold emitted. intros ->. apply skipn_all. Qed.

Lemma emitted_app {A} (c : M A) (st : State) (l : list event) :
  trace (snd (c st)) = trace st ++ l -> emitted c st = l.
Proof. unfold emitted. intros ->. apply drop_app_length. Qed.

Lemma prints_only {A} (c : M A) (st : State) (text : string) :
  trace (snd (c st)) = trace st ++ [EvPrint text] -> ~ prompts c st.
Proof.
  intros E [p Hp]. rewrite (emitted_app _ _ _ E) in Hp.
  destruct Hp as [Hp | []]. discriminate.
Qed.

Lemma silent {A} (c : M A) (st : State) :
  snd (c st) = st -> ~ prompts c st.
Proof.
  intros E [p Hp]. rewrite emitted_nothing in Hp by now rewrite E.
  destruct Hp.
Qed.

Ltac resolve_cases cmd_args config key :=
  unfold flag_value, file_value, get_config_value;
  destruct (cmd_args !! key) as [[] |]; simpl; try discriminate;
  destruct (config !! key) as [[] |]; simpl; try discriminate.

Section Resolver.

Variables (config cmd_args : gmap string pyval) (key : string).
Variables (default : pyval) (prompt : string) (st : State).

Let c := get_config_value config cmd_args key default prompt.

Lemma flag_wins v :
  flag_value cmd_args key = Some v ->
  fst (c st) = Ok v /\ stdin (snd (c st)) = stdin st /\ ~ prompts c st.
Proof.
  subst c. destruct st as [s lines tr srv]. revert v.
  resolve_cases cmd_args config key; intros v [= <-];
    (repeat split; [reflexivity ..|]);
    first [ now apply silent | eapply prints_only; reflexivity ].
Qed.

Lemma file_wins v :
  flag_value cmd_args key = None -> file_value config key = Some v ->
  fst (c st) = Ok v /\ snd (c st) = st /\ ~ prompts c st.
Proof.
  subst c. destruct st as [s lines tr srv]. revert v.
  resolve_cases cmd_args config key; intros v _ [= <-];
    (repeat split; [reflexivity ..|]); now apply silent.
Qed.

Lemma default_wins d :
  flag_value cmd_args key = None -> file_value config key = None ->
  default = PyStr d -> d <> "" ->
  fst (c st) = Ok (PyStr d) /\ snd (c st) = st /\ ~ prompts c st.
Proof.
  subst c. intros F G -> D. destruct d as [| a d]; [congruence |].
  destruct st as [s lines tr srv]. revert F G.
  resolve_cases cmd_args config key; intros _ _;
    (repeat split; [reflexivity ..|]); now apply silent.
Qed.

Lemma no_default_is_empty :
  flag_value cmd_args key = None -> file_value config key = None ->
  default = PyNone ->
  fst (c st) = Ok (PyStr "") /\ snd (c st) = st /\ ~ prompts c st.
Proof.
  subst c. intros F G ->. destruct st as [s lines tr srv]. revert F G.
  resolve_cases cmd_args config key; intros _ _;
    (repeat split; [reflexivity ..|]); now apply silent.
Qed.

Lemma empty_default_prompts :
  flag_value cmd_args key = None -> file_value config key = None ->
  default = PyStr "" ->
  prompts c st
  /\ match stdin st with
     | line :: rest => fst (c st) = Ok (PyStr line) /\ stdin (snd (c st)) = rest
     | [] => fst (c st) = Raise EOFError
     end.
Proof.
  subst c. intros F G ->. destruct st as [s lines tr srv]. revert F G.
  resolve_cases cmd_args config key; intros _ _;
    destruct (String.length prompt =? 0)%nat;
    unfold prompts, emitted, bind, input; simpl;
    destruct lines; simpl; rewrite drop_app_length;
    (split; [eexists; left; reflexivity | auto]).
Qed.

End Resolver.

(** C7 (as amended): a command-line value wins over a config-file value; a
    config-file value wins over the default; a non-empty default wins over
    the prompt, so the user is asked only when the setting has neither a
    value nor a non-empty default. *)
Theorem get_config_value_precedence
    (config cmd_args : gmap string pyval) (key : string) (default : pyval)
    (prompt : string) (st : State) :
  let c := get_config_value config cmd_args key default prompt in
  (forall v, flag_value cmd_args key = Some v ->
     fst (c st) = Ok v /\ stdin (snd (c st)) = stdin st /\ ~ prompts c st)
  /\ (forall v, flag_value cmd_args key = None -> file_value config key = Some v ->
     fst (c st) = Ok v /\ snd (c st) = st /\ ~ prompts c st)
  /\ (forall d, flag_value cmd_args key = None -> file_value config key = None ->
     default = PyStr d -> d <> "" ->
     fst (c st) = Ok (PyStr d) /\ snd (c st) = st /\ ~ prompts c st)
  /\ (flag_value cmd_args key = None -> file_value config key = None ->
     default = PyNone ->
     fst (c st) = Ok (PyStr "") /\ snd (c st) = st /\ ~ prompts c st)
  /\ (flag_value cmd_args key = None -> file_value config key = None ->
     default = PyStr "" ->
     prompts c st
     /\ match stdin st with
        | line :: rest => fst (c st) = Ok (PyStr line) /\ stdin (snd (c st)) = rest
        | [] => fst (c st) = Raise EOFError
        end).
Proof.
  cbv zeta. split; [| split; [| split; [| split]]].
  - apply flag_wins.
  - apply file_wins.
  - apply default_wins.
  - apply no_default_is_empty.
  - apply empty_default_prompts.
Qed.

(** C7 (as stated) fails: with no [--host] flag and no [host] in the config
    file, the default host is returned and the user is not asked, although a
    line is waiting on standard input. *)
Lemma default_used_without_prompt :
  ~ prompt_before_default "host" (PyStr "http://localhost:32400") ""
      (initial_state ["http://plex.example:32400"] unreachable)
  /\ get_config_value ∅ (ns_dict no_flags) "host" (PyStr "http://localhost:32400") ""
       (initial_state ["http://plex.example:32400"] unreachable)
     = (Ok (PyStr "http://localhost:32400"),
        initial_state ["http://plex.example:32400"] unreachable).
Proof.
  split; [| reflexivity].
  intros [_ H]. apply H. reflexivity.
Qed.

(** The command line always has a value for [no_delete]. *)
Lemma no_delete_flag_value (cmd_args : Namespace) :
  flag_value (ns_dict cmd_args) "no_delete" = Some (PyBool (ns_no_delete cmd_args)).
Proof. reflexivity. Qed.

Lemma bind_ok {A B} (c : M A) (k : A -> M B) (st st' : State) (a : A) :
  c st = (Ok a, st') -> bind c k st = k a st'.
Proof. unfold bind. now intros ->. Qed.

Lemma bind_raise {A B} (c : M A) (k : A -> M B) (st st' : State) (e : exn) :
  c st = (Raise e, st') -> bind c k st = (Raise e, st').
Proof. unfold bind. now intros ->. Qed.

Lemma bind_inv {A B} (c : M A) (k : A -> M B) (st st'' : State) (b : B) :
  bind c k st = (Ok b, st'') ->
  exists a st', c st = (Ok a, st') /\ k a st' = (Ok b, st'').
Proof.
  unfold bind. destruct (c st) as [[a | e] st']; [eauto | discriminate].
Qed.

(** C9: the [no_delete] of the config file is never used.  Whatever the file
    holds, the resolver returns the command-line flag ([False] when it is not
    given) without reading a line, and a [get_config] that completes has
    stored that flag. *)
Theorem config_no_delete_shadowed
    (config : gmap string pyval) (loaded : option (gmap string pyval))
    (cmd_args : Namespace) (st : State) :
  let c := get_config_value config (ns_dict cmd_args) "no_delete" (PyBool false) "" in
  fst (c st) = Ok (PyBool (ns_no_delete cmd_args))
  /\ stdin (snd (c st)) = stdin st
  /\ self (snd (c st)) = self st
  /\ match get_config (Some loaded) cmd_args st with
     | (Ok _, st') => no_delete (self st') = PyBool (ns_no_delete cmd_args)
     | (Raise _, _) => True
     end.
Proof.
  cbv zeta.
  assert (R : forall cfg st0,
             exists st1, get_config_value cfg (ns_dict cmd_args) "no_delete" (PyBool false) "" st0
                         = (Ok (PyBool (ns_no_delete cmd_args)), st1)
                         /\ stdin st1 = stdin st0 /\ self st1 = self st0).
  { intros cfg [s lines tr srv]. unfold get_config_value.
    change (ns_dict cmd_args !! "no_delete") with (Some (PyBool (ns_no_delete cmd_args))).
    destruct (cfg !! "no_delete") as [[] |]; simpl; eauto. }
  destruct (R config st) as (st1 & -> & E1 & E2).
  repeat split; try assumption.
  destruct (get_config (Some loaded) cmd_args st) as [[[] | e] st'] eqn:G; [| exact I].
  unfold get_config in G.
  repeat (apply bind_inv in G; destruct G as (? & ? & ? & G)).
  match goal with
  | H : get_config_value _ _ "no_delete" _ _ ?s0 = (Ok ?v, ?s1) |- _ =>
      destruct (R (match loaded with Some c => c | None => ∅ end) s0) as (s2 & E & _ & _);
      rewrite E in H; injection H as <- <-
  end.
  repeat match goal with
         | H : modify_self _ _ = (Ok _, _) |- _ =>
             unfold modify_self in H; injection H as <- <-
         end.
  unfold modify_self in G. simpl in G. injection G as <-. reflexivity.
Qed.

(** A config file with [no_delete: true] and no [--no_delete] flag: the
    setting resolves to [False], and the run removes the stale item. *)
Example config_no_delete_ignored :
  let r := main (Some (Some config_no_delete)) no_flags (initial_state [] brazil_server) in
  fst r = Ok tt
  /\ no_delete (self (snd r)) = PyBool false
  /\ mutations (trace (snd r))
     = [EvOptions "http://localhost:32400/library/sections/1/all?type=1&id=43&X-Plex-Token=TOKEN";
        EvPut "http://localhost:32400/library/sections/1/all?type=1&id=43&X-Plex-Token=TOKEN"].
Proof. vm_compute. repeat split. Qed.

(** ** The item map *)

Lemma dict_get_set_eq {V} (k : string) (v : V) d :
  dict_get k (dict_set k v d) = Some v.
Proof.
  induction d as [| [k' v'] d IH]; simpl.
  - now rewrite String.eqb_refl.
  - destruct (String.eqb k' k) eqn:E; simpl.
    + now rewrite String.eqb_refl.
    + now rewrite E.
Qed.

Lemma dict_get_set_ne {V} (k k' : string) (v : V) d :
  k <> k' -> dict_get k' (dict_set k v d) = dict_get k' d.
Proof.
  intros N. induction d as [| [k0 v0] d IH]; simpl.
  - destruct (String.eqb_spec k k'); [contradiction | reflexivity].
  - destruct (String.eqb_spec k0 k) as [-> | _]; simpl.
    + destruct (String.eqb_spec k k'); [contradiction | reflexivity].
    + now rewrite IH.
Qed.

Lemma dict_alter_set {V} (f : V -> V) (k : string) (v : V) d :
  dict_alter f k (dict_set k v d) = dict_set k (f v) d.
Proof.
  induction d as [| [k' v'] d IH]; simpl.
  - now rewrite String.eqb_refl.
  - destruct (String.eqb k' k) eqn:E; simpl.
    + now rewrite String.eqb_refl.
    + now rewrite E, IH.
Qed.

Lemma dict_keys_set {V} (k : string) (v : V) d (k' : string) :
  In k' (dict_keys (dict_set k v d)) <-> k' = k \/ In k' (dict_keys d).
Proof.
  induction d as [| [k0 v0] d IH]; simpl.
  - intuition.
  - destruct (String.eqb_spec k0 k) as [-> | N]; simpl; intuition.
Qed.

Lemma dict_set_NoDup {V} (k : string) (v : V) d :
  NoDup (dict_keys d) -> NoDup (dict_keys (dict_set k v d)).
Proof.
  induction d as [| [k0 v0] d IH]; simpl; intros H.
  - repeat constructor. apply not_elem_of_nil.
  - inversion H as [| ? ? N D]; subst.
    destruct (String.eqb_spec k0 k) as [-> | Ne]; simpl.
    + now constructor.
    + constructor; [| now apply IH].
      rewrite list_elem_of_In in *. fold (dict_keys (dict_set k v d)).
      rewrite dict_keys_set. intros [E | I]; [congruence | contradiction].
Qed.

Lemma dict_keys_alter {V} (f : V -> V) (k : string) d :
  dict_keys (dict_alter f k d) = dict_keys d.
Proof.
  induction d as [| [k0 v0] d IH]; simpl; [reflexivity |].
  destruct (String.eqb k0 k); simpl; [reflexivity | now rewrite IH].
Qed.

(** ** Scanning one item *)

Lemma prefix_begins_with (p g : string) :
  String.prefix p g = true <-> begins_with p g.
Proof.
  unfold begins_with. revert g. induction p as [| a p IH]; intros g; simpl.
  - split; [intros _; now exists g | now destruct g].
  - destruct g as [| b g]; simpl.
    + split; [discriminate | intros [r E]; discriminate].
    + destruct (ascii_dec a b) as [-> | N].
      * rewrite IH. split.
        -- intros [r ->]. now exists r.
        -- intros [r E]. exists r. now injection E.
      * split; [discriminate | intros [r E]; injection E; intros; congruence].
Qed.

Lemma local_guid_spec (extra : Extra) :
  local_guid extra = true <-> local_file_extra extra.
Proof.
  unfold local_guid, local_file_extra, startswith.
  destruct (ex_guid extra) as [g |].
  - rewrite andb_true_iff, negb_true_iff, String.eqb_neq, prefix_begins_with.
    split.
    + intros [N P]. exists g. auto.
    + intros (g' & [= <-] & N & P). auto.
  - split; [discriminate | intros (g & E & _); discriminate].
Qed.

Lemma has_local_extra_spec (extras : list Extra) :
  has_local_extra extras = true
  <-> exists extra, In extra extras /\ local_file_extra extra.
Proof.
  induction extras as [| e extras IH]; simpl.
  - split; [discriminate | intros (? & [] & _)].
  - destruct (local_guid e) eqn:L.
    + split; [| reflexivity]. intros _. exists e. split; [now left |].
      now apply local_guid_spec.
    + rewrite IH. split.
      * intros (x & I & H). exists x. auto.
      * intros (x & [-> | I] & H).
        -- apply local_guid_spec in H. congruence.
        -- exists x. auto.
Qed.

(** What [process_metadata] does, in one step: it stores [item_of metadata]
    under the item's title. *)
Lemma process_metadata_stores (metadata : Metadata) (st : State) :
  process_metadata metadata st
  = (Ok tt,
     with_mediaItems
       (dict_set (media_title_of (section_type (self st)) metadata) (item_of metadata)
                 (mediaItems (self st)))
       st).
Proof.
  destruct st as [s lines tr srv].
  unfold process_metadata, item_of, with_mediaItems, alter_item, bind, get_self,
    modify_self, ret.
  cbn [self stdin trace server].
  destruct (md_Extras metadata) as [extras |]; [| reflexivity].
  destruct (ex_size extras =? 0); [reflexivity |].
  destruct (has_local_extra (ex_Metadata extras));
    cbn [self stdin trace server set_mediaItems mediaItems valid token host section_id
           collection_name no_delete section_type];
    rewrite ?dict_alter_set; reflexivity.
Qed.

Lemma scanned_flag_item_of (metadata : Metadata) (st : State) :
  scanned_flag metadata st = Some (mi_has_extras (item_of metadata)).
Proof.
  unfold scanned_flag. rewrite process_metadata_stores. simpl.
  now rewrite dict_get_set_eq.
Qed.

(** The collections of an item are read only after the size guard: an item
    whose [Extras] object is missing or reports size 0 is stored with no
    collections, whatever the server lists for it. *)
Remark collections_not_read_without_extras (metadata : Metadata) :
  (forall extras, md_Extras metadata = Some extras -> ex_size extras = 0) ->
  item_of metadata = mkItem [] (md_ratingKey metadata) false.
Proof.
  intros H. unfold item_of. destruct (md_Extras metadata) as [extras |]; [| reflexivity].
  now rewrite (H extras eq_refl).
Qed.

Example solaris_entry :
  mediaItems (self (snd (process_metadata solaris movie_state)))
  = [("Solaris", mkItem [] "44" false)].
Proof. reflexivity. Qed.

(** The flag stored for a scanned item is true exactly when the item's
    [Extras] object is there, reports a size other than 0, and lists an extra
    whose guid is a non-empty text beginning with [file:///]. *)
Lemma has_extras_iff_sized_local_extra (metadata : Metadata) (st : State) :
  exists flag,
    scanned_flag metadata st = Some flag
    /\ (flag = true
        <-> exists extras,
              md_Extras metadata = Some extras
              /\ ex_size extras <> 0
              /\ exists extra, In extra (ex_Metadata extras) /\ local_file_extra extra).
Proof.
  exists (mi_has_extras (item_of metadata)).
  split; [apply scanned_flag_item_of |].
  unfold item_of. destruct (md_Extras metadata) as [extras |]; simpl.
  - destruct (Z.eqb_spec (ex_size extras) 0) as [Z | NZ]; simpl.
    + split; [discriminate |]. intros (x & [= <-] & N & _). contradiction.
    + rewrite has_local_extra_spec. split.
      * intros H. exists extras. auto.
      * intros (x & [= <-] & _ & H). exact H.
  - split; [discriminate | intros (x & E & _); discriminate].
Qed.

(** The size guard of line 228 decides alone on an object whose size field is
    0: what such an object lists is not looked at. *)
Remark size_zero_extras_not_flagged :
  ~ flag_iff_listed_local_extra size_zero_movie (initial_state [] unreachable)
  /\ scanned_flag size_zero_movie (initial_state [] unreachable) = Some false.
Proof.
  split; [| reflexivity].
  intros [_ H].
  assert (E : scanned_flag size_zero_movie (initial_state [] unreachable) = Some true).
  { apply H. eexists. split; [left; reflexivity |].
    eexists. split; [reflexivity |]. split; [discriminate |].
    eexists. reflexivity. }
  discriminate E.
Qed.

(** C1: for a scanned item whose [Extras] object reports as its size the
    number of extras it lists, the flag stored is true exactly when one of
    the listed extras has a guid that is a non-empty text beginning with
    [file:///]. *)
Theorem has_extras_iff_local_extra (metadata : Metadata) (st : State) :
  size_is_count metadata ->
  scanned_flag metadata st = Some true
  <-> exists extra, In extra (listed_extras metadata) /\ local_file_extra extra.
Proof.
  intros C.
  destruct (has_extras_iff_sized_local_extra metadata st) as (flag & F & E).
  rewrite F. unfold listed_extras. unfold size_is_count in C. split.
  - intros [= ->]. destruct (proj1 E eq_refl) as (extras & X & _ & H).
    now rewrite X.
  - intros (extra & I & L). f_equal. apply E.
    destruct (md_Extras metadata) as [extras |]; [| destruct I].
    exists extras. split; [reflexivity |]. split; [| eauto].
    rewrite C. destruct (ex_Metadata extras); [destruct I | discriminate].
Qed.

Lemma has_extras_iff_local_extra_witness :
  scanned_flag alien movie_state = Some true
  <-> exists extra, In extra (listed_extras alien) /\ local_file_extra extra.
Proof.
  apply (has_extras_iff_local_extra alien movie_state). reflexivity.
Defined.

(** ** The synchronizer *)

Lemma set_collections_pushes (metadata_id : string) (collections : list string)
    (st : State) :
  responds (server st) ->
  set_collections metadata_id collections st
  = (Ok tt, mkState (self st) (stdin st)
                    (trace st ++ push (self st) metadata_id collections) (server st)).
Proof.
  destruct st as [s lines tr srv]. cbn [server]. intros R.
  unfold set_collections, push, bind, get_self, requests_options, requests_put.
  cbn [self stdin trace server].
  destruct (R tr (set_collections_url s metadata_id collections)) as (? & ? & ? & ->).
  cbn [self stdin trace server].
  destruct (R (tr ++ [EvOptions (set_collections_url s metadata_id collections)])
              (set_collections_url s metadata_id collections)) as (? & ? & ? & ->).
  now rewrite <- app_assoc.
Qed.

Lemma dict_get_app_fresh {V} (k : string) (v : V) done rest :
  ~ In k (dict_keys done) -> dict_get k (done ++ (k, v) :: rest) = Some v.
Proof.
  induction done as [| [k0 v0] done IH]; simpl; intros N.
  - now rewrite String.eqb_refl.
  - destruct (String.eqb_spec k0 k) as [-> | _]; [tauto | apply IH; tauto].
Qed.

Lemma dict_alter_app_fresh {V} (f : V -> V) (k : string) (v : V) done rest :
  ~ In k (dict_keys done) ->
  dict_alter f k (done ++ (k, v) :: rest) = done ++ (k, f v) :: rest.
Proof.
  induction done as [| [k0 v0] done IH]; simpl; intros N.
  - now rewrite String.eqb_refl.
  - destruct (String.eqb_spec k0 k) as [-> | _]; [tauto |].
    rewrite IH; tauto.
Qed.

Lemma synced_key (name : string) (item : string * MediaItem) :
  fst (synced name item) = fst item.
Proof. unfold synced. now destruct (to_add name (snd item)). Qed.


Section Synchronizer.

Variables (name : string) (s0 : Self) (lines : list string).
Variable srv : list event -> string -> http_reply.
Hypothesis name_is_str : collection_name s0 = PyStr name.
Hypothesis srv_responds : responds srv.

Let state (m : list (string * MediaItem)) (tr : list event) : State :=
  mkState (set_mediaItems m s0) lines tr srv.

Lemma post_process_item_step k e done todo tr added removed :
  ~ In k (dict_keys done) ->
  post_process_item k (added, removed) (state (done ++ (k, e) :: todo) tr)
  = (Ok (added ++ (if to_add name e then [k] else []),
         removed ++ (if to_remove name e then [k] else [])),
     state (done ++ synced name (k, e) :: todo) (tr ++ item_trace s0 name (k, e))).
Proof.
  intros N. subst state.
  unfold post_process_item, alter_item, print.
  unfold bind, get_self, modify_self, emit, ret.
  cbn [self stdin trace server mediaItems set_mediaItems collection_name no_delete
         fst snd].
  rewrite (dict_get_app_fresh _ _ _ _ N), name_is_str.
  unfold synced, item_trace. unfold kept, to_remove, to_add.
  cbn [fst snd].
  destruct (in_collections (PyStr name) (mi_collections e)),
           (mi_has_extras e), (truthy (no_delete s0));
    cbn [andb negb self stdin trace server mediaItems set_mediaItems];
    rewrite ?set_collections_pushes by exact srv_responds;
    cbn [self stdin trace server mediaItems set_mediaItems collection_name no_delete];
    rewrite ?app_nil_r, ?(dict_alter_app_fresh _ _ _ _ _ N);
    reflexivity.
Qed.

Lemma post_process_loop_runs todo :
  forall done tr added removed,
    NoDup (dict_keys (done ++ todo)) ->
    post_process_loop (dict_keys todo) (added, removed) (state (done ++ todo) tr)
    = (Ok (added ++ added_of name todo, removed ++ removed_of name todo),
       state (done ++ map (synced name) todo)
             (tr ++ flat_map (item_trace s0 name) todo)).
Proof.
  induction todo as [| [k e] todo IH]; intros done tr added removed D.
  - simpl. unfold added_of, removed_of. simpl. now rewrite !app_nil_r.
  - assert (N : ~ In k (dict_keys done)).
    { unfold dict_keys in D. rewrite map_app in D. simpl in D.
      apply NoDup_app in D as (_ & D & _). intros I.
      apply (D k); [now apply list_elem_of_In | left]. }
    cbn [dict_keys map fst post_process_loop].
    erewrite bind_ok by (apply post_process_item_step; exact N).
    replace (done ++ synced name (k, e) :: todo)
      with ((done ++ [synced name (k, e)]) ++ todo) by now rewrite <- app_assoc.
    fold (dict_keys todo). rewrite IH.
    + unfold added_of, removed_of. cbn [List.filter flat_map map snd fst].
      rewrite <- !app_assoc. cbn [app].
      destruct (to_add name e), (to_remove name e); cbn [map fst app];
        rewrite ?app_nil_r, <- ?app_assoc; reflexivity.
    + unfold dict_keys in *. rewrite !map_app in *. simpl in *.
      rewrite synced_key. simpl. now rewrite <- app_assoc.
Qed.

End Synchronizer.

Lemma for_each_print (l : list string) (st : State) :
  for_each l print st
  = (Ok tt, mkState (self st) (stdin st) (trace st ++ map EvPrint l) (server st)).
Proof.
  revert st. induction l as [| x l IH]; intros [s lines tr srv]; simpl.
  - now rewrite app_nil_r.
  - unfold bind, print, emit. simpl. rewrite IH. simpl.
    now rewrite <- app_assoc.
Qed.

Lemma mutations_app (l l' : list event) :
  mutations (l ++ l') = mutations l ++ mutations l'.
Proof. apply List.filter_app. Qed.

Lemma mutations_prints (l : list event) :
  forallb is_print l = true -> mutations l = [].
Proof.
  induction l as [| [] l IH]; simpl; try discriminate; auto.
Qed.

Lemma set_mediaItems_same (s : Self) : set_mediaItems (mediaItems s) s = s.
Proof. now destruct s. Qed.

(** [post_process] as a whole: it prints a header, runs the loop over the
    keys of the map, and prints the two lists. *)
Lemma post_process_shape (st : State) (added removed : list string) (s' : Self)
    (mid : list event) :
  (forall tr0,
     post_process_loop (dict_keys (mediaItems (self st))) ([], [])
       (mkState (self st) (stdin st) tr0 (server st))
     = (Ok (added, removed), mkState s' (stdin st) (tr0 ++ mid) (server st))) ->
  exists header footer,
    forallb is_print header = true /\ forallb is_print footer = true
    /\ post_process st
       = (Ok (added, removed),
          mkState s' (stdin st) (trace st ++ header ++ mid ++ footer) (server st)).
Proof.
  destruct st as [s lines tr srv]. cbn [self stdin trace server]. intros L.
  unfold post_process.
  unfold bind at 1. unfold get_self at 1. cbn [self].
  do 4 (unfold bind at 1; unfold print at 1, emit at 1; cbn [self stdin trace server]).
  unfold bind at 1. rewrite L. clear L.
  do 2 (unfold bind at 1; unfold print at 1, emit at 1; cbn [self stdin trace server]).
  unfold bind at 1. rewrite for_each_print. cbn [self stdin trace server].
  unfold bind at 1.
  set (removed_line := if truthy (no_delete _) then _ else _).
  assert (R : exists text, forall st0, removed_line st0
              = (Ok tt, mkState (self st0) (stdin st0) (trace st0 ++ [EvPrint text])
                                (server st0))).
  { subst removed_line.
    destruct (truthy (no_delete s)); eexists; intros st0; reflexivity. }
  destruct R as [text R]. rewrite R. clear R removed_line.
  cbn [self stdin trace server].
  unfold bind at 1; unfold print at 1, emit at 1; cbn [self stdin trace server].
  unfold bind at 1. rewrite for_each_print. cbn [self stdin trace server].
  unfold bind at 1; unfold print at 1, emit at 1; cbn [self stdin trace server].
  unfold ret.
  eexists [_; _; _; _],
          (_ :: _ :: map EvPrint added ++ _ :: _ :: map EvPrint removed ++ [_]).
  split; [| split]; cycle 2.
  - f_equal. f_equal. repeat rewrite <- app_assoc. cbn [app].
    repeat rewrite <- app_assoc. reflexivity.
  - reflexivity.
  - cbn [forallb is_print andb]. rewrite !forallb_app. cbn [forallb is_print andb].
    rewrite !forallb_app. cbn [forallb is_print andb].
    assert (P : forall l, forallb is_print (map EvPrint l) = true)
      by (induction l; simpl; auto).
    now rewrite !P.
Qed.

(** For a collection name that is a [str]: what [post_process] returns,
    leaves in the map, and adds to the trace. *)
Lemma post_process_runs (name : string) (st : State) :
  collection_name (self st) = PyStr name ->
  responds (server st) ->
  NoDup (dict_keys (mediaItems (self st))) ->
  exists header footer,
    forallb is_print header = true /\ forallb is_print footer = true
    /\ post_process st
       = (Ok (added_of name (mediaItems (self st)), removed_of name (mediaItems (self st))),
          mkState (set_mediaItems (map (synced name) (mediaItems (self st))) (self st))
                  (stdin st)
                  (trace st ++ header
                   ++ flat_map (item_trace (self st) name) (mediaItems (self st))
                   ++ footer)
                  (server st)).
Proof.
  intros Hn R D. apply post_process_shape. intros tr0.
  pose proof (post_process_loop_runs name (self st) (stdin st) (server st) Hn R
                (mediaItems (self st)) [] tr0 [] [] D) as L.
  cbn [app] in L. now rewrite set_mediaItems_same in L.
Qed.

Lemma post_process_summary (name : string) (st : State) :
  collection_name (self st) = PyStr name ->
  responds (server st) ->
  NoDup (dict_keys (mediaItems (self st))) ->
  fst (post_process st)
  = Ok (added_of name (mediaItems (self st)), removed_of name (mediaItems (self st)))
  /\ self (snd (post_process st))
     = set_mediaItems (map (synced name) (mediaItems (self st))) (self st)
  /\ mutations (emitted post_process st)
     = mutations (flat_map (item_trace (self st) name) (mediaItems (self st))).
Proof.
  intros Hn R D.
  destruct (post_process_runs name st Hn R D) as (header & footer & Ph & Pf & E).
  unfold emitted. rewrite E. cbn [fst snd self trace].
  repeat split. rewrite drop_app_length, !mutations_app.
  now rewrite (mutations_prints _ Ph), (mutations_prints _ Pf), app_nil_r.
Qed.

Lemma in_collections_In (name : string) (collections : list string) :
  in_collections (PyStr name) collections = true <-> In name collections.
Proof.
  unfold in_collections. rewrite existsb_exists. simpl. split.
  - intros (c & I & E). apply String.eqb_eq in E. now subst.
  - intros I. exists name. split; [exact I | apply String.eqb_refl].
Qed.

Lemma dict_get_In {V} (k : string) (v : V) d :
  dict_get k d = Some v -> In (k, v) d.
Proof.
  induction d as [| [k0 v0] d IH]; simpl; [discriminate |].
  destruct (String.eqb_spec k0 k) as [-> | _].
  - intros [= ->]. now left.
  - intros H. right. now apply IH.
Qed.

Lemma dict_key_unique {V} (k : string) (v v' : V) d :
  NoDup (dict_keys d) -> dict_get k d = Some v -> In (k, v') d -> v' = v.
Proof.
  induction d as [| [k0 v0] d IH]; simpl; [discriminate |].
  intros D. apply NoDup_cons in D as [N D].
  destruct (String.eqb_spec k0 k) as [-> | Ne].
  - intros [= ->] [[= ->] | I]; [reflexivity |].
    exfalso. apply N. apply list_elem_of_In.
    change k with (fst (k, v')). now apply in_map.
  - intros G [[= E _] | I]; [contradiction | now apply IH].
Qed.


Lemma mutations_flat_map_In {X} (f : X -> list event) (x : X) (l : list X) (ev : event) :
  In x l -> In ev (mutations (f x)) -> In ev (mutations (flat_map f l)).
Proof.
  intros I H. induction l as [| y l IH]; simpl in *; [contradiction |].
  rewrite mutations_app. apply in_or_app.
  destruct I as [-> | I]; [now left | right; now apply IH].
Qed.


(** *** The requests, spelled out *)

Lemma app_assoc_string (a b c : string) : (a +:+ b) +:+ c = a +:+ (b +:+ c).
Proof.
  induction a as [| x a IH]; [reflexivity |].
  change (String x ((a +:+ b) +:+ c) = String x (a +:+ (b +:+ c))).
  now rewrite IH.
Qed.

Lemma app_empty_r_string (a : string) : a +:+ "" = a.
Proof.
  induction a as [| x a IH]; [reflexivity |].
  change (String x (a +:+ "") = String x a). now rewrite IH.
Qed.

Lemma concat_cons (h : string) (t : list string) :
  String.concat "" (h :: t) = h +:+ String.concat "" t.
Proof.
  destruct t as [| x t]; [| reflexivity].
  cbn [String.concat]. now rewrite app_empty_r_string.
Qed.

Lemma collection_params_indexed (collections : list string) :
  forall index,
    collection_params index collections
    = String.concat ""
        (imap (fun i t => "&collection%5B" +:+ pretty (Z.of_nat (index + i))
                          +:+ "%5D.tag.tag=" +:+ quote t) collections).
Proof.
  induction collections as [| c rest IH]; intros index; [reflexivity |].
  cbn [collection_params imap]. rewrite concat_cons, IH, Nat.add_0_r.
  rewrite !app_assoc_string. do 5 f_equal.
  apply imap_ext. intros i t _. cbn. now rewrite Nat.add_succ_r.
Qed.

Lemma set_collections_url_spelled (s : Self) (metadata_id : string)
    (collections : list string) :
  set_collections_url s metadata_id collections = replacement_url s metadata_id collections.
Proof.
  unfold set_collections_url, replacement_url, indexed_tag_parameters, lib_type_code.
  rewrite (collection_params_indexed collections 0).
  now destruct (String.eqb (section_type s) "movie").
Qed.

Lemma push_spelled (s : Self) (metadata_id : string) (collections : list string) :
  push s metadata_id collections = replacement s metadata_id collections.
Proof. unfold push, replacement. now rewrite set_collections_url_spelled. Qed.

Lemma mutations_flat_map_split {X} (f : X -> list event) (x : X) (l : list X) :
  In x l ->
  exists earlier later,
    mutations (flat_map f l) = earlier ++ mutations (f x) ++ later.
Proof.
  intros I. apply in_split in I as (l1 & l2 & ->).
  rewrite flat_map_app. cbn [flat_map]. rewrite !mutations_app. eauto.
Qed.

Lemma example_keys_NoDup : NoDup (dict_keys (mediaItems example_self)).
Proof. apply (bool_decide_unpack _). vm_compute. exact I. Qed.

Lemma accepting_responds : responds accepting.
Proof. intros t u. unfold accepting. eauto. Qed.



(** The request of the example, character by character. *)
Example added_request_of_the_example :
  replacement_url example_self "42" ["Action"; "Movies with Extras"]
  = "http://localhost:32400/library/sections/1/all?type=1&id=42&collection%5B0%5D.tag.tag=Action&collection%5B1%5D.tag.tag=Movies%20with%20Extras&X-Plex-Token=TOKEN"
  /\ mutations (emitted post_process example_state)
     = replacement example_self "42" ["Action"; "Movies with Extras"]
       ++ replacement example_self "43" [].
Proof. split; vm_compute; reflexivity. Qed.

Lemma dict_remove_keys {V} (k k' : string) (d : list (string * V)) :
  In k' (dict_keys (dict_remove k d)) -> In k' (dict_keys d).
Proof.
  induction d as [| [k0 v0] d IH]; simpl; [tauto |].
  destruct (String.eqb k0 k); simpl; tauto.
Qed.

Lemma dict_remove_NoDup {V} (k : string) (d : list (string * V)) :
  NoDup (dict_keys d) -> NoDup (dict_keys (dict_remove k d)).
Proof.
  induction d as [| [k0 v0] d IH]; simpl; intros D; [constructor |].
  apply NoDup_cons in D as [N D].
  destruct (String.eqb k0 k); simpl; [now apply IH |].
  apply NoDup_cons. split; [| now apply IH].
  rewrite list_elem_of_In in *. intros I. apply N. eapply dict_remove_keys, I.
Qed.

Lemma dict_remove_fresh {V} (k : string) (d : list (string * V)) :
  ~ In k (dict_keys d) -> dict_remove k d = d.
Proof.
  induction d as [| [k0 v0] d IH]; simpl; intros N; [reflexivity |].
  destruct (String.eqb_spec k0 k) as [-> | _]; [tauto |].
  rewrite IH; tauto.
Qed.

(** An entry for which nothing is requested can be left out of the map
    without a change to the requests. *)
Lemma mutations_without_silent_entry {V} (f : string * V -> list event)
    (k : string) (v : V) (d : list (string * V)) :
  NoDup (dict_keys d) -> dict_get k d = Some v -> mutations (f (k, v)) = [] ->
  mutations (flat_map f (dict_remove k d)) = mutations (flat_map f d).
Proof.
  intros D G Z. induction d as [| [k0 v0] d IH]; simpl in *; [discriminate |].
  apply NoDup_cons in D as [N D].
  destruct (String.eqb_spec k0 k) as [-> | Ne].
  - injection G as ->. rewrite mutations_app, Z. simpl.
    rewrite dict_remove_fresh; [reflexivity |].
    now rewrite <- list_elem_of_In.
  - simpl. rewrite !mutations_app. f_equal. now apply IH.
Qed.

Lemma without_spec (name : string) (collections : list string) :
  without (PyStr name) collections
  = List.filter (fun c => negb (String.eqb c name)) collections.
Proof. reflexivity. Qed.

Lemma count_occ_filtered (name c : string) (l : list string) :
  c <> name ->
  count_occ string_dec (List.filter (fun c => negb (String.eqb c name)) l) c
  = count_occ string_dec l c.
Proof.
  intros Nc. induction l as [| x l IH]; simpl; [reflexivity |].
  destruct (String.eqb_spec x name) as [-> | Nx]; simpl.
  - destruct (string_dec name c); [congruence | exact IH].
  - destruct (string_dec x c); [now rewrite IH | exact IH].
Qed.

Lemma dict_get_key {V} (k : string) (d : list (string * V)) :
  In k (dict_keys d) -> exists v, dict_get k d = Some v.
Proof.
  induction d as [| [k0 v0] d IH]; simpl; [tauto |].
  destruct (String.eqb_spec k0 k) as [-> | Ne]; [eauto |].
  intros [E | I]; [contradiction | auto].
Qed.

Lemma post_process_loop_converged (s : Self) (lines : list string)
    (srv : list event -> string -> http_reply) (keys : list string) :
  converged (mkState s lines [] srv) ->
  (forall k, In k keys -> In k (dict_keys (mediaItems s))) ->
  forall lists tr,
    post_process_loop keys lists (mkState s lines tr srv)
    = (Ok lists, mkState s lines (tr ++ kept_lines s keys) srv).
Proof.
  intros C. unfold converged in C. cbn [self] in C.
  induction keys as [| k keys IH]; intros K [added removed] tr.
  - simpl. now rewrite app_nil_r.
  - destruct (dict_get_key k (mediaItems s)) as [e G]; [apply K; now left |].
    cbn [post_process_loop kept_lines flat_map]. rewrite G.
    unfold post_process_item at 1. unfold bind at 1. unfold bind at 1.
    unfold get_self at 1. cbn [self]. rewrite G, (C k e G).
    destruct (mi_has_extras e).
    + unfold bind at 1. unfold print, emit, ret. cbn [self stdin trace server].
      rewrite IH by (intros; apply K; now right).
      now rewrite <- app_assoc.
    + unfold ret. rewrite IH by (intros; apply K; now right). reflexivity.
Qed.

Lemma kept_lines_prints (s : Self) (keys : list string) :
  forallb is_print (kept_lines s keys) = true.
Proof.
  induction keys as [| k keys IH]; simpl; [reflexivity |].
  rewrite forallb_app, IH, andb_true_r.
  destruct (dict_get k (mediaItems s)) as [e |]; [| reflexivity].
  now destruct (mi_has_extras e).
Qed.

Lemma post_process_converged (st : State) :
  converged st ->
  exists printed,
    forallb is_print printed = true
    /\ post_process st
       = (Ok ([], []), mkState (self st) (stdin st) (trace st ++ printed) (server st)).
Proof.
  intros C.
  destruct (post_process_shape st [] [] (self st)
              (kept_lines (self st) (dict_keys (mediaItems (self st)))))
    as (header & footer & Ph & Pf & E).
  { intros tr0. apply post_process_loop_converged; [exact C | auto]. }
  exists (header ++ kept_lines (self st) (dict_keys (mediaItems (self st))) ++ footer).
  split; [| exact E].
  now rewrite !forallb_app, Ph, Pf, kept_lines_prints.
Qed.

(** C4: on a map that has converged, [post_process] makes no collection
    request and leaves the object as it is, so a second run makes none
    either. *)
Theorem converged_sync_idempotent (st : State) :
  converged st ->
  fst (post_process st) = Ok ([], [])
  /\ mutations (emitted post_process st) = []
  /\ self (snd (post_process st)) = self st
  /\ fst (post_process (snd (post_process st))) = Ok ([], [])
  /\ mutations (emitted post_process (snd (post_process st))) = [].
Proof.
  intros C.
  destruct (post_process_converged st C) as (printed & P & E).
  assert (C2 : converged (snd (post_process st))) by (rewrite E; exact C).
  destruct (post_process_converged _ C2) as (printed2 & P2 & E2).
  unfold emitted. rewrite E2. rewrite E. cbn [fst snd self trace].
  rewrite !drop_app_length.
  repeat split; now apply mutations_prints.
Qed.

Lemma converged_sync_idempotent_witness :
  fst (post_process example_converged) = Ok ([], [])
  /\ mutations (emitted post_process example_converged) = []
  /\ self (snd (post_process example_converged)) = self example_converged
  /\ fst (post_process (snd (post_process example_converged))) = Ok ([], [])
  /\ mutations (emitted post_process (snd (post_process example_converged))) = [].
Proof.
  apply converged_sync_idempotent.
  intros item entry. unfold example_converged.
  cbn [self mediaItems set_mediaItems dict_get collection_name example_self].
  destruct (String.eqb "Aliens" item);
    [intros E; injection E as E; subst entry; reflexivity |].
  destruct (String.eqb "Brazil" item);
    [intros E; injection E as E; subst entry; reflexivity | discriminate].
Defined.

(** ** The map is keyed by title *)

Lemma scan_runs (entries : list (option Metadata)) (st : State) :
  for_each entries process_entry st
  = (Ok tt,
     with_mediaItems
       (scanned_map (section_type (self st)) entries (mediaItems (self st))) st).
Proof.
  revert st. induction entries as [| entry entries IH]; intros st.
  - destruct st as [[] lines tr srv]. reflexivity.
  - cbn [for_each scanned_map fold_left].
    destruct entry as [metadata |].
    + erewrite bind_ok by apply process_metadata_stores.
      rewrite IH. destruct st as [s lines tr srv]. reflexivity.
    + unfold bind, process_entry, ret. rewrite IH. reflexivity.
Qed.

Lemma scanned_map_NoDup (t : string) (entries : list (option Metadata)) m :
  NoDup (dict_keys m) -> NoDup (dict_keys (scanned_map t entries m)).
Proof.
  revert m. induction entries as [| [metadata |] entries IH]; intros m D; simpl.
  - exact D.
  - apply IH. now apply dict_set_NoDup.
  - now apply IH.
Qed.

Lemma scanned_map_get (t k : string) (entries : list (option Metadata)) m :
  dict_get k (scanned_map t entries m)
  = match last_titled t k entries with
    | Some b => Some (item_of b)
    | None => dict_get k m
    end.
Proof.
  revert m. induction entries as [| [a |] entries IH]; intros m; simpl.
  - reflexivity.
  - fold (scanned_map t entries (dict_set (media_title_of t a) (item_of a) m)).
    rewrite IH. destruct (last_titled t k entries); [reflexivity |].
    destruct (String.eqb_spec (media_title_of t a) k) as [<- | Ne].
    + apply dict_get_set_eq.
    + now apply dict_get_set_ne.
  - fold (scanned_map t entries m). rewrite IH.
    now destruct (last_titled t k entries).
Qed.

Lemma last_titled_found (t k : string) (entries : list (option Metadata)) (b : Metadata) :
  last_titled t k entries = Some b ->
  exists l1 l3,
    entries = l1 ++ Some b :: l3
    /\ media_title_of t b = k
    /\ forall c, In (Some c) l3 -> media_title_of t c <> k.
Proof.
  revert b. induction entries as [| entry entries IH]; intros b; simpl; [discriminate |].
  destruct (last_titled t k entries) as [b' |] eqn:L.
  - intros [= ->]. destruct (IH b eq_refl) as (l1 & l3 & -> & T & N).
    exists (entry :: l1), l3. auto.
  - destruct entry as [a |]; [| discriminate].
    destruct (String.eqb_spec (media_title_of t a) k) as [E | _]; [| discriminate].
    intros [= ->]. exists [], entries. split; [reflexivity |]. split; [exact E |].
    intros c I T.
    clear IH. induction entries as [| x entries IH]; [destruct I |].
    simpl in L. destruct (last_titled t k entries); [discriminate |].
    destruct I as [-> | I].
    + rewrite T, String.eqb_refl in L. discriminate.
    + now apply IH.
Qed.

Lemma last_titled_none (t k : string) (entries : list (option Metadata)) :
  (forall c, In (Some c) entries -> media_title_of t c <> k) ->
  last_titled t k entries = None.
Proof.
  induction entries as [| [a |] entries IH]; intros N; simpl; [reflexivity | |].
  - rewrite IH by (intros; apply N; now right).
    destruct (String.eqb_spec (media_title_of t a) k) as [E | _]; [| reflexivity].
    exfalso. apply (N a); [now left | exact E].
  - now rewrite IH by (intros; apply N; now right).
Qed.

Lemma last_titled_last (t : string) (l1 l3 : list (option Metadata)) (b : Metadata) :
  (forall c, In (Some c) l3 -> media_title_of t c <> media_title_of t b) ->
  last_titled t (media_title_of t b) (l1 ++ Some b :: l3) = Some b.
Proof.
  intros N. induction l1 as [| x l1 IH]; simpl.
  - now rewrite (last_titled_none _ _ _ N), String.eqb_refl.
  - now rewrite IH.
Qed.

Lemma In_dict_get {V} (k : string) (v : V) d :
  NoDup (dict_keys d) -> In (k, v) d -> dict_get k d = Some v.
Proof.
  intros D I.
  destruct (dict_get_key k d) as [v' G].
  { change k with (fst (k, v)). now apply in_map. }
  now rewrite (dict_key_unique _ _ _ _ D G I).
Qed.

Lemma mutations_flat_map_inv {X} (f : X -> list event) (l : list X) (ev : event) :
  In ev (mutations (flat_map f l)) -> exists x, In x l /\ In ev (mutations (f x)).
Proof.
  induction l as [| y l IH]; simpl; [tauto |].
  rewrite mutations_app. intros I. apply in_app_or in I as [I | I].
  - exists y. auto.
  - destruct (IH I) as (x & Hx & Hev). exists x. auto.
Qed.

Lemma item_trace_mutation (s : Self) (name : string) (item : string * MediaItem)
    (ev : event) :
  In ev (mutations (item_trace s name item)) ->
  exists collections, In ev (push s (mi_id (snd item)) collections).
Proof.
  unfold item_trace.
  destruct (kept name (snd item)); [intros [] |].
  destruct (to_remove name (snd item)).
  - destruct (truthy (no_delete s)); [intros [] | intros I; eexists; exact I].
  - destruct (to_add name (snd item)); [intros I; eexists; exact I | intros []].
Qed.

Lemma item_of_id (metadata : Metadata) : mi_id (item_of metadata) = md_ratingKey metadata.
Proof.
  unfold item_of. destruct (md_Extras metadata) as [extras |]; [| reflexivity].
  now destruct (ex_size extras =? 0).
Qed.

Lemma count_occ_NoDup (k : string) (l : list string) :
  NoDup l -> In k l -> count_occ string_dec l k = 1%nat.
Proof.
  induction l as [| x l IH]; intros D I; [destruct I |].
  apply NoDup_cons in D as [N D]. cbn [count_occ].
  destruct (string_dec x k) as [-> | Ne].
  - f_equal. apply count_occ_not_In. intros I'. apply N. now apply list_elem_of_In.
  - destruct I as [E | I]; [contradiction | now apply IH].
Qed.

Lemma dict_get_keys {V} (k : string) (v : V) (d : list (string * V)) :
  dict_get k d = Some v -> In k (dict_keys d).
Proof.
  intros G. apply dict_get_In in G. change k with (fst (k, v)). now apply in_map.
Qed.

(** Every OPTIONS or PUT request of [post_process] replaces the collections
    of an entry of the map. *)
Lemma mutations_of_entries (name : string) (st : State) (ev : event) :
  collection_name (self st) = PyStr name ->
  responds (server st) ->
  NoDup (dict_keys (mediaItems (self st))) ->
  In ev (mutations (emitted post_process st)) ->
  exists k entry tags,
    dict_get k (mediaItems (self st)) = Some entry
    /\ In ev (mutations (item_trace (self st) name (k, entry)))
    /\ In ev (replacement (self st) (mi_id entry) tags).
Proof.
  intros Hn R D I.
  destruct (post_process_summary name st Hn R D) as (_ & _ & T).
  rewrite T in I. apply mutations_flat_map_inv in I as ([k e] & Ik & Iev).
  destruct (item_trace_mutation _ _ _ _ Iev) as [tags It]. cbn [snd] in It.
  rewrite push_spelled in It.
  exists k, e, tags. split; [now apply In_dict_get | auto].
Qed.

(** C10: the map is keyed by the title, not by the identifier.  When two
    entries of a reply have the same title (for a show library: the same
    show, season number, episode number and title), whatever their
    identifiers and whatever the map held before, the scan leaves one entry
    under that title, with the identifier of the one processed last; and
    every OPTIONS or PUT request of [post_process] is made for an entry of
    that map. *)
Theorem map_keeps_last_item_per_title
    (before between rest : list (option Metadata)) (a b : Metadata) (st : State) :
  let title := fun m : Metadata =>
    if String.eqb (section_type (self st)) "show" then
      md_grandparentTitle m +:+ " - S" +:+ rjust 2 "0" (pretty (md_parentIndex m))
      +:+ "E" +:+ rjust 2 "0" (pretty (md_index m)) +:+ " - " +:+ md_title m
    else md_title m in
  let entries := before ++ Some a :: between ++ Some b :: rest in
  let st' := snd (for_each entries process_entry st) in
  NoDup (dict_keys (mediaItems (self st))) ->
  title a = title b ->
  (forall c, In (Some c) rest -> title c <> title b) ->
  fst (for_each entries process_entry st) = Ok tt
  /\ NoDup (dict_keys (mediaItems (self st')))
  /\ count_occ string_dec (dict_keys (mediaItems (self st'))) (title b) = 1%nat
  /\ (exists entry,
        dict_get (title b) (mediaItems (self st')) = Some entry
        /\ mi_id entry = md_ratingKey b)
  /\ (forall name ev,
        collection_name (self st) = PyStr name ->
        responds (server st) ->
        In ev (mutations (emitted post_process st')) ->
        exists k entry tags,
          dict_get k (mediaItems (self st')) = Some entry
          /\ (k = title b -> mi_id entry = md_ratingKey b)
          /\ In ev (replacement (self st) (mi_id entry) tags)).
Proof.
  cbv zeta. intros D _ N. rewrite scan_runs. cbn [fst snd].
  unfold with_mediaItems. cbn [self mediaItems set_mediaItems].
  set (t := section_type (self st)).
  set (m := scanned_map t (before ++ Some a :: between ++ Some b :: rest)
              (mediaItems (self st))).
  assert (D' : NoDup (dict_keys m)) by now apply scanned_map_NoDup.
  assert (G : dict_get (media_title_of t b) m = Some (item_of b)).
  { unfold m. rewrite scanned_map_get.
    replace (before ++ Some a :: between ++ Some b :: rest)
      with ((before ++ Some a :: between) ++ Some b :: rest) by now rewrite <- app_assoc.
    rewrite last_titled_last; [reflexivity | exact N]. }
  change (if String.eqb t "show"
          then md_grandparentTitle b +:+ " - S" +:+ rjust 2 "0" (pretty (md_parentIndex b))
               +:+ "E" +:+ rjust 2 "0" (pretty (md_index b)) +:+ " - " +:+ md_title b
          else md_title b) with (media_title_of t b).
  split; [reflexivity |]. split; [exact D' |]. split; [| split].
  - apply count_occ_NoDup; [exact D' | exact (dict_get_keys _ _ _ G)].
  - exists (item_of b). split; [exact G | apply item_of_id].
  - intros name ev Hn R I.
    set (st' := mkState _ _ _ _) in I.
    destruct (mutations_of_entries name st' ev Hn R D' I) as (k & e & tags & Gk & _ & Iev).
    exists k, e, tags. split; [exact Gk |]. split; [| exact Iev].
    intros ->. change (mediaItems (self st')) with m in Gk.
    rewrite G in Gk. injection Gk as <-. apply item_of_id.
Qed.

(** Two films titled Dune, with identifiers 10 and 11: the map holds one
    entry, that of the one scanned last. *)
Lemma map_keeps_last_item_per_title_witness :
  let st' := snd (for_each [Some dune_1984; Some dune_2021] process_entry scanning_state) in
  fst (for_each [Some dune_1984; Some dune_2021] process_entry scanning_state) = Ok tt
  /\ NoDup (dict_keys (mediaItems (self st')))
  /\ count_occ string_dec (dict_keys (mediaItems (self st'))) "Dune" = 1%nat
  /\ (exists entry,
        dict_get "Dune" (mediaItems (self st')) = Some entry /\ mi_id entry = "11")
  /\ (forall name ev,
        collection_name (self scanning_state) = PyStr name ->
        responds (server scanning_state) ->
        In ev (mutations (emitted post_process st')) ->
        exists k entry tags,
          dict_get k (mediaItems (self st')) = Some entry
          /\ (k = "Dune" -> mi_id entry = "11")
          /\ In ev (replacement (self scanning_state) (mi_id entry) tags)).
Proof.
  apply (map_keeps_last_item_per_title [] [] [] dune_1984 dune_2021 scanning_state).
  - constructor.
  - reflexivity.
  - intros c [].
Defined.

(** The film of 1984 has a local extra and is not in the collection, the
    film of 2021 is in the collection and has no local extra: the one request
    pair made takes the film of 2021 out, and nothing is done for the film of
    1984. *)
Example dune_entry :
  let st' := snd (for_each [Some dune_1984; Some dune_2021] process_entry scanning_state) in
  mediaItems (self st') = [("Dune", mkItem ["Movies with Extras"] "11" false)]
  /\ mutations (emitted post_process st') = replacement example_self "11" [].
Proof. vm_compute. split; reflexivity. Qed.

(** ** Items that left the collection's purpose *)

Lemma In_added_of (name item : string) (m : list (string * MediaItem)) :
  In item (added_of name m) -> exists entry, In (item, entry) m /\ to_add name entry = true.
Proof.
  unfold added_of. intros I. apply in_map_iff in I as ([k e] & <- & I).
  apply filter_In in I as [I T]. eauto.
Qed.

Lemma In_removed_of (name item : string) (m : list (string * MediaItem)) :
  In item (removed_of name m)
  -> exists entry, In (item, entry) m /\ to_remove name entry = true.
Proof.
  unfold removed_of. intros I. apply in_map_iff in I as ([k e] & <- & I).
  apply filter_In in I as [I T]. eauto.
Qed.

Lemma scan_and_sync_runs (entries : list (option Metadata)) (st : State) :
  scan_and_sync entries st
  = post_process
      (with_mediaItems
         (scanned_map (section_type (self st)) entries (mediaItems (self st))) st).
Proof. unfold scan_and_sync. now erewrite bind_ok by apply scan_runs. Qed.

Lemma item_of_cases (m : Metadata) :
  (lists_extras m = false -> item_of m = mkItem [] (md_ratingKey m) false)
  /\ (lists_extras m = true ->
      item_of m = mkItem (server_tags m) (md_ratingKey m) (has_local_extra (listed_extras m))).
Proof.
  unfold lists_extras, item_of, server_tags, listed_extras.
  destruct (md_Extras m) as [extras |]; [| split; [reflexivity | discriminate]].
  destruct (ex_size extras =? 0); split; try discriminate; reflexivity.
Qed.

Lemma no_local_extra (m : Metadata) :
  (forall extra, In extra (listed_extras m) -> ~ local_file_extra extra) ->
  has_local_extra (listed_extras m) = false.
Proof.
  intros N. destruct (has_local_extra (listed_extras m)) eqn:H; [| reflexivity].
  apply has_local_extra_spec in H as (extra & I & L). now destruct (N extra I).
Qed.

(** C3, what the code does: take a scanned item that is in the collection on
    the server and has no local extra.  It is never classified as added.
    When its [Extras] object is missing or reports size 0, its tags are not
    read: it is not classified as removed either, and no request is made for
    it, with or without [no_delete].  Only when the object lists extras
    (none of them local) is the item classified as removed; then, with
    [no_delete] set no request is made for it, and otherwise an OPTIONS and a
    PUT request set its tags to the prior ones without the name. *)
Theorem stale_item_removed_only_if_extras_listed
    (name : string) (entries : list (option Metadata)) (m : Metadata) (st : State) :
  let title := media_title_of (section_type (self st)) m in
  let scanned := mediaItems (self (snd (for_each entries process_entry st))) in
  let for_other_titles := fun ev : event =>
    exists k entry tags,
      k <> title /\ dict_get k scanned = Some entry
      /\ In ev (replacement (self st) (mi_id entry) tags) in
  collection_name (self st) = PyStr name ->
  responds (server st) ->
  NoDup (dict_keys (mediaItems (self st))) ->
  last_titled (section_type (self st)) title entries = Some m ->
  In name (server_tags m) ->
  (forall extra, In extra (listed_extras m) -> ~ local_file_extra extra) ->
  exists added removed,
    fst (scan_and_sync entries st) = Ok (added, removed)
    /\ ~ In title added
    /\ (lists_extras m = false ->
        ~ In title removed
        /\ forall ev, In ev (mutations (emitted (scan_and_sync entries) st)) ->
                      for_other_titles ev)
    /\ (lists_extras m = true ->
        In title removed
        /\ (truthy (no_delete (self st)) = true ->
            forall ev, In ev (mutations (emitted (scan_and_sync entries) st)) ->
                       for_other_titles ev)
        /\ (truthy (no_delete (self st)) = false ->
            exists earlier later,
              mutations (emitted (scan_and_sync entries) st)
              = earlier
                ++ replacement (self st) (md_ratingKey m)
                     (List.filter (fun t => negb (String.eqb t name)) (server_tags m))
                ++ later)).
Proof.
  cbv zeta. intros Hn R D L Tg Nl.
  set (t := section_type (self st)) in *.
  set (title := media_title_of t m) in *.
  rewrite scan_runs. cbn [snd].
  set (st1 := with_mediaItems (scanned_map t entries (mediaItems (self st))) st).
  assert (E : emitted (scan_and_sync entries) st = emitted post_process st1).
  { unfold emitted. now rewrite scan_and_sync_runs. }
  rewrite E, scan_and_sync_runs. fold t. fold st1.
  assert (D1 : NoDup (dict_keys (mediaItems (self st1)))) by now apply scanned_map_NoDup.
  assert (G : dict_get title (mediaItems (self st1)) = Some (item_of m)).
  { unfold st1, with_mediaItems. cbn [self mediaItems set_mediaItems].
    now rewrite scanned_map_get, L. }
  assert (Hn1 : collection_name (self st1) = PyStr name) by exact Hn.
  assert (R1 : responds (server st1)) by exact R.
  destruct (post_process_summary name st1 Hn1 R1 D1) as (Rr & _ & T).
  destruct (item_of_cases m) as [C0 C1]. rewrite no_local_extra in C1 by exact Nl.
  assert (A : to_add name (item_of m) = false).
  { unfold to_add. destruct (lists_extras m); [rewrite C1 | rewrite C0]; try reflexivity;
      cbn [mi_has_extras]; apply andb_false_r. }
  assert (Silent : item_trace (self st1) name (title, item_of m) = [] ->
                   forall ev, In ev (mutations (emitted post_process st1)) ->
                   exists k entry tags,
                     k <> title /\ dict_get k (mediaItems (self st1)) = Some entry
                     /\ In ev (replacement (self st) (mi_id entry) tags)).
  { intros Z ev I.
    destruct (mutations_of_entries name st1 ev Hn1 R1 D1 I) as (k & e & tags & Gk & It & Ir).
    exists k, e, tags. split; [| split; [exact Gk | exact Ir]].
    intros ->. rewrite G in Gk. injection Gk as <-. rewrite Z in It. destruct It. }
  exists (added_of name (mediaItems (self st1))), (removed_of name (mediaItems (self st1))).
  split; [exact Rr |]. split; [| split].
  - intros I. apply In_added_of in I as (e & I & Ta).
    rewrite (dict_key_unique _ _ _ _ D1 G I) in Ta. congruence.
  - intros Z. rewrite (C0 Z) in *. split.
    + intros I. apply In_removed_of in I as (e & I & Tr).
      rewrite (dict_key_unique _ _ _ _ D1 G I) in Tr. discriminate Tr.
    + apply Silent. reflexivity.
  - intros Z. rewrite (C1 Z) in *.
    assert (Rm : to_remove name (mkItem (server_tags m) (md_ratingKey m) false) = true).
    { unfold to_remove. cbn [mi_collections mi_has_extras negb].
      rewrite andb_true_r. now apply in_collections_In. }
    assert (K : kept name (mkItem (server_tags m) (md_ratingKey m) false) = false).
    { unfold kept. cbn [mi_has_extras]. apply andb_false_r. }
    split; [| split].
    + unfold removed_of.
      change title with (fst (title, mkItem (server_tags m) (md_ratingKey m) false)).
      apply in_map. apply List.filter_In. split; [now apply dict_get_In | exact Rm].
    + intros Nd. apply Silent. unfold item_trace. cbn [fst snd].
      rewrite K, Rm. change (no_delete (self st1)) with (no_delete (self st)).
      now rewrite Nd.
    + intros Nd. rewrite T.
      destruct (mutations_flat_map_split (item_trace (self st1) name)
                  (title, mkItem (server_tags m) (md_ratingKey m) false)
                  (mediaItems (self st1))) as (earlier & later & Es);
        [now apply dict_get_In |].
      exists earlier, later. rewrite Es. do 2 f_equal.
      unfold item_trace. cbn [fst snd].
      rewrite K, Rm. change (no_delete (self st1)) with (no_delete (self st)).
      rewrite Nd, push_spelled. reflexivity.
Qed.

(** A film that is in the collection on the server and has no extras at all
    is neither added nor removed. *)
Lemma stale_item_removed_only_if_extras_listed_witness :
  exists added removed,
    fst (scan_and_sync [Some solaris] scanning_state) = Ok (added, removed)
    /\ ~ In "Solaris" added
    /\ ~ In "Solaris" removed.
Proof.
  destruct (stale_item_removed_only_if_extras_listed "Movies with Extras"
              [Some solaris] solaris scanning_state)
    as (added & removed & R & A & Z & _).
  - reflexivity.
  - exact accepting_responds.
  - constructor.
  - reflexivity.
  - left. reflexivity.
  - intros extra [].
  - exists added, removed. split; [exact R |]. split; [exact A |].
    exact (proj1 (Z eq_refl)).
Defined.

(** The film without extras stays in the collection: the scan and the
    synchronisation make no request at all, and the film is not reported.  A
    film in the collection whose only extra is not a local file is taken
    out. *)
Example stale_items_of_the_examples :
  scan_and_sync [Some solaris] scanning_state
  = (Ok ([], []),
     snd (scan_and_sync [Some solaris] scanning_state))
  /\ mutations (emitted (scan_and_sync [Some solaris]) scanning_state) = []
  /\ fst (scan_and_sync [Some brazil] scanning_state) = Ok ([], ["Brazil"])
  /\ mutations (emitted (scan_and_sync [Some brazil]) scanning_state)
     = replacement example_self "43" [].
Proof. vm_compute. repeat split. Qed.

(** ** A metadata fetch that fails *)

Lemma rating_keys_all (others : list Metadata) (st : State) :
  rating_keys (map Some others) st = (Ok (map md_ratingKey others), st).
Proof.
  induction others as [| item others IH]; simpl; [reflexivity |].
  unfold bind. now rewrite IH.
Qed.

Lemma get_metadata_fails (key : string) (st : State) :
  fetch_fails key st ->
  exists f printed,
    is_falsy f = true
    /\ forallb is_print printed = true
    /\ get_metadata key st
       = (Ok f, mkState (self st) (stdin st)
                        (trace st ++ EvGet (url (self st) key [("includeExtras", "1")])
                           :: printed)
                        (server st))
    /\ (f = FetchedFalse \/ f = Fetched None).
Proof.
  destruct st as [s lines tr srv]. unfold fetch_fails. cbn [self stdin trace server].
  intros F.
  unfold get_metadata, try_except, get_json_response.
  unfold bind at 1, get_self. cbn [self].
  unfold bind at 1. unfold bind at 1. unfold requests_get. cbn [self stdin trace server].
  destruct (srv tr (url s key [("includeExtras", "1")])) as [e | status content decoded].
  - exists FetchedFalse, []. repeat split. now left.
  - destruct (Z.eqb_spec status 200) as [-> | Ne]; cbn [negb].
    + destruct F as [F | ->]; [contradiction |].
      exists (Fetched None), [EvPrint ("ERROR: Unexpected JSON response:" +:+ nl);
                              EvPrint content; EvPrint ""].
      split; [reflexivity |]. split; [reflexivity |]. split; [| now right].
      unfold bind, print, emit, ret. cbn [self stdin trace server].
      now rewrite <- !app_assoc.
    + exists (Fetched None), []. repeat split. now right.
Qed.

Lemma for_each_raise {A} (body : A -> M unit) (x : A) (l : list A) (st st' : State)
    (e : exn) :
  body x st = (Raise e, st') -> for_each (x :: l) body st = (Raise e, st').
Proof. intros H. simpl. now apply bind_raise. Qed.

(** C6, what the code does: when the metadata fetch of a group fails, the
    warning is printed and nothing is added to the map, but the next
    statement subscripts the failed result and raises [TypeError]; the
    exception leaves the loop of [run], so the groups that follow are not
    processed. *)
Theorem failed_fetch_raises (first : Metadata) (others : list Metadata)
    (later : list (list (option Metadata))) (st : State) :
  fetch_fails (group_key first others) st ->
  exists st',
    process_item_group (group_of first others) st = (Raise TypeError, st')
    /\ for_each (group_of first others :: later) process_item_group st
       = (Raise TypeError, st')
    /\ self st' = self st
    /\ In warning (emitted (process_item_group (group_of first others)) st)
    /\ requests (emitted (process_item_group (group_of first others)) st)
       = [EvGet (url (self st) (group_key first others) [("includeExtras", "1")])].
Proof.
  intros F.
  destruct (get_metadata_fails _ _ F) as (f & printed & Hf & Hp & G & Hc).
  set (st' := mkState (self st) (stdin st)
                (trace st ++ EvGet (url (self st) (group_key first others)
                                      [("includeExtras", "1")])
                   :: printed ++ [warning])
                (server st)).
  assert (P : process_item_group (group_of first others) st = (Raise TypeError, st')).
  { unfold process_item_group, group_of.
    unfold bind at 1. unfold ret at 1.
    unfold bind at 1.
    assert (K : (if (1 <? length (Some first :: map Some others))%nat
                 then do keys <- rating_keys (tl (Some first :: map Some others));
                      ret (md_key first +:+ "," +:+ join "," keys)
                 else ret (md_key first)) st
                = (Ok (group_key first others), st)).
    { unfold group_key. cbn [length tl]. rewrite length_map.
      destruct (1 <? S (length others))%nat; [| reflexivity].
      unfold bind. now rewrite rating_keys_all. }
    rewrite K. unfold bind at 1. rewrite G.
    unfold bind at 1. rewrite Hf.
    unfold print, emit. cbn [self stdin trace server].
    unfold bind at 1.
    replace ((trace st ++ EvGet (url (self st) (group_key first others)
                                   [("includeExtras", "1")]) :: printed)
             ++ [EvPrint "Error getting metadata for this group, ignoring"])
      with (trace st' ) by (subst st'; cbn [trace]; now rewrite <- app_assoc).
    destruct Hc as [-> | ->]; reflexivity. }
  exists st'. split; [exact P |]. split; [now apply for_each_raise |].
  split; [reflexivity |].
  unfold emitted. rewrite P. subst st'. cbn [snd trace]. rewrite drop_app_length.
  split.
  - right. apply in_or_app. right. now left.
  - unfold requests. cbn [List.filter is_request]. f_equal.
    rewrite List.filter_app. cbn [List.filter warning is_request].
    rewrite app_nil_r.
    clear -Hp. induction printed as [| [] printed IH]; simpl in *;
      try discriminate; auto.
Qed.

Lemma failed_fetch_raises_witness :
  exists st',
    process_item_group [Some dune_1984] movie_state = (Raise TypeError, st')
    /\ for_each [[Some dune_1984]; [Some dune_2021]] process_item_group movie_state
       = (Raise TypeError, st')
    /\ self st' = self movie_state
    /\ In warning (emitted (process_item_group [Some dune_1984]) movie_state)
    /\ requests (emitted (process_item_group [Some dune_1984]) movie_state)
       = [EvGet "http://localhost:32400/library/metadata/10?includeExtras=1&X-Plex-Token=TOKEN"].
Proof.
  apply (failed_fetch_raises dune_1984 [] [[Some dune_2021]] movie_state).
  exact I.
Defined.

(** The same on a whole run: 51 movies make two groups; the fetch for the
    first gets status 500, the run ends with [TypeError], and no request is
    made for the second group. *)
Example failed_fetch_ends_run :
  let r := main (Some (Some config_section_1)) no_flags
                (initial_state [] failing_metadata_server) in
  fst r = Raise TypeError
  /\ length (requests (trace (snd r))) = 4%nat
  /\ In warning (trace (snd r))
  /\ mediaItems (self (snd r)) = [].
Proof.
  vm_compute. repeat split.
  repeat (first [left; reflexivity | right]).
Qed.

(** ** Early returns of the run *)

(** Without a config file the object is not valid, and [run] does nothing. *)
Lemma run_invalid (st : State) :
  valid (self st) = false -> run st = (Ok tt, st).
Proof.
  intros V. unfold run, bind, get_self. now rewrite V.
Qed.

Lemma missing_config_no_request (cmd_args : Namespace) (st : State) :
  fst (main None cmd_args st) = Ok tt
  /\ requests (emitted (main None cmd_args) st) = []
  /\ stdin (snd (main None cmd_args st)) = stdin st.
Proof.
  destruct st as [s lines tr srv].
  assert (E : init None cmd_args (mkState s lines tr srv)
              = (Ok tt,
                 mkState (set_mediaItems [] (set_valid false s)) lines
                   (tr ++ [EvPrint "Could not find config.yml! Make sure it's in the same directory as this script"])
                   srv)) by reflexivity.
  unfold emitted, main. rewrite (bind_ok _ _ _ _ _ E).
  rewrite run_invalid by reflexivity.
  cbn [fst snd trace stdin]. rewrite drop_app_length. repeat split.
Qed.

Lemma test_plex_connection_fails (s : Self) lines tr srv :
  match srv tr (url s "/" []) with
  | Fails _ => True
  | Response status _ _ => status <> 200
  end ->
  exists text,
    test_plex_connection (mkState s lines tr srv)
    = (Ok false, mkState s lines (tr ++ [EvGet (url s "/" []); EvPrint text]) srv).
Proof.
  intros F.
  unfold test_plex_connection, try_except, requests_get, bind, get_self, print, emit, ret.
  cbn [self stdin trace server].
  destruct (srv tr (url s "/" [])) as [e | status content decoded].
  - destruct (is_requests_connection_error (RequestException e));
      cbn [self stdin trace server]; eexists; rewrite <- app_assoc; reflexivity.
  - cbn [fst]. destruct (Z.eqb_spec status 200) as [E | _]; [contradiction |].
    destruct ((status =? 401) || (status =? 403));
      cbn [self stdin trace server]; eexists; rewrite <- app_assoc; reflexivity.
Qed.

(** When the connection test does not get status 200, the test is the only
    request of the run. *)
Lemma failed_connection_no_further_request (st : State) :
  valid (self st) = true ->
  match server st (trace st) (url (self st) "/" []) with
  | Fails _ => True
  | Response status _ _ => status <> 200
  end ->
  fst (run st) = Ok tt
  /\ requests (emitted run st) = [EvGet (url (self st) "/" [])]
  /\ self (snd (run st)) = self st.
Proof.
  destruct st as [s lines tr srv]. cbn [self stdin trace server]. intros V F.
  destruct (test_plex_connection_fails s lines tr srv F) as [text T].
  assert (R : run (mkState s lines tr srv)
              = (Ok tt, mkState s lines (tr ++ [EvGet (url s "/" []); EvPrint text]) srv)).
  { unfold run. unfold bind at 1. unfold get_self at 1. cbn [self]. rewrite V.
    cbn [negb]. now rewrite (bind_ok _ _ _ _ _ T). }
  unfold emitted. rewrite R. cbn [fst snd trace self]. rewrite drop_app_length.
  repeat split.
Qed.

(** An empty library: the listing is the last request. *)
Example empty_listing_ends_run :
  let r := main (Some (Some config_section_1)) no_flags
                (initial_state [] empty_library_server) in
  fst r = Ok tt
  /\ requests (trace (snd r))
     = [EvGet "http://localhost:32400/?X-Plex-Token=TOKEN";
        EvGet "http://localhost:32400/library/sections?X-Plex-Token=TOKEN";
        EvGet "http://localhost:32400/library/sections/1/all?type=1&X-Plex-Token=TOKEN"].
Proof. vm_compute. split; reflexivity. Qed.

(** C8, what the code does when the section is not resolved: [run] does not
    look at what [get_section] returns.  Section 2 is configured and is a
    music library; the user answers [-1] to the menu and [get_section]
    returns [None]; the run goes on to list section 2, fetches the metadata
    of what the server lists, and changes the collections of an item. *)
Theorem cancelled_selection_still_scans :
  fst (get_section (snd (test_plex_connection cancelling_start))) = Ok None
  /\ stdin (snd (get_section (snd (test_plex_connection cancelling_start)))) = []
  /\ fst (run cancelling_start) = Ok tt
  /\ List.filter (fun e => is_request e || is_input e) (emitted run cancelling_start)
     = [EvGet "http://localhost:32400/?X-Plex-Token=TOKEN";
        EvGet "http://localhost:32400/library/sections?X-Plex-Token=TOKEN";
        EvInput "Enter the library number (-1 to cancel): ";
        EvGet "http://localhost:32400/library/sections/2/all?type=1&X-Plex-Token=TOKEN";
        EvGet "http://localhost:32400/library/metadata/42?includeExtras=1&X-Plex-Token=TOKEN";
        EvOptions "http://localhost:32400/library/sections/2/all?type=1&id=42&collection%5B0%5D.tag.tag=Action&collection%5B1%5D.tag.tag=Movies%20with%20Extras&X-Plex-Token=TOKEN";
        EvPut "http://localhost:32400/library/sections/2/all?type=1&id=42&collection%5B0%5D.tag.tag=Action&collection%5B1%5D.tag.tag=Movies%20with%20Extras&X-Plex-Token=TOKEN"].
Proof. vm_compute. repeat split. Qed.

(** The same when the request for the sections fails: [get_section] returns
    [None] at once, and the run scans and changes the configured section. *)
Example unlisted_sections_still_scans :
  let st := snd (init (Some (Some config_section_1)) no_flags
                      (initial_state [] no_sections_server)) in
  fst (get_section (snd (test_plex_connection st))) = Ok None
  /\ fst (run st) = Ok tt
  /\ mutations (emitted run st)
     = push (self st) "42" ["Action"; "Movies with Extras"].
Proof. vm_compute. repeat split. Qed.

(** * Further properties of the code *)

(** ** Percent-encoding and URLs *)

Lemma chars_app (s1 s2 : string) : chars (s1 +:+ s2) = chars s1 ++ chars s2.
Proof.
  unfold chars. induction s1 as [| c s1 IH]; simpl; [reflexivity | now rewrite IH].
Qed.

Lemma quote_char_cases (c : ascii) :
  (quote_safe c = true /\ quote_char c = String c EmptyString)
  \/ (quote_safe c = false
      /\ exists h1 h2,
           quote_char c = String "%" (String h1 (String h2 EmptyString))
           /\ quote_safe h1 = true /\ quote_safe h2 = true
           /\ ascii_of_N (16 * hex_value h1 + hex_value h2) = c).
Proof.
  destruct c as [[] [] [] [] [] [] [] []];
    first [ left; split; reflexivity
          | right; split; [reflexivity |];
            eexists; eexists; split; [reflexivity |]; repeat split ].
Qed.

Lemma length_app_string (s1 s2 : string) :
  String.length (s1 +:+ s2) = (String.length s1 + String.length s2)%nat.
Proof. induction s1 as [| c s1 IH]; simpl; [reflexivity | now rewrite IH]. Qed.

Lemma quote_cons (a : ascii) (s : string) : quote (String a s) = quote_char a +:+ quote s.
Proof. reflexivity. Qed.

Lemma escaped_cons (a : ascii) (s : string) :
  escaped (String a s) = ((if quote_safe a then 0 else 1) + escaped s)%nat.
Proof. unfold escaped, chars. simpl. now destruct (quote_safe a). Qed.

(** X1: the text [quote] returns consists of unreserved characters, [/] and
    [%] only; in particular it holds no [&], [=], [?], [#] or space, so a
    quoted value cannot end or add a URL parameter. *)
Theorem quote_output_is_safe (s : string) (c : ascii) :
  In c (chars (quote s)) ->
  (quote_safe c = true \/ c = "%"%char)
  /\ c <> "&"%char /\ c <> "="%char /\ c <> "?"%char /\ c <> "#"%char /\ c <> " "%char.
Proof.
  intros I.
  assert (S : quote_safe c = true \/ c = "%"%char).
  { induction s as [| a s IH]; [destruct I |].
    rewrite quote_cons, chars_app in I.
    apply in_app_or in I as [I | I]; [| now apply IH].
    destruct (quote_char_cases a) as [[Sa E] | (_ & h1 & h2 & E & S1 & S2 & _)];
      rewrite E in I; simpl in I.
    - destruct I as [<- | []]. now left.
    - destruct I as [<- | [<- | [<- | []]]]; auto. }
  split; [exact S |].
  repeat split; intros ->; destruct S as [S | S]; discriminate S.
Qed.

Lemma quote_output_is_safe_witness :
  In "%"%char (chars (quote "Movies with Extras"))
  /\ (quote_safe "%" = true \/ "%"%char = "%"%char)
  /\ "%"%char <> "&"%char /\ "%"%char <> "="%char /\ "%"%char <> "?"%char
  /\ "%"%char <> "#"%char /\ "%"%char <> " "%char.
Proof.
  assert (I : In "%"%char (chars (quote "Movies with Extras"))).
  { vm_compute. do 6 right. left. reflexivity. }
  split; [exact I |].
  exact (quote_output_is_safe "Movies with Extras" "%" I).
Defined.

Lemma decode_ascii (l : list N) :
  forallb (fun b => (b <? 128)%N) l = true -> decode_utf8 0 l = l.
Proof.
  induction l as [| b l IH]; intros H; [reflexivity |].
  cbn [forallb] in H. apply andb_prop in H as [Hb Hl].
  cbn [decode_utf8]. unfold decode_first. rewrite Hb. now rewrite IH.
Qed.

Lemma safe_is_ascii (c : ascii) :
  quote_safe c = true -> (N_of_ascii c <? 128)%N = true.
Proof. destruct c as [[] [] [] [] [] [] [] []]; intros H; try reflexivity; discriminate H. Qed.

Lemma quote_is_ascii (s : string) :
  forallb (fun b => (b <? 128)%N) (map N_of_ascii (chars (quote s))) = true.
Proof.
  induction s as [| a s IH]; [reflexivity |].
  rewrite quote_cons, chars_app, map_app, forallb_app, IH, andb_true_r.
  destruct (quote_char_cases a) as [[Sa E] | (_ & h1 & h2 & E & S1 & S2 & _)]; rewrite E.
  - cbn. now rewrite (safe_is_ascii a Sa).
  - cbn. now rewrite (safe_is_ascii h1 S1), (safe_is_ascii h2 S2).
Qed.

Lemma length_chars (s : string) : List.length (chars s) = String.length s.
Proof. unfold chars. induction s as [| c s IH]; [reflexivity |]. cbn. now rewrite IH. Qed.

(** X2: the text [quote] returns has two characters more than the value has
    bytes in UTF-8 for each byte it escapes; it returns the value itself
    exactly when it escapes no byte.  (The length of a value in characters
    is smaller than its length in bytes when it is not ASCII.) *)
Theorem quote_length (s : string) :
  len (quote s) = (encoded_length s + 2 * escaped s)%nat
  /\ (quote s = s <-> escaped s = 0%nat).
Proof.
  assert (L : String.length (quote s) = (String.length s + 2 * escaped s)%nat).
  { induction s as [| a s IH]; [reflexivity |].
    rewrite quote_cons, length_app_string, escaped_cons, IH.
    destruct (quote_char_cases a) as [[Sa E] | (Sa & h1 & h2 & E & _)];
      rewrite E, Sa; simpl; lia. }
  split; [| split].
  - unfold len, encoded_length, code_points. fold (chars (quote s)).
    rewrite decode_ascii by apply quote_is_ascii.
    now rewrite length_map, length_chars.
  - intros E. rewrite E in L. lia.
  - clear L. induction s as [| a s IH]; [reflexivity |].
    rewrite quote_cons, escaped_cons.
    destruct (quote_char_cases a) as [[Sa E] | (Sa & _)]; rewrite Sa.
    + rewrite E. intros Z. simpl in Z. simpl. now rewrite (IH Z).
    + discriminate.
Qed.

(** One character of two bytes becomes six characters. *)
Example quote_e_acute :
  len e_acute = 1%nat /\ encoded_length e_acute = 2%nat /\ escaped e_acute = 2%nat
  /\ quote e_acute = "%C3%A9" /\ len (quote e_acute) = 6%nat.
Proof. vm_compute. repeat split. Qed.

(** X3: [quote] is injective: two different texts never get the same
    encoding. *)
Theorem quote_injective (s1 s2 : string) : quote s1 = quote s2 -> s1 = s2.
Proof.
  revert s2. induction s1 as [| a s1 IH]; intros [| b s2].
  - reflexivity.
  - rewrite quote_cons.
    destruct (quote_char_cases b) as [[_ E] | (_ & ? & ? & E & _)]; rewrite E;
      discriminate.
  - rewrite quote_cons.
    destruct (quote_char_cases a) as [[_ E] | (_ & ? & ? & E & _)]; rewrite E;
      discriminate.
  - rewrite !quote_cons.
    destruct (quote_char_cases a) as [[Sa Ea] | (Sa & h1 & h2 & Ea & _ & _ & Da)],
             (quote_char_cases b) as [[Sb Eb] | (Sb & k1 & k2 & Eb & _ & _ & Db)];
      rewrite Ea, Eb; simpl; intros E.
    + injection E as E1 E. subst b. f_equal. now apply IH.
    + injection E as E1 E. subst a. discriminate Sa.
    + injection E as E1 E. subst b. discriminate Sb.
    + inversion E as [[H1 H2 E']]. subst k1 k2. rewrite Da in Db. subst b.
      f_equal. now apply IH.
Qed.

Lemma quote_injective_witness : "50% off" = "50% off".
Proof.
  apply (quote_injective "50% off" "50% off"). reflexivity.
Defined.

Lemma join_cons (sep x : string) (l : list string) :
  l <> [] -> join sep (x :: l) = x +:+ sep +:+ join sep l.
Proof. destruct l; [congruence | reflexivity]. Qed.

Lemma url_params_joined (token_param : string) (params : list (string * string)) :
  forall real_url sep,
    fst (url_params real_url sep params) +:+ snd (url_params real_url sep params)
    +:+ token_param
    = real_url +:+ sep +:+ join "&" (map url_param params ++ [token_param]).
Proof.
  induction params as [| [k v] params IH]; intros real_url sep.
  - reflexivity.
  - cbn [url_params map app]. rewrite IH.
    rewrite join_cons by (destruct (map url_param params); discriminate).
    unfold url_param at 2. cbn [fst snd].
    now rewrite !app_assoc_string.
Qed.

(** X4: the URL [url] builds is the host, the path, a [?], and the
    parameters joined by [&], each as [key=quote(value)] in the order given,
    with [X-Plex-Token] always the last one. *)
Theorem url_closed_form (s : Self) (base : string) (params : list (string * string)) :
  url s base params
  = str (host s) +:+ base +:+ "?"
    +:+ join "&" (map url_param params ++ ["X-Plex-Token=" +:+ str (token s)]).
Proof.
  unfold url.
  pose proof (url_params_joined ("X-Plex-Token=" +:+ str (token s)) params
                (str (host s) +:+ base) "?") as J.
  destruct (url_params (str (host s) +:+ base) "?" params) as [real_url sep].
  cbn [fst snd] in J. rewrite app_assoc_string in J. exact J.
Qed.

Lemma collection_params_app (l1 l2 : list string) :
  forall index,
    collection_params index (l1 ++ l2)
    = collection_params index l1 +:+ collection_params (index + length l1) l2.
Proof.
  induction l1 as [| c l1 IH]; intros index.
  - simpl. now rewrite Nat.add_0_r.
  - cbn [app collection_params length]. rewrite IH.
    replace (S index + length l1)%nat with (index + S (length l1))%nat by lia.
    now rewrite !app_assoc_string.
Qed.

(** X5: the request that adds a collection is the request for the prior list
    plus one parameter: its [collection] parameters are those of the prior
    list, in order and with the same indices, followed by the new name at the
    index that is the length of the prior list. *)
Theorem appended_collection_parameter (s : Self) (metadata_id name : string)
    (collections : list string) :
  collection_params 0 (collections ++ [name])
  = collection_params 0 collections
    +:+ "&collection%5B" +:+ pretty (Z.of_nat (length collections))
    +:+ "%5D.tag.tag=" +:+ quote name
  /\ set_collections_url s metadata_id (collections ++ [name])
     = str (host s) +:+ "/library/sections/" +:+ str (section_id s) +:+ "/all?type="
       +:+ pretty (lib_type_code s) +:+ "&id=" +:+ metadata_id
       +:+ collection_params 0 collections
       +:+ "&collection%5B" +:+ pretty (Z.of_nat (length collections))
       +:+ "%5D.tag.tag=" +:+ quote name
       +:+ "&X-Plex-Token=" +:+ str (token s).
Proof.
  assert (E : collection_params 0 (collections ++ [name])
              = collection_params 0 collections
                +:+ "&collection%5B" +:+ pretty (Z.of_nat (length collections))
                +:+ "%5D.tag.tag=" +:+ quote name).
  { rewrite collection_params_app. cbn [collection_params Nat.add].
    now rewrite app_empty_r_string. }
  split; [exact E |].
  unfold set_collections_url. rewrite E.
  now rewrite !app_assoc_string.
Qed.

(** ** Requests for JSON *)

Lemma get_json_response_cases (path : string) (params : list (string * string))
    (st : State) :
  get_json_response path params st
  = (match reply_to path params st with
     | Fails e => Raise (RequestException e)
     | r => Ok (reply_data r)
     end,
     after st (EvGet (url (self st) path params) :: decode_report (reply_to path params st))).
Proof.
  destruct st as [s lines tr srv].
  unfold get_json_response, reply_to, after, requests_get, bind, get_self, print, emit, ret.
  cbn [self stdin trace server].
  destruct (srv tr (url s path params)) as [e | status content decoded];
    [reflexivity |].
  cbn [reply_data decode_report].
  destruct decoded, (status =? 200); cbn [negb self stdin trace server];
    try reflexivity.
  now rewrite <- !app_assoc.
Qed.

Lemma decode_report_prints (r : http_reply) : forallb is_print (decode_report r) = true.
Proof.
  destruct r as [e | status content [d |]]; try reflexivity.
  simpl. now destruct (status =? 200).
Qed.

Lemma requests_prints (l : list event) : forallb is_print l = true -> requests l = [].
Proof. induction l as [| [] l IH]; simpl; try discriminate; auto. Qed.

Lemma emitted_after {A} (c : M A) (st : State) (r : Res A) (events : list event) :
  c st = (r, after st events) -> emitted c st = events.
Proof. intros E. unfold emitted. rewrite E. apply drop_app_length. Qed.

(** X6: [get_json_response] makes exactly one GET, for [url(path, params)],
    reads no input and leaves the object as it is.  It returns data only for
    a response with status 200 whose body decodes; any other response gives
    [None], and only an undecodable body with status 200 is reported on the
    console.  When the request itself fails, the exception is not caught. *)
Theorem get_json_response_outcome (path : string) (params : list (string * string))
    (st : State) :
  let c := get_json_response path params in
  requests (emitted c st) = [EvGet (url (self st) path params)]
  /\ self (snd (c st)) = self st
  /\ stdin (snd (c st)) = stdin st
  /\ (forall d, fst (c st) = Ok (Some d) <->
                exists content, reply_to path params st = Response 200 content (Some d))
  /\ (forall e, fst (c st) = Raise e <->
                exists t, reply_to path params st = Fails t /\ e = RequestException t)
  /\ (List.filter is_print (emitted c st) <> [] <->
      exists content, reply_to path params st = Response 200 content None).
Proof.
  cbv zeta.
  rewrite (emitted_after _ _ _ _ (get_json_response_cases path params st)).
  rewrite get_json_response_cases. cbn [fst snd self stdin after].
  split; [| split; [reflexivity | split; [reflexivity |]]].
  - cbn [requests List.filter is_request]. f_equal.
    apply requests_prints, decode_report_prints.
  - destruct (reply_to path params st) as [t | status content decoded];
      cbn [reply_data decode_report].
    + repeat split.
      * intros H. discriminate H.
      * intros (c & H). discriminate H.
      * intros [= <-]. eauto.
      * intros (t' & [= <-] & ->). reflexivity.
      * intros H. now contradiction H.
      * intros (c & H). discriminate H.
    + destruct (Z.eqb_spec status 200) as [-> | Ne].
      * repeat split.
        -- intros [= ->]. eauto.
        -- intros (c & [= _ ->]). reflexivity.
        -- intros H. discriminate H.
        -- intros (t & H & _). discriminate H.
        -- destruct decoded; [intros H; now contradiction H | eauto].
        -- intros (c & [= _ ->]). discriminate.
      * repeat split.
        -- intros H. discriminate H.
        -- intros (c & [= E _]). contradiction.
        -- intros H. discriminate H.
        -- intros (t & H & _). discriminate H.
        -- destruct decoded; intros H; now contradiction H.
        -- intros (c & [= E _]). contradiction.
Qed.

Lemma try_except_cases {A} (body : M A) (handler : exn -> M A) (st : State) :
  try_except body handler st
  = match body st with
    | (Ok a, st') => (Ok a, st')
    | (Raise e, st') => handler e st'
    end.
Proof. reflexivity. Qed.

Lemma get_metadata_cases (key : string) (st : State) :
  get_metadata key st
  = (Ok (match reply_to key [("includeExtras", "1")] st with
         | Fails _ => FetchedFalse
         | r => Fetched (reply_data r)
         end),
     after st (EvGet (url (self st) key [("includeExtras", "1")])
                 :: decode_report (reply_to key [("includeExtras", "1")] st))).
Proof.
  unfold get_metadata. rewrite try_except_cases.
  unfold bind. rewrite get_json_response_cases.
  now destruct (reply_to key [("includeExtras", "1")] st).
Qed.

Lemma requests_get_and_report (u : string) (r : http_reply) :
  requests (EvGet u :: decode_report r) = [EvGet u].
Proof.
  cbn [requests List.filter is_request]. f_equal.
  apply requests_prints, decode_report_prints.
Qed.

(** X7: [get_metadata] never raises: whatever the request does, it returns a
    value and makes exactly one GET.  The value is falsy when the fetch
    failed (no response, a status other than 200, or a body that does not
    decode) and also when the reply decodes to an empty object; in every
    other case it is the decoded object. *)
Theorem get_metadata_outcome (key : string) (st : State) :
  exists f,
    fst (get_metadata key st) = Ok f
    /\ (is_falsy f = true
        <-> fetch_fails key st
            \/ exists container,
                 reply_data (reply_to key [("includeExtras", "1")] st) = Some container
                 /\ container_truthy container = false)
    /\ (forall d, f = Fetched (Some d)
                  <-> reply_data (reply_to key [("includeExtras", "1")] st) = Some d)
    /\ requests (emitted (get_metadata key) st)
       = [EvGet (url (self st) key [("includeExtras", "1")])]
    /\ self (snd (get_metadata key st)) = self st.
Proof.
  rewrite (emitted_after _ _ _ _ (get_metadata_cases key st)), requests_get_and_report.
  rewrite get_metadata_cases. cbn [fst snd after self].
  unfold fetch_fails. fold (reply_to key [("includeExtras", "1")] st).
  destruct (reply_to key [("includeExtras", "1")] st) as [t | status content decoded];
    cbn [reply_data].
  - exists FetchedFalse. split; [reflexivity |]. split; [| split; [| split; reflexivity]].
    + split; auto.
    + intros d. split; discriminate.
  - exists (Fetched (if status =? 200 then decoded else None)).
    split; [reflexivity |]. split; [| split; [| split; reflexivity]].
    + destruct (Z.eqb_spec status 200) as [-> | Ne]; cbn [is_falsy].
      * destruct decoded as [container |].
        -- rewrite negb_true_iff. split.
           ++ intros H. right. exists container. auto.
           ++ intros [[H | H] | (c & [= <-] & H)];
                [now contradiction H | discriminate H | exact H].
        -- split; auto.
      * split; auto.
    + intros d. split; [intros [= H]; exact H | intros H; now rewrite H].
Qed.

Lemma get_all_items_cases (st : State) :
  let path := "/library/sections/" +:+ str (section_id (self st)) +:+ "/all" in
  let params := [("type", pretty (lib_type_code (self st)))] in
  let found := match reply_data (reply_to path params st) with
               | Some container => mc_Metadata container
               | None => None
               end in
  get_all_items st
  = (Ok found,
     after st (EvGet (url (self st) path params)
                 :: decode_report (reply_to path params st)
                 ++ match found with
                    | Some _ => []
                    | None => [EvPrint "Unable to get library data, cannot continue"]
                    end)).
Proof.
  cbv zeta. unfold get_all_items.
  unfold bind at 1. unfold get_self at 1. cbn [self].
  rewrite try_except_cases. unfold bind at 1. rewrite get_json_response_cases.
  destruct st as [s lines tr srv]. unfold after, reply_to. cbn [self stdin trace server].
  destruct (srv tr _) as [t | status content decoded]; cbn [reply_data decode_report].
  - unfold bind, print, emit, ret. cbn [self stdin trace server].
    now rewrite <- app_assoc.
  - destruct (status =? 200), decoded as [container |];
      try destruct (mc_Metadata container);
      unfold bind, raise, print, emit, ret; cbn [self stdin trace server];
      rewrite <- ?app_assoc; cbn [app]; rewrite ?app_nil_r; reflexivity.
Qed.

(** X8: [get_all_items] never raises.  It makes one GET for the listing of
    the section, with type 1 for a movie library and 4 otherwise; it returns
    the [Metadata] list of a response with status 200 that decodes and has
    one, and in every other case it returns [None] and prints that it cannot
    continue. *)
Theorem get_all_items_outcome (st : State) :
  let path := "/library/sections/" +:+ str (section_id (self st)) +:+ "/all" in
  let params := [("type", pretty (lib_type_code (self st)))] in
  let found := match reply_data (reply_to path params st) with
               | Some container => mc_Metadata container
               | None => None
               end in
  fst (get_all_items st) = Ok found
  /\ requests (emitted get_all_items st) = [EvGet (url (self st) path params)]
  /\ (found = None ->
      In (EvPrint "Unable to get library data, cannot continue")
         (emitted get_all_items st))
  /\ (found <> None -> List.filter is_print (emitted get_all_items st) = [])
  /\ self (snd (get_all_items st)) = self st
  /\ stdin (snd (get_all_items st)) = stdin st.
Proof.
  cbv zeta.
  rewrite (emitted_after _ _ _ _ (get_all_items_cases st)).
  rewrite get_all_items_cases. cbn [fst snd after self stdin].
  set (path := "/library/sections/" +:+ str (section_id (self st)) +:+ "/all").
  set (params := [("type", pretty (lib_type_code (self st)))]).
  split; [reflexivity |]. split; [| split; [| split; [| split; reflexivity]]].
  - cbn [requests List.filter is_request]. f_equal.
    apply requests_prints. rewrite forallb_app, decode_report_prints.
    now destruct (match reply_data (reply_to path params st) with
                  | Some container => mc_Metadata container
                  | None => None
                  end).
  - intros ->. right. apply in_or_app. right. now left.
  - intros N. cbn [List.filter is_print].
    destruct (reply_to path params st) as [t | status content decoded];
      cbn [reply_data decode_report] in *; [now contradiction N |].
    destruct (status =? 200); [| now contradiction N].
    destruct decoded as [container |]; [| now contradiction N].
    destruct (mc_Metadata container); [reflexivity | now contradiction N].
Qed.

(** ** The connection test *)

Lemma test_plex_connection_cases (st : State) :
  test_plex_connection st
  = (Ok (match reply_status (reply_to "/" [] st) with
         | Some status => status =? 200
         | None => false
         end),
     after st (EvGet (url (self st) "/" [])
                 :: connection_report (self st) (reply_to "/" [] st))).
Proof.
  destruct st as [s lines tr srv]. unfold reply_to, after. cbn [self stdin trace server].
  unfold test_plex_connection, try_except, requests_get, bind, get_self, print, emit, ret.
  cbn [self stdin trace server].
  destruct (srv tr (url s "/" [])) as [t | status content decoded];
    cbn [reply_status connection_report is_requests_connection_error exn_name].
  - destruct (is_connection_error t); cbn [self stdin trace server];
      now rewrite <- app_assoc.
  - cbn [fst]. destruct (status =? 200); [reflexivity |].
    destruct ((status =? 401) || (status =? 403)); cbn [self stdin trace server];
      now rewrite <- app_assoc.
Qed.

(** X9: [test_plex_connection] never raises and makes exactly one GET, for
    the server root.  It returns true exactly when the response has status
    200, and then prints nothing; otherwise it prints exactly one line, which
    names the token exactly when the status is 401 or 403. *)
Theorem test_plex_connection_outcome (st : State) :
  exists connected,
    fst (test_plex_connection st) = Ok connected
    /\ (connected = true <-> reply_status (reply_to "/" [] st) = Some 200)
    /\ requests (emitted test_plex_connection st) = [EvGet (url (self st) "/" [])]
    /\ length (List.filter is_print (emitted test_plex_connection st))
       = (if connected then 0 else 1)%nat
    /\ (In (EvPrint "Could not connect to Plex with the provided token, exiting...")
           (emitted test_plex_connection st)
        <-> reply_status (reply_to "/" [] st) = Some 401
            \/ reply_status (reply_to "/" [] st) = Some 403)
    /\ self (snd (test_plex_connection st)) = self st
    /\ stdin (snd (test_plex_connection st)) = stdin st.
Proof.
  rewrite (emitted_after _ _ _ _ (test_plex_connection_cases st)).
  rewrite test_plex_connection_cases. cbn [fst snd after self stdin].
  eexists. split; [reflexivity |].
  destruct (reply_to "/" [] st) as [t | status content decoded];
    cbn [reply_status connection_report].
  - split; [split; discriminate |].
    destruct (is_connection_error t); cbn [requests List.filter is_request is_print length];
      (repeat split; try reflexivity);
      try (intros [H | [H | []]]; discriminate H);
      intros [H | H]; discriminate H.
  - destruct (Z.eqb_spec status 200) as [-> | Ne].
    + cbn [requests List.filter is_request is_print length].
      repeat split; try reflexivity; try (intros [H | []]; discriminate H).
      intros [H | H]; discriminate H.
    + split; [split; [discriminate | intros [= E]; contradiction] |].
      destruct (Z.eqb_spec status 401) as [-> | N1]; cbn [orb];
        [| destruct (Z.eqb_spec status 403) as [-> | N3]];
        cbn [requests List.filter is_request is_print length];
        (repeat split; try reflexivity); auto.
      * intros _. right. now left.
      * intros _. right. now left.
      * intros [H | [H | []]]; [discriminate H |]. exfalso.
        injection H as H. revert H. generalize (pretty status).
        intros p H. discriminate H.
      * intros [[= E] | [= E]]; contradiction.
Qed.

(** ** Processing a group *)

Lemma group_key_built (first : Metadata) (others : list Metadata) (st : State) :
  (if (1 <? length (group_of first others))%nat
   then do keys <- rating_keys (tl (group_of first others));
        ret (md_key first +:+ "," +:+ join "," keys)
   else ret (md_key first)) st
  = (Ok (group_key first others), st).
Proof.
  unfold group_key, group_of. cbn [length tl]. rewrite length_map.
  destruct (1 <? S (length others))%nat; [| reflexivity].
  unfold bind. now rewrite rating_keys_all.
Qed.

(** X10: when the metadata fetch of a group succeeds, [process_item_group]
    ends normally after that one GET and prints nothing; the map it leaves is
    the map before with the entries of the reply stored in order, each under
    its title.  What is stored comes from the reply alone, whatever items the
    group named. *)
Theorem process_item_group_stores_reply (first : Metadata) (others : list Metadata)
    (container : MediaContainer) (entries : list (option Metadata)) (st : State) :
  reply_data (reply_to (group_key first others) [("includeExtras", "1")] st)
  = Some container ->
  mc_Metadata container = Some entries ->
  process_item_group (group_of first others) st
  = (Ok tt,
     mkState (set_mediaItems
                (scanned_map (section_type (self st)) entries (mediaItems (self st)))
                (self st))
             (stdin st)
             (trace st ++ [EvGet (url (self st) (group_key first others)
                                    [("includeExtras", "1")])])
             (server st)).
Proof.
  intros D Hm.
  assert (R : exists content,
             reply_to (group_key first others) [("includeExtras", "1")] st
             = Response 200 content (Some container)).
  { destruct (reply_to _ _ st) as [t | status content decoded]; [discriminate D |].
    cbn [reply_data] in D. destruct (Z.eqb_spec status 200) as [-> | _];
      [| discriminate D]. subst decoded. eauto. }
  destruct R as [content R].
  assert (G : get_metadata (group_key first others) st
              = (Ok (Fetched (Some container)),
                 after st [EvGet (url (self st) (group_key first others)
                                    [("includeExtras", "1")])])).
  { rewrite get_metadata_cases, R. reflexivity. }
  unfold process_item_group.
  change (Some first :: map Some others) with (group_of first others).
  unfold group_of at 1.
  erewrite bind_ok by reflexivity.
  erewrite bind_ok by apply group_key_built.
  erewrite bind_ok by exact G.
  cbn [is_falsy]. unfold container_truthy. rewrite Hm.
  assert (T : negb match mc_Directory container with
                   | Some _ | _ => true
                   end = false) by now destruct (mc_Directory container).
  rewrite T.
  erewrite bind_ok by reflexivity.
  erewrite bind_ok by reflexivity.
  rewrite scan_runs. destruct st as [s lines tr srv]. reflexivity.
Qed.

Lemma process_item_group_stores_reply_witness :
  process_item_group [Some alien]
    (mkState example_self [] [] answering_server)
  = (Ok tt,
     mkState (set_mediaItems
                (scanned_map "movie" [Some alien] (mediaItems example_self)) example_self)
             []
             [EvGet "http://localhost:32400/library/metadata/42?includeExtras=1&X-Plex-Token=TOKEN"]
             answering_server).
Proof.
  apply (process_item_group_stores_reply alien [] (mkContainer None (Some [Some alien]) true)
           [Some alien] (mkState example_self [] [] answering_server)).
  - reflexivity.
  - reflexivity.
Defined.

Lemma rating_keys_null (l1 : list Metadata) (l2 : list (option Metadata)) (st : State) :
  rating_keys (map Some l1 ++ None :: l2) st = (Raise TypeError, st).
Proof.
  induction l1 as [| item l1 IH]; simpl; [reflexivity |].
  unfold bind. now rewrite IH.
Qed.

(** X11: a malformed group stops [process_item_group] before any request is
    made and with nothing printed or stored: an empty group raises
    [IndexError], and a group with a [null] entry, first or later, raises
    [TypeError]. *)
Theorem malformed_group_raises_early (first : Metadata) (l1 : list Metadata)
    (l2 rest : list (option Metadata)) (st : State) :
  process_item_group [] st = (Raise IndexError, st)
  /\ process_item_group (None :: rest) st = (Raise TypeError, st)
  /\ process_item_group (Some first :: map Some l1 ++ None :: l2) st
     = (Raise TypeError, st).
Proof.
  split; [reflexivity |]. split; [reflexivity |].
  unfold process_item_group. unfold bind at 1. unfold ret at 1.
  unfold bind at 1. cbn [length tl].
  destruct (1 <? S (length (map Some l1 ++ None :: l2)))%nat eqn:L.
  - unfold bind at 1. now rewrite rating_keys_null.
  - apply Nat.ltb_ge in L. rewrite length_app in L. simpl in L. lia.
Qed.

(** ** Choosing the section *)

Lemma find_section_found (n : Z) (sections : list Section) :
  forall st section st',
    find_section n sections st = (Ok (Some section), st') ->
    movie_or_show (sec_type section) = true
    /\ int (sec_key section) = Some n
    /\ self st' = set_section_type (sec_type section) (self st)
    /\ stdin st' = stdin st.
Proof.
  induction sections as [| x sections IH]; intros st section st' H.
  - discriminate H.
  - cbn [find_section] in H.
    destruct (int (sec_key x)) as [k |] eqn:K; [| discriminate H].
    destruct (Z.eqb_spec k n) as [-> | Ne]; [| now apply IH].
    destruct (movie_or_show (sec_type x)) eqn:T; cbn [negb] in H.
    + destruct st as [s lines tr srv].
      unfold bind, print, modify_self, emit, ret in H. cbn [self stdin trace server] in H.
      injection H as <- <-. auto.
    + destruct st as [s lines tr srv].
      unfold bind, print, emit, ret in H. discriminate H.
Qed.

Lemma list_choices_offers (sections : list Section) :
  forall acc st choices st',
    list_choices sections acc st = (Ok choices, st') ->
    self st' = self st /\ stdin st' = stdin st
    /\ forall n section,
         choices !! n = Some section ->
         acc !! n = Some section
         \/ (movie_or_show (sec_type section) = true /\ int (sec_key section) = Some n).
Proof.
  induction sections as [| x sections IH]; intros acc st choices st' H.
  - injection H as <- <-. auto.
  - cbn [list_choices] in H.
    destruct (movie_or_show (sec_type x)) eqn:T; cbn [negb] in H; [| now apply IH].
    destruct (int (sec_key x)) as [k |] eqn:K.
    + destruct st as [s lines tr srv].
      unfold bind at 1 in H. unfold print, emit in H. cbn [self stdin trace server] in H.
      apply IH in H as (E1 & E2 & O). cbn [self stdin] in *.
      split; [exact E1 |]. split; [exact E2 |].
      intros n section L. destruct (O n section L) as [A | A]; [| now right].
      destruct (decide (k = n)) as [-> | Ne].
      * rewrite lookup_insert_eq in A. injection A as <-. now right.
      * rewrite lookup_insert_ne in A by exact Ne. now left.
    + destruct st as [s lines tr srv].
      unfold bind, print, emit, raise in H. discriminate H.
Qed.

Lemma chosen_offered (choices : gmap Z Section) (choice : string) (n : Z) :
  chosen choices choice = Ok (Some n) -> is_Some (choices !! n).
Proof.
  unfold chosen. destruct (isnumeric choice); [| discriminate].
  destruct (int choice) as [k |]; [| discriminate].
  destruct (decide (is_Some (choices !! k))); [| discriminate].
  now intros [= <-].
Qed.

Lemma choice_loop_choice (choices : gmap Z Section) (pending : list string) :
  forall choice st n st',
    choice_loop choices choice pending st = (Ok (Some n), st') ->
    is_Some (choices !! n) /\ self st' = self st.
Proof.
  induction pending as [| line pending IH]; intros choice st n st' H;
    cbn [choice_loop] in H;
    destruct (chosen choices choice) as [[k |] | e] eqn:C;
    try (discriminate H);
    try (injection H as <- <-; split; [now apply chosen_offered in C | reflexivity]).
  - destruct (String.eqb choice "-1"); [discriminate H |].
    destruct st as [s [| l lines] tr srv]; unfold bind, input, raise in H;
      cbn [stdin] in H; discriminate H.
  - destruct (String.eqb choice "-1"); [discriminate H |].
    destruct st as [s [| l lines] tr srv]; unfold bind at 1 in H; unfold input in H;
      cbn [stdin self trace server] in H; [discriminate H |].
    apply IH in H as [I E]. auto.
Qed.

(** X12: a section that [get_section] returns is always a movie or show
    library of the server's list; the object then holds that section's type
    as [section_type] and the number in its key as [section_id]. *)
Theorem get_section_returns_movie_or_show (st st' : State) (section : Section) :
  get_section st = (Ok (Some section), st') ->
  movie_or_show (sec_type section) = true
  /\ section_type (self st') = sec_type section
  /\ exists n, int (sec_key section) = Some n /\ section_id (self st') = PyInt n.
Proof.
  unfold get_section. intros H.
  apply bind_inv in H as (sections & st1 & J & H).
  rewrite get_json_response_cases in J.
  assert (S1 : self st1 = self st).
  { destruct (reply_to _ _ st); injection J as _ <-; reflexivity. }
  destruct sections as [container |]; [| discriminate H].
  destruct (mc_Directory container) as [sections |]; [| discriminate H].
  apply bind_inv in H as (s & st2 & G & H). injection G as <- <-.
  apply bind_inv in H as (found & st3 & F & H).
  destruct found as [sec |].
  - injection H as <- <-.
    destruct (section_id (self st1)) as [| b | n | t] eqn:Id; try discriminate F.
    apply bind_inv in F as (r & st4 & F & R).
    destruct r as [sec' |].
    + injection R as <- <-.
      apply find_section_found in F as (T & K & E & _).
      split; [exact T |]. rewrite E. split; [reflexivity |].
      exists n. split; [exact K |]. cbn [section_id set_section_type]. exact Id.
    + destruct st4 as [s4 l4 t4 v4]. unfold bind, print, emit, ret in R. discriminate R.
  - apply bind_inv in H as ([] & st4 & _ & H).
    apply bind_inv in H as (choices & st5 & L & H).
    apply list_choices_offers in L as (_ & _ & O).
    apply bind_inv in H as ([] & st6 & _ & H).
    apply bind_inv in H as (choice & st7 & _ & H).
    apply bind_inv in H as (pending & st8 & _ & H).
    apply bind_inv in H as (r & st9 & C & H).
    destruct r as [n |]; [| discriminate H].
    apply choice_loop_choice in C as [[sec Hsec] _].
    apply bind_inv in H as ([] & st10 & M & H).
    rewrite Hsec in H.
    destruct st9 as [s9 l9 t9 v9]. unfold modify_self in M. injection M as <-.
    unfold bind, modify_self, print, emit, ret in H. cbn [self stdin trace server] in H.
    injection H as <- <-. cbn [self section_type section_id set_section_type set_section_id].
    destruct (O n sec Hsec) as [A | [T K]]; [rewrite lookup_empty in A; discriminate A |].
    split; [exact T |]. split; [reflexivity |]. exists n. auto.
Qed.

Lemma get_section_returns_movie_or_show_witness :
  movie_or_show (sec_type movies_section) = true
  /\ section_type
       (self (snd (get_section (mkState example_self [] [] answering_server))))
     = sec_type movies_section
  /\ exists n,
       int (sec_key movies_section) = Some n
       /\ section_id
            (self (snd (get_section (mkState example_self [] [] answering_server))))
          = PyInt n.
Proof.
  apply (get_section_returns_movie_or_show
           (mkState example_self [] [] answering_server)).
  vm_compute. reflexivity.
Defined.

Lemma reading_step (st : State) (prompt : string) (asked : nat) (rest : list string) :
  reading (mkState (self st) (stdin st) (trace st ++ [EvInput prompt]) (server st))
          prompt asked rest
  = reading st prompt (S asked) rest.
Proof.
  unfold reading. cbn [self stdin trace server repeat].
  now rewrite <- app_assoc.
Qed.

(** X13: at the section menu the answers are read one by one.  A line that
    is not numeric and is not [-1], or that is a number not on offer, costs
    one further prompt.  The first other line decides, and the lines after it
    stay unread: the number of an offered section (in the digits of any
    script) selects it, [-1] cancels, and a numeric text that [int] cannot
    convert raises [ValueError]. *)
Theorem choice_loop_reads_until_answer (choices : gmap Z Section)
    (bad : list string) (good : string) (rest : list string) :
  forall (choice : string) (st : State),
    choice :: stdin st = bad ++ good :: rest ->
    forallb (rejects choices) bad = true ->
    rejects choices good = false ->
    choice_loop choices choice (stdin st) st
    = (chosen choices good,
       reading st "Invalid section, please try again (-1 to cancel): " (length bad) rest).
Proof.
  induction bad as [| b bad IH]; intros choice st E B G.
  - injection E as -> E. destruct st as [s lines tr srv]. cbn [stdin] in *. subst lines.
    unfold reading. cbn [length repeat self stdin trace server]. rewrite app_nil_r.
    unfold rejects in G.
    destruct rest; cbn [choice_loop]; destruct (chosen choices good) as [[n |] | e] eqn:C;
      try reflexivity;
      destruct (String.eqb good "-1"); try discriminate G; reflexivity.
  - injection E as -> E.
    cbn [forallb] in B. apply andb_prop in B as [B1 B2].
    unfold rejects in B1.
    destruct st as [s lines tr srv]. cbn [stdin] in *.
    destruct lines as [| line lines].
    { destruct bad; discriminate E. }
    cbn [choice_loop].
    destruct (chosen choices b) as [[n |] | e]; try discriminate B1.
    destruct (String.eqb b "-1"); [discriminate B1 |].
    unfold bind at 1. unfold input. cbn [stdin self trace server].
    assert (R := IH line
                   (mkState s lines
                      (tr ++ [EvInput "Invalid section, please try again (-1 to cancel): "])
                      srv) E B2 G).
    cbn [stdin] in R. rewrite R.
    f_equal. apply (reading_step (mkState s (line :: lines) tr srv)).
Qed.

(** Section 3 is on offer: [7] and [movies] are asked again, the Arabic-Indic
    three selects section 3. *)
Lemma choice_loop_reads_until_answer_witness :
  choice_loop (<[3 := movies_section]> ∅) "7" ["movies"; arabic_three; "unread"]
    (mkState example_self ["movies"; arabic_three; "unread"] [] answering_server)
  = (chosen (<[3 := movies_section]> ∅) arabic_three,
     reading (mkState example_self ["movies"; arabic_three; "unread"] [] answering_server)
       "Invalid section, please try again (-1 to cancel): " 2 ["unread"]).
Proof.
  apply (choice_loop_reads_until_answer (<[3 := movies_section]> ∅)
           ["7"; "movies"] arabic_three ["unread"] "7"
           (mkState example_self ["movies"; arabic_three; "unread"] [] answering_server)).
  - reflexivity.
  - vm_compute. reflexivity.
  - vm_compute. reflexivity.
Defined.

(** What the three kinds of deciding answers give. *)
Example deciding_answers :
  chosen (<[3 := movies_section]> ∅) arabic_three = Ok (Some 3)
  /\ chosen (<[3 := movies_section]> ∅) "3" = Ok (Some 3)
  /\ chosen (<[3 := movies_section]> ∅) "-1" = Ok None
  /\ chosen (<[3 := movies_section]> ∅) superscript_two = Raise ValueError
  /\ rejects (<[3 := movies_section]> ∅) superscript_two = false
  /\ rejects (<[3 := movies_section]> ∅) "-1" = false
  /\ rejects (<[3 := movies_section]> ∅) "4" = true
  /\ rejects (<[3 := movies_section]> ∅) " 3" = true.
Proof. vm_compute. repeat split. Qed.

(** X14: when standard input ends and every line was one the menu asks again
    for, the menu loop raises [EOFError] after one prompt for each line it
    had and one more. *)
Theorem choice_loop_out_of_input (choices : gmap Z Section) :
  forall (lines : list string) (choice : string) (st : State),
    stdin st = lines ->
    forallb (rejects choices) (choice :: lines) = true ->
    choice_loop choices choice lines st
    = (Raise EOFError,
       reading st "Invalid section, please try again (-1 to cancel): "
         (S (length lines)) []).
Proof.
  induction lines as [| line lines IH]; intros choice st E B;
    cbn [forallb] in B; apply andb_prop in B as [B1 B2];
    unfold rejects in B1; destruct st as [s l tr srv]; cbn [stdin] in E; subst l;
    cbn [choice_loop];
    (destruct (chosen choices choice) as [[n |] | e]; try discriminate B1);
    (destruct (String.eqb choice "-1"); [discriminate B1 |]).
  - reflexivity.
  - unfold bind at 1. unfold input. cbn [stdin self trace server].
    assert (R := IH line
                   (mkState s lines
                      (tr ++ [EvInput "Invalid section, please try again (-1 to cancel): "])
                      srv) eq_refl B2).
    rewrite R.
    f_equal. apply (reading_step (mkState s (line :: lines) tr srv)).
Qed.

Lemma choice_loop_out_of_input_witness :
  choice_loop (<[1 := movies_section]> ∅) "7" ["movies"]
    (mkState example_self ["movies"] [] answering_server)
  = (Raise EOFError,
     reading (mkState example_self ["movies"] [] answering_server)
       "Invalid section, please try again (-1 to cancel): " 2 []).
Proof.
  apply (choice_loop_out_of_input (<[1 := movies_section]> ∅) ["movies"] "7"
           (mkState example_self ["movies"] [] answering_server)).
  - reflexivity.
  - vm_compute. reflexivity.
Defined.

(** ** Yes/no prompt *)

Lemma yes_no_letter (response : string) :
  (Ascii.eqb (first_letter response) "y" || Ascii.eqb (first_letter response) "n",
   Ascii.eqb (first_letter response) "y")
  = match yes_no_answer response with
    | Some b => (true, b)
    | None => (false, false)
    end.
Proof.
  destruct response as [| c r]; [reflexivity |].
  unfold first_letter, yes_no_answer. cbn [lower].
  destruct c as [[] [] [] [] [] [] [] []]; vm_compute; reflexivity.
Qed.

Lemma yes_no_loop_step (prompt line : string) (lines pending : list string)
    (s : Self) (tr : list event) (srv : list event -> string -> http_reply) :
  yes_no_loop prompt pending (mkState s (line :: lines) tr srv)
  = match yes_no_answer line with
    | Some b => (Ok b, mkState s lines (tr ++ [EvInput (prompt +:+ " (y/n)? ")]) srv)
    | None =>
        match pending with
        | [] => (Raise EOFError,
                 mkState s lines (tr ++ [EvInput (prompt +:+ " (y/n)? ")]) srv)
        | _ :: pending =>
            yes_no_loop prompt pending
              (mkState s lines (tr ++ [EvInput (prompt +:+ " (y/n)? ")]) srv)
        end
    end.
Proof.
  assert (L := yes_no_letter line).
  destruct pending as [| p pending]; cbn [yes_no_loop];
    unfold bind at 1; unfold input; cbn [stdin self trace server];
    destruct (yes_no_answer line) as [b |]; injection L as -> L2;
    try rewrite L2; reflexivity.
Qed.

(** X15: [get_yes_no] asks again for every line that starts with none of
    [y], [Y], [n], [N] (an empty line included), and the first line that
    starts with one of them decides: true for [y] or [Y], false for [n] or
    [N].  The lines after it stay unread. *)
Theorem get_yes_no_reads_until_answer (prompt : string)
    (bad : list string) (good : string) (rest : list string) (b : bool) :
  forall st : State,
    stdin st = bad ++ good :: rest ->
    Forall (fun line => yes_no_answer line = None) bad ->
    yes_no_answer good = Some b ->
    get_yes_no prompt st
    = (Ok b, reading st (prompt +:+ " (y/n)? ") (S (length bad)) rest).
Proof.
  intros st E B G. unfold get_yes_no, bind at 1.
  revert st E. induction B as [| line bad N B IH]; intros st E;
    destruct st as [s lines tr srv]; cbn [stdin] in *; subst lines.
  - cbn [app]. rewrite yes_no_loop_step, G. reflexivity.
  - cbn [app]. rewrite yes_no_loop_step, N.
    assert (R := IH (mkState s (bad ++ good :: rest)
                       (tr ++ [EvInput (prompt +:+ " (y/n)? ")]) srv) eq_refl).
    cbn [stdin] in R. rewrite R.
    f_equal. apply (reading_step (mkState s (line :: bad ++ good :: rest) tr srv)).
Qed.

Lemma get_yes_no_reads_until_answer_witness :
  get_yes_no "Delete" (mkState example_self [""; "maybe"; "Yes"; "n"] [] answering_server)
  = (Ok true,
     reading (mkState example_self [""; "maybe"; "Yes"; "n"] [] answering_server)
       ("Delete" +:+ " (y/n)? ") 3 ["n"]).
Proof.
  apply (get_yes_no_reads_until_answer "Delete" [""; "maybe"] "Yes" ["n"] true
           (mkState example_self [""; "maybe"; "Yes"; "n"] [] answering_server)).
  - reflexivity.
  - repeat constructor.
  - reflexivity.
Defined.

(** X16: when no line of standard input answers the question, [get_yes_no]
    raises [EOFError] after one prompt for each line and one more. *)
Theorem get_yes_no_out_of_input (prompt : string) :
  forall st : State,
    Forall (fun line => yes_no_answer line = None) (stdin st) ->
    get_yes_no prompt st
    = (Raise EOFError,
       reading st (prompt +:+ " (y/n)? ") (S (length (stdin st))) []).
Proof.
  intros st B. unfold get_yes_no, bind at 1.
  destruct st as [s lines tr srv]. cbn [stdin] in *.
  revert tr. induction B as [| line lines N B IH]; intros tr.
  - reflexivity.
  - rewrite yes_no_loop_step, N, IH. f_equal.
    apply (reading_step (mkState s (line :: lines) tr srv)).
Qed.

Lemma get_yes_no_out_of_input_witness :
  get_yes_no "Delete" (mkState example_self [""; "maybe"] [] answering_server)
  = (Raise EOFError,
     reading (mkState example_self [""; "maybe"] [] answering_server)
       ("Delete" +:+ " (y/n)? ") 3 []).
Proof.
  apply (get_yes_no_out_of_input "Delete"
           (mkState example_self [""; "maybe"] [] answering_server)).
  repeat constructor.
Defined.

(** ** Settings *)

Lemma get_config_value_settled (config cmd_args : gmap string pyval) (key : string)
    (default fallback : pyval) (prompt : string) (st : State) :
  flag_value cmd_args key <> None \/ file_value config key <> None
  \/ (default = PyNone /\ fallback = PyStr "")
  \/ (exists a d, default = PyStr (String a d) /\ fallback = default) ->
  get_config_value config cmd_args key default prompt st
  = (Ok (resolve config cmd_args key fallback),
     after st (duplicate_warning config cmd_args key)).
Proof.
  destruct st as [s lines tr srv].
  unfold get_config_value, resolve, duplicate_warning, flag_value, file_value, after.
  cbn [self stdin trace server].
  intros H.
  destruct (cmd_args !! key) as [[| b | n | t] |]; destruct (config !! key) as [[| b' | n' | t'] |];
    cbn [is_none negb] in *;
    try (unfold bind, print, emit, ret; cbn [self stdin trace server]; reflexivity);
    try (unfold ret; rewrite app_nil_r; reflexivity);
    destruct H as [H | [H | [[-> ->] | (a & d & -> & ->)]]]; try congruence;
    unfold ret; cbn [String.length Nat.eqb negb]; rewrite app_nil_r; reflexivity.
Qed.

Lemma section_step (v : pyval) (s0 : Self) (l0 : list string) (t0 : list event)
    (v0 : list event -> string -> http_reply) :
  (match v with
   | PyStr x =>
       if isnumeric x then
         match int x with
         | Some n => modify_self (set_section_id (PyInt n))
         | None => raise ValueError
         end
       else ret tt
   | _ => ret tt
   end) (mkState (set_section_id v s0) l0 t0 v0)
  = match as_section_id v with
    | Ok section => (Ok tt, mkState (set_section_id section s0) l0 t0 v0)
    | Raise e => (Raise e, mkState (set_section_id v s0) l0 t0 v0)
    end.
Proof.
  unfold as_section_id. destruct v as [| b | n | x]; try reflexivity.
  destruct (isnumeric x); [| reflexivity].
  destruct (int x); [| reflexivity]. now destruct s0.
Qed.

Lemma get_config_cases (loaded : option (gmap string pyval)) (cmd_args : Namespace)
    (st : State) :
  get_config (Some loaded) cmd_args st
  = match get_config_value (loaded_config loaded) (ns_dict cmd_args) "token" (PyStr "")
            "Enter your Plex token"
            (mkState (set_valid false (self st)) (stdin st) (trace st) (server st)) with
    | (Ok tok, st1) =>
        match as_section_id
                (resolve (loaded_config loaded) (ns_dict cmd_args) "section" (PyStr "")) with
        | Ok section =>
            (Ok tt,
             mkState (configured (loaded_config loaded) cmd_args tok section (self st1))
               (stdin st1)
               (trace st1 ++ later_warnings (loaded_config loaded) cmd_args) (server st1))
        | Raise e =>
            (Raise e,
             mkState (unconverted (loaded_config loaded) cmd_args tok (self st1))
               (stdin st1)
               (trace st1 ++ early_warnings (loaded_config loaded) cmd_args) (server st1))
        end
    | (Raise e, st1) => (Raise e, st1)
    end.
Proof.
  unfold get_config.
  change (match loaded with Some c => c | None => ∅ end) with (loaded_config loaded).
  set (config := loaded_config loaded). set (args := ns_dict cmd_args).
  destruct st as [s l t v]. cbn [self stdin trace server].
  erewrite bind_ok by reflexivity. cbn [self stdin trace server].
  destruct (get_config_value config args "token" (PyStr "") "Enter your Plex token" _)
    as [[tok | e] [s1 l1 t1 v1]] eqn:T.
  2: { erewrite bind_raise by exact T. reflexivity. }
  erewrite bind_ok by exact T.
  erewrite bind_ok by reflexivity. cbn [self stdin trace server].
  erewrite bind_ok
    by (apply get_config_value_settled with (fallback := PyStr "http://localhost:32400");
        right; right; right; eexists; eexists; split; reflexivity).
  unfold after. cbn [self stdin trace server].
  erewrite bind_ok by reflexivity. cbn [self stdin trace server].
  erewrite bind_ok
    by (apply get_config_value_settled with (fallback := PyStr "");
        right; right; left; split; reflexivity).
  unfold after. cbn [self stdin trace server].
  erewrite bind_ok by reflexivity. cbn [self stdin trace server].
  destruct (as_section_id (resolve config args "section" (PyStr ""))) as [section | e] eqn:A.
  2: { erewrite bind_raise by (rewrite section_step, A; reflexivity).
       unfold unconverted, early_warnings. fold config. fold args.
       cbn [self stdin trace server]. now rewrite <- app_assoc. }
  erewrite bind_ok by (rewrite section_step, A; reflexivity).
  erewrite bind_ok
    by (apply get_config_value_settled with (fallback := PyStr "Movies with Extras");
        right; right; right; eexists; eexists; split; reflexivity).
  unfold after. cbn [self stdin trace server].
  erewrite bind_ok by reflexivity. cbn [self stdin trace server].
  assert (F : flag_value args "no_delete" = Some (PyBool (ns_no_delete cmd_args)))
    by reflexivity.
  erewrite bind_ok
    by (apply get_config_value_settled with (fallback := PyNone);
        left; rewrite F; discriminate).
  unfold after. cbn [self stdin trace server].
  erewrite bind_ok by reflexivity. cbn [self stdin trace server].
  erewrite bind_ok by reflexivity. cbn [self stdin trace server].
  assert (R : resolve config args "no_delete" PyNone = PyBool (ns_no_delete cmd_args)).
  { unfold resolve. rewrite F. reflexivity. }
  unfold modify_self, after. cbn [self stdin trace server]. rewrite R.
  unfold later_warnings. fold config. fold args.
  rewrite <- !app_assoc.
  f_equal.
Qed.

(** X17: with a config file present and a token given by the flag or the
    file, [get_config] reads no line.  Every setting is the flag's value,
    else the file's, else its default (the empty text for the section);
    [no_delete] is the flag; one warning is printed for each setting given
    twice.  A section that is a numeric text is converted with [int]: when
    that succeeds the object is marked valid, and when it raises
    [ValueError] (a numeric text that is not made of decimal digits) the
    object stays invalid with the settings read so far. *)
Theorem get_config_settles (loaded : option (gmap string pyval)) (cmd_args : Namespace)
    (st : State) :
  flag_value (ns_dict cmd_args) "token" <> None
  \/ file_value (loaded_config loaded) "token" <> None ->
  let config := loaded_config loaded in
  let tok := resolve config (ns_dict cmd_args) "token" (PyStr "") in
  get_config (Some loaded) cmd_args st
  = match as_section_id (resolve config (ns_dict cmd_args) "section" (PyStr "")) with
    | Ok section =>
        (Ok tt,
         mkState (configured config cmd_args tok section (self st)) (stdin st)
           (trace st ++ duplicate_warning config (ns_dict cmd_args) "token"
            ++ later_warnings config cmd_args)
           (server st))
    | Raise e =>
        (Raise e,
         mkState (unconverted config cmd_args tok (set_valid false (self st))) (stdin st)
           (trace st ++ duplicate_warning config (ns_dict cmd_args) "token"
            ++ early_warnings config cmd_args)
           (server st))
    end.
Proof.
  intros H. cbv zeta. rewrite get_config_cases.
  rewrite (get_config_value_settled _ _ _ _ (PyStr "")) by tauto.
  unfold after. cbn [self stdin trace server].
  destruct (as_section_id _); now rewrite <- app_assoc.
Qed.

Lemma get_config_settles_witness :
  get_config (Some (Some (<["section" := PyStr arabic_three]> config_section_1)))
    (mkArgs None (Some "SECRET") None None true) (initial_state ["unread"] answering_server)
  = (Ok tt,
     mkState
       (mkSelf true (PyStr "SECRET") (PyStr "http://localhost:32400") (PyInt 3)
          (PyStr "Movies with Extras") (PyBool true) "movie" [])
       ["unread"]
       [EvPrint ("WARN: Duplicate argument " +:+ dq +:+ "token" +:+ dq
                 +:+ " found in both command-line arguments and config file. Using command-line value ("
                 +:+ dq +:+ "SECRET" +:+ dq +:+ ")")]
       answering_server).
Proof.
  refine (eq_trans
            (get_config_settles
               (Some (<["section" := PyStr arabic_three]> config_section_1))
               (mkArgs None (Some "SECRET") None None true)
               (initial_state ["unread"] answering_server) (or_introl _)) _).
  - vm_compute. discriminate.
  - vm_compute. reflexivity.
Defined.

(** A section given as the superscript two: [int] raises, the object stays
    invalid and holds the text as its section. *)
Example section_that_does_not_convert :
  get_config (Some (Some config_section_1))
    (mkArgs None None (Some superscript_two) None false)
    (initial_state [] answering_server)
  = (Raise ValueError,
     mkState
       (mkSelf false (PyStr "TOKEN") (PyStr "http://localhost:32400")
          (PyStr superscript_two) PyNone PyNone "" [])
       []
       [EvPrint ("WARN: Duplicate argument " +:+ dq +:+ "section" +:+ dq
                 +:+ " found in both command-line arguments and config file. Using command-line value ("
                 +:+ dq +:+ superscript_two +:+ dq +:+ ")")]
       answering_server).
Proof. vm_compute. reflexivity. Qed.

(** X18: with a config file present and no token given by flag or file,
    [get_config] asks for the token once and takes the line it reads as the
    token, an empty line included; the other settings are resolved as when
    the token is given, the conversion of the section included.  When
    standard input is at its end the prompt raises [EOFError] and the object
    stays invalid. *)
Theorem get_config_asks_for_token (loaded : option (gmap string pyval))
    (cmd_args : Namespace) (st : State) :
  flag_value (ns_dict cmd_args) "token" = None ->
  file_value (loaded_config loaded) "token" = None ->
  let config := loaded_config loaded in
  let asked := EvInput (nl +:+ "Enter your Plex token" +:+ ": ") in
  get_config (Some loaded) cmd_args st
  = match stdin st with
    | line :: rest =>
        match as_section_id (resolve config (ns_dict cmd_args) "section" (PyStr "")) with
        | Ok section =>
            (Ok tt,
             mkState (configured config cmd_args (PyStr line) section (self st)) rest
               (trace st ++ asked :: later_warnings config cmd_args) (server st))
        | Raise e =>
            (Raise e,
             mkState (unconverted config cmd_args (PyStr line) (set_valid false (self st)))
               rest (trace st ++ asked :: early_warnings config cmd_args) (server st))
        end
    | [] =>
        (Raise EOFError,
         mkState (set_valid false (self st)) [] (trace st ++ [asked]) (server st))
    end.
Proof.
  intros F G. cbv zeta. rewrite get_config_cases.
  unfold get_config_value. unfold flag_value in F. unfold file_value in G.
  destruct (ns_dict cmd_args !! "token") as [v |] eqn:A;
    destruct (loaded_config loaded !! "token") as [w |] eqn:B;
    try (destruct v; try discriminate F); try (destruct w; try discriminate G);
    cbn [is_none negb String.length Nat.eqb];
    destruct st as [s [| line rest] tr srv];
    unfold bind, input, ret; cbn [self stdin trace server];
    try reflexivity;
    destruct (as_section_id _); now rewrite <- app_assoc.
Qed.

Lemma get_config_asks_for_token_witness :
  get_config (Some None) no_flags (initial_state [""; "unread"] answering_server)
  = (Ok tt,
     mkState
       (mkSelf true (PyStr "") (PyStr "http://localhost:32400") (PyStr "")
          (PyStr "Movies with Extras") (PyBool false) "movie" [])
       ["unread"]
       [EvInput (nl +:+ "Enter your Plex token" +:+ ": ")]
       answering_server).
Proof.
  refine (eq_trans
            (get_config_asks_for_token None no_flags
               (initial_state [""; "unread"] answering_server) _ _) _).
  - reflexivity.
  - reflexivity.
  - vm_compute. reflexivity.
Defined.

(** ** Synchronising the collection *)










Lemma in_collections_non_text (name : pyval) (collections : list string) :
  (forall n, name <> PyStr n) -> in_collections name collections = false.
Proof.
  intros N. unfold in_collections.
  induction collections as [| c collections IH]; [reflexivity |].
  cbn [existsb]. rewrite IH. destruct name; try reflexivity. now destruct (N s).
Qed.

Lemma post_process_loop_non_text (s0 : Self) (lines : list string)
    (srv : list event -> string -> http_reply) (tr : list event)
    (added removed : list string) :
  (forall n, collection_name s0 <> PyStr n) ->
  forall todo done,
    NoDup (dict_keys (done ++ todo)) ->
    post_process_loop (dict_keys todo) (added, removed)
      (mkState (set_mediaItems (done ++ todo) s0) lines tr srv)
    = (if existsb (fun item => mi_has_extras (snd item)) todo
       then Raise TypeError else Ok (added, removed),
       mkState (set_mediaItems (done ++ todo) s0) lines tr srv).
Proof.
  intros N. induction todo as [| [k e] todo IH]; intros done D; [reflexivity |].
  assert (F : ~ In k (dict_keys done)).
  { unfold dict_keys in D. rewrite map_app in D. cbn [map fst] in D.
    apply NoDup_app in D as (_ & D & _). intros I.
    apply (D k); [now apply list_elem_of_In | left]. }
  cbn [dict_keys map fst post_process_loop existsb snd].
  assert (P : post_process_item k (added, removed)
                (mkState (set_mediaItems (done ++ (k, e) :: todo) s0) lines tr srv)
              = (if mi_has_extras e then Raise TypeError else Ok (added, removed),
                 mkState (set_mediaItems (done ++ (k, e) :: todo) s0) lines tr srv)).
  { unfold post_process_item. unfold bind at 1. unfold get_self.
    cbn [self mediaItems set_mediaItems collection_name].
    rewrite (dict_get_app_fresh _ _ _ _ F).
    rewrite (in_collections_non_text _ _ N).
    destruct (mi_has_extras e); [| reflexivity].
    destruct (collection_name s0) as [| b | n | t]; try reflexivity.
    now destruct (N t). }
  destruct (mi_has_extras e).
  - erewrite bind_raise by exact P. reflexivity.
  - erewrite bind_ok by exact P.
    replace (done ++ (k, e) :: todo) with ((done ++ [(k, e)]) ++ todo)
      by now rewrite <- app_assoc.
    apply IH. now rewrite <- app_assoc.
Qed.

(** X21: when the collection name is not a text (a number or a boolean from
    the config file), [post_process] raises [TypeError] as soon as the map
    has an item with local extras, and completes with nothing added or
    removed otherwise; either way it sends no request. *)
Theorem non_text_collection_name (st : State) :
  (forall n, collection_name (self st) <> PyStr n) ->
  NoDup (dict_keys (mediaItems (self st))) ->
  fst (post_process st)
  = (if existsb (fun item => mi_has_extras (snd item)) (mediaItems (self st))
     then Raise TypeError else Ok ([], []))
  /\ requests (emitted post_process st) = [].
Proof.
  intros N D. destruct st as [s lines tr srv]. cbn [self] in *.
  assert (L : forall tr0,
             post_process_loop (dict_keys (mediaItems s)) ([], [])
               (mkState s lines tr0 srv)
             = (if existsb (fun item => mi_has_extras (snd item)) (mediaItems s)
                then Raise TypeError else Ok ([], []),
                mkState s lines tr0 srv)).
  { intros tr0.
    assert (R := post_process_loop_non_text s lines srv tr0 [] [] N (mediaItems s) [] D).
    cbn [app] in R. rewrite set_mediaItems_same in R. exact R. }
  destruct (existsb (fun item => mi_has_extras (snd item)) (mediaItems s)) eqn:X.
  - assert (E : exists h,
               forallb is_print h = true
               /\ post_process (mkState s lines tr srv)
                  = (Raise TypeError, mkState s lines (tr ++ h) srv)).
    { unfold post_process.
      unfold bind at 1. unfold get_self at 1. cbn [self].
      do 4 (unfold bind at 1; unfold print at 1, emit at 1; cbn [self stdin trace server]).
      unfold bind at 1. rewrite L.
      eexists. split; [| rewrite <- !app_assoc; reflexivity]. reflexivity. }
    destruct E as (h & Ph & E).
    unfold emitted. rewrite E. cbn [fst snd self trace].
    split; [reflexivity |]. rewrite drop_app_length.
    now apply requests_prints.
  - destruct (post_process_shape (mkState s lines tr srv) [] [] s []) as (h & f & Ph & Pf & E).
    { intros tr0. cbn [self stdin server]. rewrite L, app_nil_r. reflexivity. }
    unfold emitted. rewrite E. cbn [fst snd self trace].
    split; [reflexivity |]. rewrite drop_app_length. cbn [app].
    apply requests_prints. rewrite forallb_app, Ph, Pf. reflexivity.
Qed.

Lemma non_text_collection_name_witness :
  fst (post_process (mkState (set_collection_name (PyInt 7) example_self) [] [] unreachable))
  = (if existsb (fun item => mi_has_extras (snd item))
          (mediaItems (set_collection_name (PyInt 7) example_self))
     then Raise TypeError else Ok ([], []))
  /\ requests (emitted post_process
                 (mkState (set_collection_name (PyInt 7) example_self) [] [] unreachable))
     = [].
Proof.
  apply (non_text_collection_name
           (mkState (set_collection_name (PyInt 7) example_self) [] [] unreachable)).
  - intros n. discriminate.
  - exact example_keys_NoDup.
Defined.

(** ** Order of the events *)

Section Emits.

Context {P : event -> bool}.

Lemma emits_ret {A} (a : A) : emits P (ret a).
Proof. intros st. exists []. split; [now rewrite app_nil_r | reflexivity]. Qed.

Lemma emits_raise {A} (e : exn) : emits P (@raise A e).
Proof. intros st. exists []. split; [now rewrite app_nil_r | reflexivity]. Qed.

Lemma emits_get_self : emits P get_self.
Proof. intros st. exists []. split; [now rewrite app_nil_r | reflexivity]. Qed.

Lemma emits_modify_self (f : Self -> Self) : emits P (modify_self f).
Proof. intros st. exists []. split; [cbn; now rewrite app_nil_r | reflexivity]. Qed.

Lemma emits_pending : emits P (fun st => (Ok (stdin st), st)).
Proof. intros st. exists []. split; [now rewrite app_nil_r | reflexivity]. Qed.

Lemma emits_emit (e : event) : P e = true -> emits P (emit e).
Proof. intros H st. exists [e]. split; [reflexivity | cbn; now rewrite H]. Qed.

Lemma emits_print (text : string) : P (EvPrint text) = true -> emits P (print text).
Proof. apply emits_emit. Qed.

Lemma emits_input (prompt : string) : P (EvInput prompt) = true -> emits P (input prompt).
Proof.
  intros H st. exists [EvInput prompt]. split; [| cbn; now rewrite H].
  unfold input. now destruct (stdin st).
Qed.

Lemma emits_requests_get (u : string) : P (EvGet u) = true -> emits P (requests_get u).
Proof.
  intros H st. exists [EvGet u]. split; [| cbn; now rewrite H].
  unfold requests_get. now destruct (server st (trace st) u).
Qed.

Lemma emits_requests_options (u : string) :
  P (EvOptions u) = true -> emits P (requests_options u).
Proof.
  intros H st. exists [EvOptions u]. split; [| cbn; now rewrite H].
  unfold requests_options. now destruct (server st (trace st) u).
Qed.

Lemma emits_requests_put (u : string) : P (EvPut u) = true -> emits P (requests_put u).
Proof.
  intros H st. exists [EvPut u]. split; [| cbn; now rewrite H].
  unfold requests_put. now destruct (server st (trace st) u).
Qed.

Lemma emits_bind {A B} (c : M A) (k : A -> M B) :
  emits P c -> (forall a, emits P (k a)) -> emits P (bind c k).
Proof.
  intros Hc Hk st. unfold bind.
  destruct (Hc st) as (l1 & E1 & P1).
  destruct (c st) as [[a | e] st1]; cbn [snd] in *.
  - destruct (Hk a st1) as (l2 & E2 & P2).
    exists (l1 ++ l2). rewrite E2, E1, <- app_assoc, forallb_app, P1, P2. auto.
  - exists l1. auto.
Qed.

Lemma emits_try_except {A} (body : M A) (handler : exn -> M A) :
  emits P body -> (forall e, emits P (handler e)) -> emits P (try_except body handler).
Proof.
  intros Hc Hk st. unfold try_except.
  destruct (Hc st) as (l1 & E1 & P1).
  destruct (body st) as [[a | e] st1]; cbn [snd] in *.
  - exists l1. auto.
  - destruct (Hk e st1) as (l2 & E2 & P2).
    exists (l1 ++ l2). rewrite E2, E1, <- app_assoc, forallb_app, P1, P2. auto.
Qed.

Lemma emits_for_each {A} (l : list A) (body : A -> M unit) :
  (forall x, emits P (body x)) -> emits P (for_each l body).
Proof.
  intros H. induction l as [| x l IH]; cbn [for_each].
  - apply emits_ret.
  - apply emits_bind; [apply H | intros _; exact IH].
Qed.

End Emits.

Ltac emits_step :=
  first
    [ apply emits_ret | apply emits_raise | apply emits_get_self
    | apply emits_modify_self | apply emits_pending
    | apply emits_print; reflexivity | apply emits_input; reflexivity
    | apply emits_requests_get; reflexivity | apply emits_emit; reflexivity
    | apply emits_requests_options; reflexivity | apply emits_requests_put; reflexivity
    | apply emits_bind; [| intros ?]
    | apply emits_try_except; [| intros ?]
    | apply emits_for_each; intros ?
    | match goal with
      | |- emits _ (let (_, _) := ?x in _) => destruct x
      | |- emits _ (match ?x with _ => _ end) => destruct x
      end ].

Ltac emits_all := repeat emits_step.

Lemma get_json_response_reads (path : string) (params : list (string * string)) :
  emits reads (get_json_response path params).
Proof. unfold get_json_response. emits_all. Qed.

Lemma test_plex_connection_reads : emits reads test_plex_connection.
Proof. unfold test_plex_connection. emits_all. Qed.

Lemma find_section_reads (n : Z) (sections : list Section) :
  emits reads (find_section n sections).
Proof. induction sections as [| x sections IH]; cbn [find_section]; emits_all. exact IH. Qed.

Lemma list_choices_reads (sections : list Section) :
  forall choices, emits reads (list_choices sections choices).
Proof.
  induction sections as [| x sections IH]; intros choices; cbn [list_choices]; emits_all;
    apply IH.
Qed.

Lemma choice_loop_reads (choices : gmap Z Section) (pending : list string) :
  forall choice, emits reads (choice_loop choices choice pending).
Proof.
  induction pending as [| line pending IH]; intros choice; cbn [choice_loop]; emits_all.
  apply IH.
Qed.

Lemma get_section_reads : emits reads get_section.
Proof.
  unfold get_section.
  repeat first [ apply get_json_response_reads | apply find_section_reads
               | apply list_choices_reads | apply choice_loop_reads | emits_step ].
Qed.

Lemma get_all_items_reads : emits reads get_all_items.
Proof.
  unfold get_all_items.
  repeat first [ apply get_json_response_reads | emits_step ].
Qed.

Lemma get_metadata_reads (loc : string) : emits reads (get_metadata loc).
Proof.
  unfold get_metadata.
  repeat first [ apply get_json_response_reads | emits_step ].
Qed.

Lemma rating_keys_reads (items : list (option Metadata)) : emits reads (rating_keys items).
Proof.
  induction items as [| [item |] items IH]; cbn [rating_keys]; emits_all. exact IH.
Qed.

Lemma process_metadata_reads (metadata : Metadata) : emits reads (process_metadata metadata).
Proof. unfold process_metadata, alter_item. emits_all. Qed.

Lemma process_item_group_reads (group : list (option Metadata)) :
  emits reads (process_item_group group).
Proof.
  unfold process_item_group, process_entry.
  repeat first [ apply get_metadata_reads | apply rating_keys_reads
               | apply process_metadata_reads | emits_step ].
Qed.

Lemma set_collections_writes (metadata_id : string) (collections : list string) :
  emits writes (set_collections metadata_id collections).
Proof. unfold set_collections. emits_all. Qed.

Lemma post_process_item_writes (item : string) (lists : list string * list string) :
  emits writes (post_process_item item lists).
Proof.
  unfold post_process_item, alter_item. destruct lists as [added removed].
  repeat first [ apply set_collections_writes | emits_step ].
Qed.

Lemma post_process_loop_writes (items : list string) :
  forall lists, emits writes (post_process_loop items lists).
Proof.
  induction items as [| item items IH]; intros lists; cbn [post_process_loop].
  - apply emits_ret.
  - apply emits_bind; [apply post_process_item_writes | exact IH].
Qed.

Lemma post_process_writes : emits writes post_process.
Proof.
  unfold post_process.
  repeat first [ apply post_process_loop_writes | emits_step ].
Qed.

Lemma get_config_value_reads (config cmd_args : gmap string pyval) (key : string)
    (default : pyval) (prompt : string) :
  emits reads (get_config_value config cmd_args key default prompt).
Proof.
  unfold get_config_value.
  destruct (config !! key) as [v |]; [destruct (is_none v) |]; emits_all.
Qed.

Lemma init_reads (config_file : option (option (gmap string pyval)))
    (cmd_args : Namespace) :
  emits reads (init config_file cmd_args).
Proof.
  unfold init, get_config.
  repeat first [ apply get_config_value_reads | emits_step ].
Qed.

Lemma reads_then_writes_bind {A B} (c : M A) (k : A -> M B) :
  emits reads c -> (forall a, reads_then_writes (k a)) -> reads_then_writes (bind c k).
Proof.
  intros Hc Hk st. unfold bind.
  destruct (Hc st) as (l1 & E1 & P1).
  destruct (c st) as [[a | e] st1]; cbn [snd] in *.
  - destruct (Hk a st1) as (scan & sync & E2 & P2 & P3).
    exists (l1 ++ scan), sync.
    rewrite E2, E1, <- !app_assoc, forallb_app, P1, P2. auto.
  - exists l1, []. rewrite app_nil_r. auto.
Qed.

Lemma reads_then_writes_ret {A} (a : A) : reads_then_writes (ret a).
Proof. intros st. exists [], []. cbn. now rewrite app_nil_r. Qed.

Lemma writes_only {A} (c : M A) : emits writes c -> reads_then_writes c.
Proof.
  intros H st. destruct (H st) as (l & E & W). exists [], l. auto.
Qed.

Lemma run_reads_then_writes : reads_then_writes run.
Proof.
  unfold run.
  apply reads_then_writes_bind; [apply emits_get_self | intros s].
  destruct (negb (valid s)); [apply reads_then_writes_ret |].
  apply reads_then_writes_bind; [apply test_plex_connection_reads | intros connected].
  destruct (negb connected); [apply reads_then_writes_ret |].
  apply reads_then_writes_bind; [apply get_section_reads | intros _].
  apply reads_then_writes_bind; [apply get_all_items_reads | intros root].
  destruct root as [[| x root] |]; try apply reads_then_writes_ret.
  apply reads_then_writes_bind; [apply emits_print; reflexivity | intros _].
  apply reads_then_writes_bind; [apply emits_print; reflexivity | intros _].
  apply reads_then_writes_bind.
  { apply emits_for_each. intros group. apply process_item_group_reads. }
  intros _. apply writes_only.
  apply emits_bind; [apply post_process_writes | intros _; apply emits_ret].
Qed.

(** X22: a run of the script first only reads and then only writes: whatever
    the server answers and whatever is typed, and whether the run completes
    or raises, every GET request and every prompt comes before the first
    OPTIONS or PUT request.  The server is changed only once the scan of the
    library is complete. *)
Theorem scan_precedes_changes (config_file : option (option (gmap string pyval)))
    (cmd_args : Namespace) (st : State) :
  exists scan sync,
    emitted (main config_file cmd_args) st = scan ++ sync
    /\ mutations scan = []
    /\ List.filter is_input sync = []
    /\ List.filter (fun e => is_request e && negb (is_mutation e)) sync = [].
Proof.
  assert (H : reads_then_writes (main config_file cmd_args)).
  { unfold main. apply reads_then_writes_bind; [apply init_reads | intros _].
    apply run_reads_then_writes. }
  destruct (H st) as (scan & sync & E & R & W).
  exists scan, sync. split; [now apply emitted_app |].
  split; [| split].
  - clear E. induction scan as [| e scan IH]; [reflexivity |].
    cbn [forallb] in R. apply andb_prop in R as [R1 R2].
    unfold mutations in *. cbn [List.filter].
    unfold reads in R1. destruct (is_mutation e); [discriminate R1 | now apply IH].
  - clear E. induction sync as [| e sync IH]; [reflexivity |].
    cbn [forallb] in W. apply andb_prop in W as [W1 W2].
    cbn [List.filter]. rewrite (IH W2). now destruct e.
  - clear E. induction sync as [| e sync IH]; [reflexivity |].
    cbn [forallb] in W. apply andb_prop in W as [W1 W2].
    cbn [List.filter]. rewrite (IH W2). now destruct e.
Qed.

(** ** The configured section and the early returns *)

Lemma find_section_first_match (n : Z) (section : Section) (rest : list Section) :
  int (sec_key section) = Some n ->
  movie_or_show (sec_type section) = true ->
  forall (before : list Section) (st : State),
    Forall (fun x => exists k, int (sec_key x) = Some k /\ k <> n) before ->
    find_section n (before ++ section :: rest) st
    = (Ok (Some section),
       mkState (set_section_type (sec_type section) (self st)) (stdin st)
         (trace st ++ [EvPrint ("Found section " +:+ pretty n +:+ ": " +:+ dq
                                +:+ sec_title section +:+ dq)])
         (server st)).
Proof.
  intros K T before st B. induction B as [| x before (k & Kx & Ne) B IH].
  - cbn [app find_section]. rewrite K, Z.eqb_refl, T. reflexivity.
  - cbn [app find_section]. rewrite Kx.
    destruct (Z.eqb_spec k n) as [E | _]; [contradiction | exact IH].
Qed.

(** X23: when the configured section is a number and the first listed
    section with that key is a movie or show library, [get_section] returns
    that section after the one GET for the list, without a prompt, and stores
    its type. *)
Theorem configured_section_is_used (st : State) (content : string)
    (container : MediaContainer) (before : list Section) (section : Section)
    (rest : list Section) (n : Z) :
  reply_to "/library/sections" [] st = Response 200 content (Some container) ->
  mc_Directory container = Some (before ++ section :: rest) ->
  section_id (self st) = PyInt n ->
  Forall (fun x => exists k, int (sec_key x) = Some k /\ k <> n) before ->
  int (sec_key section) = Some n ->
  movie_or_show (sec_type section) = true ->
  get_section st
  = (Ok (Some section),
     mkState (set_section_type (sec_type section) (self st)) (stdin st)
       (trace st ++ [EvGet (url (self st) "/library/sections" []);
                     EvPrint ("Found section " +:+ pretty n +:+ ": " +:+ dq
                              +:+ sec_title section +:+ dq)])
       (server st)).
Proof.
  intros R D Id B K T.
  assert (J : get_json_response "/library/sections" [] st
              = (Ok (Some container),
                 after st [EvGet (url (self st) "/library/sections" [])])).
  { rewrite get_json_response_cases, R. reflexivity. }
  unfold get_section.
  erewrite bind_ok by exact J. cbv beta iota. rewrite D.
  destruct st as [s lines tr srv]. cbn [after self stdin trace server] in *.
  erewrite bind_ok by reflexivity.
  cbn [after self stdin trace server]. rewrite Id.
  erewrite bind_ok.
  2: { erewrite bind_ok by (apply find_section_first_match; eassumption). reflexivity. }
  unfold ret. cbn [after self stdin trace server].
  now rewrite <- app_assoc.
Qed.

Lemma configured_section_is_used_witness :
  get_section (mkState example_self ["unread"] [] answering_server)
  = (Ok (Some movies_section),
     mkState (set_section_type "movie" example_self) ["unread"]
       ([] ++ [EvGet (url example_self "/library/sections" []);
               EvPrint ("Found section " +:+ pretty 1 +:+ ": " +:+ dq
                        +:+ "Movies" +:+ dq)])
       answering_server).
Proof.
  apply (configured_section_is_used
           (mkState example_self ["unread"] [] answering_server) ""
           (mkContainer (Some [movies_section; music_section]) None true)
           [] movies_section [music_section] 1).
  - vm_compute. reflexivity.
  - reflexivity.
  - reflexivity.
  - constructor.
  - reflexivity.
  - reflexivity.
Defined.

(** X24: without a config file the script prints one line, makes no request,
    reads no line, and ends normally with an object that is not valid and an
    empty map, whatever the command line holds. *)
Theorem missing_config_ends_run (cmd_args : Namespace) (st : State) :
  main None cmd_args st
  = (Ok tt,
     mkState (set_mediaItems [] (set_valid false (self st))) (stdin st)
       (trace st
        ++ [EvPrint "Could not find config.yml! Make sure it's in the same directory as this script"])
       (server st)).
Proof.
  destruct st as [s lines tr srv].
  assert (E : init None cmd_args (mkState s lines tr srv)
              = (Ok tt,
                 mkState (set_mediaItems [] (set_valid false s)) lines
                   (tr ++ [EvPrint "Could not find config.yml! Make sure it's in the same directory as this script"])
                   srv)) by reflexivity.
  unfold main. rewrite (bind_ok _ _ _ _ _ E).
  now rewrite run_invalid by reflexivity.
Qed.

(** X25: when the connection test does not get status 200 (the request
    fails, or the server answers with another status), [run] ends normally
    right after it: the test is the only request, no line is read, and the
    object is left as it was. *)
Theorem failed_connection_ends_run (st : State) :
  valid (self st) = true ->
  match reply_to "/" [] st with
  | Fails _ => True
  | Response status _ _ => status <> 200
  end ->
  fst (run st) = Ok tt
  /\ requests (emitted run st) = [EvGet (url (self st) "/" [])]
  /\ List.filter is_input (emitted run st) = []
  /\ self (snd (run st)) = self st
  /\ stdin (snd (run st)) = stdin st.
Proof.
  destruct st as [s lines tr srv]. unfold reply_to. cbn [self stdin trace server].
  intros V F.
  destruct (test_plex_connection_fails s lines tr srv F) as [text T].
  assert (R : run (mkState s lines tr srv)
              = (Ok tt, mkState s lines (tr ++ [EvGet (url s "/" []); EvPrint text]) srv)).
  { unfold run. unfold bind at 1. unfold get_self at 1. cbn [self]. rewrite V.
    cbn [negb]. now rewrite (bind_ok _ _ _ _ _ T). }
  unfold emitted. rewrite R. cbn [fst snd trace self stdin]. rewrite drop_app_length.
  repeat split.
Qed.

Lemma failed_connection_ends_run_witness :
  fst (run (mkState example_self ["unread"] [] unreachable)) = Ok tt
  /\ requests (emitted run (mkState example_self ["unread"] [] unreachable))
     = [EvGet (url example_self "/" [])]
  /\ List.filter is_input (emitted run (mkState example_self ["unread"] [] unreachable)) = []
  /\ self (snd (run (mkState example_self ["unread"] [] unreachable))) = example_self
  /\ stdin (snd (run (mkState example_self ["unread"] [] unreachable))) = ["unread"].
Proof.
  apply (failed_connection_ends_run (mkState example_self ["unread"] [] unreachable)).
  - reflexivity.
  - vm_compute. exact I.
Defined.

(** ** Episode titles *)

Lemma append_cancel_l (g x y : string) : g +:+ x = g +:+ y -> x = y.
Proof.
  induction g as [| c g IH]; intros E; [exact E |].
  change (String c (g +:+ x) = String c (g +:+ y)) in E.
  injection E as E. now apply IH.
Qed.

Lemma split_at_delimiter (P : ascii -> bool) (d : ascii) :
  P d = false ->
  forall x x' u u' : string,
    forallb P (chars x) = true -> forallb P (chars x') = true ->
    x +:+ String d u = x' +:+ String d u' -> x = x' /\ u = u'.
Proof.
  intros D. induction x as [| c x IH]; intros [| c' x'] u u' Px Px' E.
  - injection E as E. auto.
  - change (String d u = String c' (x' +:+ String d u')) in E. injection E as -> _.
    cbn in Px'. rewrite D in Px'. discriminate Px'.
  - change (String c (x +:+ String d u) = String d u') in E. injection E as -> _.
    cbn in Px. rewrite D in Px. discriminate Px.
  - change (String c (x +:+ String d u) = String c' (x' +:+ String d u')) in E.
    injection E as -> E.
    cbn in Px, Px'. apply andb_prop in Px as [_ Px]. apply andb_prop in Px' as [_ Px'].
    destruct (IH x' u u' Px Px' E) as [-> ->]. auto.
Qed.

Lemma pretty_N_char_numeral (x : N) :
  numeral_char (pretty_N_char x) = true.
Proof. unfold pretty_N_char. repeat case_match; reflexivity. Qed.

Lemma pretty_N_go_numeral (x : N) :
  forall s, forallb numeral_char (chars s) = true ->
            forallb numeral_char (chars (pretty_N_go x s)) = true.
Proof.
  induction (N.lt_wf_0 x) as [x _ IH]; intros s H.
  destruct (N.eq_dec x 0%N) as [-> | Nz].
  - now rewrite pretty_N_go_0.
  - rewrite pretty_N_go_step by lia.
    apply IH; [apply N.div_lt; lia |].
    cbn. now rewrite pretty_N_char_numeral.
Qed.

Lemma pretty_N_go_head (x : N) :
  forall s, (0 < x)%N ->
            exists c r, pretty_N_go x s = String c r /\ c <> "0"%char.
Proof.
  induction (N.lt_wf_0 x) as [x _ IH]; intros s Hx.
  rewrite pretty_N_go_step by exact Hx.
  destruct (N.eq_dec (x `div` 10)%N 0%N) as [Z0 | Nz].
  - rewrite Z0, pretty_N_go_0. eexists _, _. split; [reflexivity |].
    assert (L : (x < 10)%N) by (apply N.div_small_iff; [lia | exact Z0]).
    rewrite N.mod_small by exact L.
    assert (x = 1 \/ x = 2 \/ x = 3 \/ x = 4 \/ x = 5 \/ x = 6 \/ x = 7 \/ x = 8 \/ x = 9)%N
      as C by lia.
    destruct C as [-> | [-> | [-> | [-> | [-> | [-> | [-> | [-> | ->]]]]]]]]; discriminate.
  - apply IH; [apply N.div_lt; lia | now apply N.neq_0_lt_0].
Qed.

Lemma pretty_Z_numeral (z : Z) : forallb numeral_char (chars (pretty z)) = true.
Proof.
  destruct z as [| p | p]; [reflexivity | |].
  - change (pretty (Z.pos p)) with (pretty (N.pos p)). unfold pretty, pretty_N.
    destruct (decide (N.pos p = 0%N)); [reflexivity |].
    now apply pretty_N_go_numeral.
  - change (pretty (Z.neg p)) with ("-" +:+ pretty (N.pos p)).
    rewrite chars_app, forallb_app. unfold pretty, pretty_N.
    destruct (decide (N.pos p = 0%N)); [reflexivity |].
    rewrite pretty_N_go_numeral; reflexivity.
Qed.

Lemma pretty_Z_leading_zero (z : Z) (r : string) : pretty z = String "0" r -> r = "".
Proof.
  destruct z as [| p | p].
  - now intros [= <-].
  - change (pretty (Z.pos p)) with (pretty (N.pos p)). unfold pretty, pretty_N.
    destruct (decide (N.pos p = 0%N)); [discriminate |].
    destruct (pretty_N_go_head (N.pos p) "") as (c & t & -> & Nz); [lia |].
    intros [= -> _]. contradiction.
  - change (pretty (Z.neg p)) with (String "-" (pretty (N.pos p))). discriminate.
Qed.

Lemma pretty_Z_nonempty (z : Z) : pretty z <> "".
Proof.
  destruct z as [| p | p]; [discriminate | | discriminate].
  change (pretty (Z.pos p)) with (pretty (N.pos p)). unfold pretty, pretty_N.
  destruct (decide (N.pos p = 0%N)); [discriminate |].
  destruct (pretty_N_go_head (N.pos p) "") as (c & t & -> & _); [lia | discriminate].
Qed.

Lemma rjust_cases (z : Z) :
  (exists c, pretty z = String c "" /\ rjust 2 "0" (pretty z) = String "0" (String c ""))
  \/ (exists c d r, pretty z = String c (String d r) /\ rjust 2 "0" (pretty z) = pretty z).
Proof.
  destruct (pretty z) as [| c [| d r]] eqn:E.
  - now destruct (pretty_Z_nonempty z).
  - left. eauto.
  - right. eauto 6.
Qed.

Lemma rjust_numeral (z : Z) : forallb numeral_char (chars (rjust 2 "0" (pretty z))) = true.
Proof.
  assert (N := pretty_Z_numeral z).
  destruct (rjust_cases z) as [(c & E & ->) | (c & d & r & E & ->)]; [| exact N].
  rewrite E in N. exact N.
Qed.

Lemma rjust_pretty_inj (a b : Z) :
  rjust 2 "0" (pretty a) = rjust 2 "0" (pretty b) -> a = b.
Proof.
  intros E. apply (inj pretty).
  destruct (rjust_cases a) as [(c & Ea & Ra) | (c & d & r & Ea & Ra)];
    destruct (rjust_cases b) as [(c' & Eb & Rb) | (c' & d' & r' & Eb & Rb)];
    rewrite Ra, Rb in E.
  - injection E as ->. congruence.
  - rewrite Eb in E. injection E as <- <- <-.
    apply pretty_Z_leading_zero in Eb. discriminate Eb.
  - rewrite Ea in E. injection E as -> -> ->.
    apply pretty_Z_leading_zero in Ea. discriminate Ea.
  - exact E.
Qed.

(** X26: in a show library two episodes with the same show title get the
    same key in the map only when their season number, their episode number
    and their own title all agree; the padding of the numbers to two digits
    never makes two different numbers look alike. *)
Theorem episode_titles_separate (m1 m2 : Metadata) :
  md_grandparentTitle m1 = md_grandparentTitle m2 ->
  media_title_of "show" m1 = media_title_of "show" m2 ->
  md_parentIndex m1 = md_parentIndex m2
  /\ md_index m1 = md_index m2
  /\ md_title m1 = md_title m2.
Proof.
  intros G E. unfold media_title_of in E.
  change (String.eqb "show" "show") with true in E. cbv iota in E.
  rewrite G in E. apply append_cancel_l in E.
  apply (append_cancel_l " - S") in E.
  change ("E" +:+ ?x) with (String "E" x) in E.
  apply (split_at_delimiter numeral_char "E" eq_refl) in E as [E1 E2];
    try apply rjust_numeral.
  change (" - " +:+ ?x) with (String " " ("- " +:+ x)) in E2.
  apply (split_at_delimiter numeral_char " " eq_refl) in E2 as [E2 E3];
    try apply rjust_numeral.
  apply (append_cancel_l "- ") in E3.
  apply rjust_pretty_inj in E1, E2. auto.
Qed.

Lemma episode_titles_separate_witness : 1 = 1 /\ 12 = 12 /\ "Pilot" = "Pilot".
Proof.
  apply (episode_titles_separate
           (mkMetadata "/library/metadata/7" "7" "Pilot" "The Show" 1 12 None None)
           (mkMetadata "/library/metadata/8" "8" "Pilot" "The Show" 1 12 None None)).
  - reflexivity.
  - reflexivity.
Defined.

(** ** A push that fails *)

Section Quiet.

Variables (name : string) (s0 : Self) (lines : list string).
Variable srv : list event -> string -> http_reply.
Hypothesis name_is_str : collection_name s0 = PyStr name.

Let state (m : list (string * MediaItem)) (tr : list event) : State :=
  mkState (set_mediaItems m s0) lines tr srv.

Lemma post_process_item_quiet k e done todo tr added removed :
  ~ In k (dict_keys done) ->
  needs_push s0 name e = false ->
  post_process_item k (added, removed) (state (done ++ (k, e) :: todo) tr)
  = (Ok (added, removed ++ (if to_remove name e then [k] else [])),
     state (done ++ (k, e) :: todo)
           (tr ++ (if kept name e then [EvPrint k] else []))).
Proof.
  intros N Q. subst state.
  unfold post_process_item, print.
  unfold bind, get_self, emit, ret.
  cbn [self stdin trace server mediaItems set_mediaItems collection_name no_delete
         fst snd].
  rewrite (dict_get_app_fresh _ _ _ _ N), name_is_str.
  unfold needs_push, to_add, to_remove in Q. unfold kept, to_remove.
  destruct (in_collections (PyStr name) (mi_collections e)),
           (mi_has_extras e), (truthy (no_delete s0));
    cbn [andb orb negb] in Q; try discriminate Q;
    cbn [andb negb self stdin trace server mediaItems set_mediaItems];
    rewrite ?app_nil_r; reflexivity.
Qed.

Lemma post_process_loop_quiet quiet :
  forall done rest lists,
    NoDup (dict_keys (done ++ quiet ++ rest)) ->
    forallb (fun x => negb (needs_push s0 name (snd x))) quiet = true ->
    exists lists' printed,
      forallb is_print printed = true
      /\ forall tr,
           post_process_loop (dict_keys (quiet ++ rest)) lists
             (state (done ++ quiet ++ rest) tr)
           = post_process_loop (dict_keys rest) lists'
               (state (done ++ quiet ++ rest) (tr ++ printed)).
Proof.
  induction quiet as [| [k e] quiet IH]; intros done rest lists D Q.
  - exists lists, []. split; [reflexivity |]. intros tr. cbn [app].
    now rewrite app_nil_r.
  - cbn [forallb snd] in Q. apply andb_prop in Q as [Qe Q].
    apply negb_true_iff in Qe.
    assert (N : ~ In k (dict_keys done)).
    { unfold dict_keys in D. rewrite map_app in D. simpl in D.
      apply NoDup_app in D as (_ & D & _). intros I.
      apply (D k); [now apply list_elem_of_In | left]. }
    destruct lists as [added removed].
    destruct (IH (done ++ [(k, e)]) rest
                 (added, removed ++ (if to_remove name e then [k] else [])))
      as (lists' & printed & P & E).
    { now rewrite <- app_assoc. }
    { exact Q. }
    exists lists', ((if kept name e then [EvPrint k] else []) ++ printed).
    split.
    + rewrite forallb_app, P. now destruct (kept name e).
    + intros tr. cbn [app dict_keys map fst post_process_loop].
      erewrite bind_ok by (apply post_process_item_quiet; assumption).
      specialize (E (tr ++ (if kept name e then [EvPrint k] else []))).
      rewrite <- app_assoc in E. cbn [app] in E.
      fold (dict_keys (quiet ++ rest)). rewrite E. now rewrite <- app_assoc.
Qed.

Lemma post_process_item_fails k e done todo tr lists err :
  ~ In k (dict_keys done) ->
  needs_push s0 name e = true ->
  (forall t, srv t (replacement_url s0 (mi_id e) (pushed_tags name e)) = Fails err) ->
  exists st',
    post_process_item k lists (state (done ++ (k, e) :: todo) tr)
    = (Raise (RequestException err), st')
    /\ trace st'
       = tr ++ [EvOptions (replacement_url s0 (mi_id e) (pushed_tags name e))].
Proof.
  intros N Q F. subst state. destruct lists as [added removed].
  unfold post_process_item, alter_item, set_collections.
  unfold bind, get_self, modify_self, ret, requests_options.
  cbn [self stdin trace server mediaItems set_mediaItems collection_name no_delete
         fst snd].
  rewrite (dict_get_app_fresh _ _ _ _ N), name_is_str.
  unfold needs_push, to_add, to_remove in Q. unfold pushed_tags in *.
  destruct (in_collections (PyStr name) (mi_collections e)),
           (mi_has_extras e), (truthy (no_delete s0));
    cbn [andb orb negb] in Q; try discriminate Q;
    cbn [andb negb self stdin trace server mediaItems set_mediaItems
           collection_name no_delete];
    rewrite !set_collections_url_spelled;
    unfold without, tag_is;
    repeat match goal with
           | |- context [replacement_url ?s ?i ?l] =>
               lazymatch s with
               | s0 => fail
               | _ => change (replacement_url s i l) with (replacement_url s0 i l)
               end
           end;
    rewrite F; eexists; split; reflexivity.
Qed.

End Quiet.

Lemma post_process_stops (st : State) (e : exn) (mid : list event) :
  (forall tr0, exists st',
     post_process_loop (dict_keys (mediaItems (self st))) ([], [])
       (mkState (self st) (stdin st) tr0 (server st)) = (Raise e, st')
     /\ trace st' = tr0 ++ mid) ->
  exists header st',
    forallb is_print header = true
    /\ post_process st = (Raise e, st')
    /\ trace st' = trace st ++ header ++ mid.
Proof.
  destruct st as [s lines tr srv]. cbn [self stdin trace server]. intros L.
  unfold post_process.
  unfold bind at 1. unfold get_self at 1. cbn [self].
  do 4 (unfold bind at 1; unfold print at 1, emit at 1; cbn [self stdin trace server]).
  unfold bind at 1.
  match goal with
  | |- context [post_process_loop _ _ (mkState _ _ ?t _)] =>
      destruct (L t) as (st' & -> & T)
  end.
  cbv beta iota.
  eexists [_; _; _; _], st'. split; [| split]; cycle 2.
  - rewrite T. repeat rewrite <- app_assoc. reflexivity.
  - reflexivity.
  - reflexivity.
Qed.

(** X27: a push that gets no response ends [post_process].  When [entry] is
    the first entry of the map for which the loop pushes a list, and the
    server does not answer the request for that list, [post_process] raises
    the exception of [requests.options]; the one request it has made is that
    OPTIONS request: no PUT follows it, and nothing is sent for the entries
    after [entry]. *)
Theorem failed_push_ends_post_process (name item : string) (entry : MediaItem)
    (before later_items : list (string * MediaItem)) (e : transport_error)
    (st : State) :
  collection_name (self st) = PyStr name ->
  mediaItems (self st) = before ++ (item, entry) :: later_items ->
  NoDup (dict_keys (mediaItems (self st))) ->
  forallb (fun x => negb (needs_push (self st) name (snd x))) before = true ->
  needs_push (self st) name entry = true ->
  (forall t, server st t (replacement_url (self st) (mi_id entry) (pushed_tags name entry))
             = Fails e) ->
  fst (post_process st) = Raise (RequestException e)
  /\ mutations (emitted post_process st)
     = [EvOptions (replacement_url (self st) (mi_id entry) (pushed_tags name entry))].
Proof.
  destruct st as [s lines tr srv]. cbn [self stdin trace server].
  intros Hn Hm D Q P F.
  assert (N : ~ In item (dict_keys before)).
  { rewrite Hm in D. unfold dict_keys in D. rewrite map_app in D. simpl in D.
    apply NoDup_app in D as (_ & D & _). intros I.
    apply (D item); [now apply list_elem_of_In | left]. }
  assert (D' : NoDup (dict_keys ([] ++ before ++ (item, entry) :: later_items)))
    by (cbn [app]; now rewrite <- Hm).
  destruct (post_process_loop_quiet name s lines srv Hn
              before [] ((item, entry) :: later_items) ([], []) D' Q)
    as (lists' & printed & Pp & E).
  cbn [app] in E. rewrite <- Hm, set_mediaItems_same in E.
  destruct (post_process_stops (mkState s lines tr srv) (RequestException e)
              (printed
               ++ [EvOptions (replacement_url s (mi_id entry) (pushed_tags name entry))]))
    as (header & st1 & Ph & R & T).
  - cbn [self stdin trace server]. intros tr0.
    destruct (post_process_item_fails name s lines srv Hn
                item entry before later_items (tr0 ++ printed) lists' e N P F)
      as (st' & Ei & Ti).
    rewrite <- Hm, set_mediaItems_same in Ei.
    exists st'. rewrite E. cbn [dict_keys map fst post_process_loop].
    erewrite bind_raise by exact Ei.
    split; [reflexivity |].
    rewrite Ti. now rewrite <- app_assoc.
  - unfold emitted. rewrite R. cbn [fst snd trace]. split; [reflexivity |].
    rewrite T, drop_app_length, !mutations_app.
    now rewrite (mutations_prints _ Ph), (mutations_prints _ Pp).
Qed.

Lemma failed_push_ends_post_process_witness :
  fst (post_process example_state_offline)
  = Raise (RequestException (mkTransportError true "ConnectionError"))
  /\ mutations (emitted post_process example_state_offline)
     = [EvOptions (replacement_url example_self "42" ["Action"; "Movies with Extras"])].
Proof.
  apply (failed_push_ends_post_process "Movies with Extras" "Aliens"
           (mkItem ["Action"] "42" true) []
           [("Brazil", mkItem ["Movies with Extras"] "43" false)]
           (mkTransportError true "ConnectionError") example_state_offline).
  - reflexivity.
  - reflexivity.
  - exact example_keys_NoDup.
  - reflexivity.
  - reflexivity.
  - intros t. reflexivity.
Defined.
